(** * The Rapier testbed: world-description encoder and step loop

    A shallow embedding of [Testbed.js] (the session controller of the
    Rapier physics testbed): [extractWorldDescription], the
    [worker.onmessage] handler, [stepMessage] and [setWorld], followed by
    the properties of the token protocol, of the pacing of step requests
    and of the encoder.

    JavaScript objects live in a store of objects addressed by location;
    a reference is a location, so sharing and in-place updates are
    visible.  Calls on collaborators that are outside the controller (the
    graphics, the GUI, the worker, the timer queue) are recorded in the
    state in the order in which they are made. *)

From Stdlib Require Import ZArith QArith String List Bool Lia.
From stdpp Require Import base list.
Import ListNotations.

Close Scope Q_scope.
Open Scope string_scope.
Open Scope list_scope.
Open Scope nat_scope.

(* ================================================================== *)
(** ** JavaScript values and the object store *)

(** Primitive values.  Numbers are rationals: the controller only copies
    numbers, compares them and adds one to a counter (exact on integers
    below 2^53). *)
Inductive prim : Type :=
| PUndefined
| PNull
| PBool (b : bool)
| PNumber (q : Q)
| PString (s : string).

(** A value is a primitive or a reference to an object of the store. *)
Inductive value : Type :=
| VPrim (p : prim)
| VRef (l : nat).

Definition undefined : value := VPrim PUndefined.
Definition number (q : Q) : value := VPrim (PNumber q).
Definition integer (n : Z) : value := VPrim (PNumber (inject_Z n)).
Definition boolean (b : bool) : value := VPrim (PBool b).
Definition str (s : string) : value := VPrim (PString s).

(** [!!v]: JavaScript truthiness. *)
Definition truthy_prim (p : prim) : bool :=
  match p with
  | PUndefined | PNull => false
  | PBool b => b
  | PNumber q => negb (Qeq_bool q 0)
  | PString s => negb (String.eqb s "")
  end.

Definition truthy (v : value) : bool :=
  match v with
  | VPrim p => truthy_prim p
  | VRef _ => true
  end.

(** Modelled from the spec: the objects of the Rapier API (world, rigid
    body, collider, joint, and the vectors and rotations their getters
    return) are implemented by the wasm bindings, which are not part of
    these sources.  A live object is described by what each getter called
    by the testbed returns: scalar getters return a primitive, a vector
    getter returns a vector of primitives, and a getter of a quantity
    that the shape or the joint does not have returns [undefined]
    ([None] for a vector or a rotation).  A getter reads the live object
    and changes nothing. *)
Record Vector : Type := mkVector {
  vec_x : prim; vec_y : prim; vec_z : prim }.

(** Modelled from the spec: the rotation (a quaternion) returned by a
    Rapier getter, which the wasm bindings implement. *)
Record Rotation : Type := mkRotation {
  rot_x : prim; rot_y : prim; rot_z : prim; rot_w : prim }.

(** Modelled from the spec: the properties of a Rapier world that the
    testbed reads and writes, the iteration counts and the fixed
    simulation timestep (in seconds). *)
Record World : Type := mkWorld {
  maxVelocityIterations : Q;
  maxPositionIterations : Q;
  timestep : Q }.

(** Modelled from the spec: what the getters [translation()],
    [handle()], [bodyType()] and [mass()] of a Rapier rigid body return. *)
Record RigidBody : Type := mkRigidBody {
  body_translation : Vector;
  body_handle : prim;
  body_bodyType : prim;
  body_mass : prim }.

(** Modelled from the spec: what the getters of a Rapier collider return;
    [radius()] and [halfExtents()] are the shape-specific geometry. *)
Record Collider : Type := mkCollider {
  coll_handle : prim;
  coll_parentHandle : prim;
  coll_shapeType : prim;
  coll_radius : prim;
  coll_density : prim;
  coll_friction : prim;
  coll_isSensor : prim;
  coll_halfExtents : option Vector }.

(** Modelled from the spec: what the getters of a Rapier joint return;
    the axes and the frames are those that the joint type uses. *)
Record Joint : Type := mkJoint {
  joint_anchor1 : Vector;
  joint_anchor2 : Vector;
  joint_axis1 : option Vector;
  joint_axis2 : option Vector;
  joint_frameX1 : option Rotation;
  joint_frameX2 : option Rotation;
  joint_bodyHandle1 : prim;
  joint_bodyHandle2 : prim;
  joint_jointType : prim }.

(** Objects of the store: objects built by an object literal (their
    properties in insertion order), arrays, and live Rapier objects. *)
Inductive object : Type :=
| OLiteral (props : list (string * value))
| OArray (elems : list value)
| OWorld (w : World)
| ORigidBody (b : RigidBody)
| OCollider (c : Collider)
| OJoint (j : Joint).

(** The store: location [l] is the [l]-th object allocated. *)
Abbreviation heap := (list object).

(** Property lookup and assignment on the property list of a literal. *)
Fixpoint assoc (k : string) (ps : list (string * value)) : option value :=
  match ps with
  | [] => None
  | (k', v) :: ps' => if String.eqb k k' then Some v else assoc k ps'
  end.

Fixpoint assoc_set (k : string) (v : value) (ps : list (string * value))
  : list (string * value) :=
  match ps with
  | [] => [(k, v)]
  | (k', v') :: ps' =>
      if String.eqb k k' then (k, v) :: ps' else (k', v') :: assoc_set k v ps'
  end.

(** [own_property h v k]: the own property [k] of the literal object that
    [v] refers to, [None] when the object has no such property. *)
Definition own_property (h : heap) (v : value) (k : string) : option value :=
  match v with
  | VRef l =>
      match h !! l with
      | Some (OLiteral ps) => assoc k ps
      | _ => None
      end
  | VPrim _ => None
  end.

(* ================================================================== *)
(** ** Computations on the store

    A computation takes the store and returns a result and the new
    store, or [None] when the JavaScript code throws (a [TypeError] on a
    property of [undefined], a method that the receiver does not have).
    Arguments that are no Rapier objects of the expected class are
    outside the API of the testbed and make the computation stop in the
    same way. *)
Definition M (A : Type) : Type := heap -> option (A * heap).

Definition ret {A : Type} (a : A) : M A := fun h => Some (a, h).

Definition bind {A B : Type} (m : M A) (k : A -> M B) : M B :=
  fun h =>
    match m h with
    | Some (a, h') => k a h'
    | None => None
    end.

Definition throw {A : Type} : M A := fun _ => None.

Notation "'do' x <- m ;; k" := (bind m (fun x => k))
  (at level 10, x name, m at level 99, k at level 200).

(** An object literal, [new Array()], [[]]: a new object at the next
    location. *)
Definition alloc (o : object) : M value :=
  fun h => Some (VRef (length h), h ++ [o]).

Definition deref (v : value) : M object :=
  fun h =>
    match v with
    | VRef l =>
        match h !! l with
        | Some o => Some (o, h)
        | None => None
        end
    | VPrim _ => None
    end.

(** [obj.k = v] on an object built by a literal. *)
Definition set_property (obj : value) (k : string) (v : value) : M unit :=
  fun h =>
    match obj with
    | VRef l =>
        match h !! l with
        | Some (OLiteral ps) => Some (tt, <[l := OLiteral (assoc_set k v ps)]> h)
        | _ => None
        end
    | VPrim _ => None
    end.

Fixpoint mapM {A B : Type} (f : A -> M B) (l : list A) : M (list B) :=
  match l with
  | [] => ret []
  | a :: l' => do b <- f a ;; do bs <- mapM f l' ;; ret (b :: bs)
  end.

(** [arr.map(f)]: the callback runs on the elements in order, and the
    results are the elements of a new array. *)
Definition array_map (f : value -> M value) (arr : value) : M value :=
  do o <- deref arr ;;
  match o with
  | OArray elems => do rs <- mapM f elems ;; alloc (OArray rs)
  | _ => throw
  end.

(* ================================================================== *)
(** ** [extractWorldDescription] *)

(** [{ x: v.x, y: v.y, z: v.z }] *)
Definition vector_literal (v : Vector) : object :=
  OLiteral [("x", VPrim (vec_x v)); ("y", VPrim (vec_y v)); ("z", VPrim (vec_z v))].

(** [{ x: r.x, y: r.y, z: r.z, w: r.w }] *)
Definition rotation_literal (r : Rotation) : object :=
  OLiteral [("x", VPrim (rot_x r)); ("y", VPrim (rot_y r));
            ("z", VPrim (rot_z r)); ("w", VPrim (rot_w r))].

(** [{ x: 0.0, y: 0.0, z: 0.0 }] and [{ x: 0.0, y: 0.0, z: 0.0, w: 1.0 }] *)
Definition zero_vector : Vector :=
  mkVector (PNumber 0) (PNumber 0) (PNumber 0).
Definition identity_rotation : Rotation :=
  mkRotation (PNumber 0) (PNumber 0) (PNumber 0) (PNumber 1).

(** [a || b] where [a] is an object or [undefined]. *)
Definition or_else {A : Type} (a : option A) (b : A) : A :=
  match a with
  | Some v => v
  | None => b
  end.

(** The callback of [bodies.map].  (A nested literal is allocated before
    the literal that holds it; only the numbering of the new locations
    depends on this order.) *)
Definition encode_body (body : value) : M value :=
  do o <- deref body ;;
  match o with
  | ORigidBody b =>
      let pos := body_translation b in
      do translation <- alloc (vector_literal pos) ;;
      alloc (OLiteral [("handle", VPrim (body_handle b));
                       ("type", VPrim (body_bodyType b));
                       ("translation", translation);
                       ("mass", VPrim (body_mass b))])
  | _ => throw
  end.

(** The callback of [colliders.map]. *)
Definition encode_collider (coll : value) : M value :=
  do o <- deref coll ;;
  match o with
  | OCollider c =>
      do meta <- alloc (OLiteral [("handle", VPrim (coll_handle c));
                                  ("parentHandle", VPrim (coll_parentHandle c));
                                  ("type", VPrim (coll_shapeType c));
                                  ("radius", VPrim (coll_radius c));
                                  ("density", VPrim (coll_density c));
                                  ("friction", VPrim (coll_friction c));
                                  ("isSensor", VPrim (coll_isSensor c))]) ;;
      match coll_halfExtents c with
      | Some he =>
          do hv <- alloc (vector_literal he) ;;
          do _ <- set_property meta "halfExtents" hv ;;
          ret meta
      | None => ret meta
      end
  | _ => throw
  end.

(** The callback of [joints.map]. *)
Definition encode_joint (joint : value) : M value :=
  do o <- deref joint ;;
  match o with
  | OJoint j =>
      let a1 := joint_anchor1 j in
      let a2 := joint_anchor2 j in
      let ax1 := or_else (joint_axis1 j) zero_vector in
      let ax2 := or_else (joint_axis2 j) zero_vector in
      let fx1 := or_else (joint_frameX1 j) identity_rotation in
      let fx2 := or_else (joint_frameX2 j) identity_rotation in
      do anchor1 <- alloc (vector_literal a1) ;;
      do anchor2 <- alloc (vector_literal a2) ;;
      do axis1 <- alloc (vector_literal ax1) ;;
      do axis2 <- alloc (vector_literal ax2) ;;
      do frameX1 <- alloc (rotation_literal fx1) ;;
      do frameX2 <- alloc (rotation_literal fx2) ;;
      alloc (OLiteral [("handle1", VPrim (joint_bodyHandle1 j));
                       ("handle2", VPrim (joint_bodyHandle2 j));
                       ("type", VPrim (joint_jointType j));
                       ("anchor1", anchor1);
                       ("anchor2", anchor2);
                       ("axis1", axis1);
                       ("axis2", axis2);
                       ("frameX1", frameX1);
                       ("frameX2", frameX2)])
  | _ => throw
  end.

Definition extractWorldDescription (world bodies colliders joints : value)
  : M value :=
  do o <- deref world ;;
  match o with
  | OWorld w =>
      do metaWorld <-
        alloc (OLiteral
                 [("maxVelocityIterations", number (maxVelocityIterations w));
                  ("maxPositionIterations", number (maxPositionIterations w))]) ;;
      do metaBodies <- array_map encode_body bodies ;;
      do metaColliders <- array_map encode_collider colliders ;;
      do metaJoints <-
        (if negb (truthy joints) then alloc (OArray [])
         else array_map encode_joint joints) ;;
      alloc (OLiteral [("world", metaWorld);
                       ("bodies", metaBodies);
                       ("colliders", metaColliders);
                       ("joints", metaJoints)])
  | _ => throw
  end.

(* ================================================================== *)
(** ** The testbed *)

(** [SimulationParameters], the object shared with the GUI (the fields
    that hold functions and the lists of backends and builders are left
    out). *)
Record SimulationParameters : Type := mkSimulationParameters {
  backend : string;
  prevBackend : string;
  demo : string;
  numVelocityIter : Q;
  numPositionIter : Q;
  running : bool;
  stepping : bool;
  debugInfos : bool }.

(** [new SimulationParameters(backends, builders)] *)
Definition new_SimulationParameters : SimulationParameters :=
  {| backend := "rapier"; prevBackend := "rapier"; demo := "cubes";
     numVelocityIter := 4; numPositionIter := 1;
     running := true; stepping := false; debugInfos := false |}.

(** Modelled from the spec: the worker is not part of these sources.  The
    data of a result message are the token it echoes, the positions (one
    per rendered collider: handle, translation, rotation) and the step
    time; the whole record is what [setDebugInfos] receives. *)
Record Position : Type := mkPosition {
  pos_handle : prim;
  pos_translation : Vector;
  pos_rotation : Rotation }.

(** Modelled from the spec: the data of a result message of the worker. *)
Record StepResult : Type := mkStepResult {
  token : Z;
  positions : list Position;
  stepTime : prim }.

(** Calls received by the presentation layer (graphics and GUI). *)
Inductive call : Type :=
| UpdatePositions (ps : list Position)
| SetTiming (t : prim)
| SetDebugInfos (d : StepResult)
| ResetTiming
| AddCollider (coll : value)
| Render.

(** A message given to [worker.postMessage]: the message is copied when
    it is posted, so it is kept with the store of that moment. *)
Record Posted : Type := mkPosted {
  posted_store : heap;
  posted_message : value }.

(** A callback given to [setTimeout] that has not run yet: the time of
    the call, the delay ([None] is [NaN]) and the step message that the
    callback posts. *)
Record Timer : Type := mkTimer {
  timer_created : Z;
  timer_delay : option Z;
  timer_message : value }.

(** The fields of the testbed read or written by the functions below,
    with the store and the collaborators: [presentation] are the calls
    made on the graphics and the GUI, [outbox] the messages posted to the
    worker, [timers] the pending timeouts; the three in the order of the
    calls.  A field that is [undefined] until the first [setWorld] is
    [undefined] (or [None] for [lastMessageTime]). *)
Record Testbed : Type := mkTestbed {
  parameters : SimulationParameters;
  demoToken : Z;
  world : value;
  bodies : value;
  colliders : value;
  joints : value;
  lastMessageTime : option Z;
  store : heap;
  presentation : list call;
  outbox : list Posted;
  timers : list Timer }.

Definition set_parameters (p : SimulationParameters) (t : Testbed) : Testbed :=
  mkTestbed p (demoToken t) (world t) (bodies t) (colliders t) (joints t)
    (lastMessageTime t) (store t) (presentation t) (outbox t) (timers t).

Definition set_demoToken (n : Z) (t : Testbed) : Testbed :=
  mkTestbed (parameters t) n (world t) (bodies t) (colliders t) (joints t)
    (lastMessageTime t) (store t) (presentation t) (outbox t) (timers t).

Definition set_world (w : value) (t : Testbed) : Testbed :=
  mkTestbed (parameters t) (demoToken t) w (bodies t) (colliders t) (joints t)
    (lastMessageTime t) (store t) (presentation t) (outbox t) (timers t).

Definition set_bodies (v : value) (t : Testbed) : Testbed :=
  mkTestbed (parameters t) (demoToken t) (world t) v (colliders t) (joints t)
    (lastMessageTime t) (store t) (presentation t) (outbox t) (timers t).

Definition set_colliders (v : value) (t : Testbed) : Testbed :=
  mkTestbed (parameters t) (demoToken t) (world t) (bodies t) v (joints t)
    (lastMessageTime t) (store t) (presentation t) (outbox t) (timers t).

Definition set_joints (v : value) (t : Testbed) : Testbed :=
  mkTestbed (parameters t) (demoToken t) (world t) (bodies t) (colliders t) v
    (lastMessageTime t) (store t) (presentation t) (outbox t) (timers t).

Definition set_lastMessageTime (n : option Z) (t : Testbed) : Testbed :=
  mkTestbed (parameters t) (demoToken t) (world t) (bodies t) (colliders t)
    (joints t) n (store t) (presentation t) (outbox t) (timers t).

Definition set_store (h : heap) (t : Testbed) : Testbed :=
  mkTestbed (parameters t) (demoToken t) (world t) (bodies t) (colliders t)
    (joints t) (lastMessageTime t) h (presentation t) (outbox t) (timers t).

Definition set_presentation (l : list call) (t : Testbed) : Testbed :=
  mkTestbed (parameters t) (demoToken t) (world t) (bodies t) (colliders t)
    (joints t) (lastMessageTime t) (store t) l (outbox t) (timers t).

Definition set_outbox (l : list Posted) (t : Testbed) : Testbed :=
  mkTestbed (parameters t) (demoToken t) (world t) (bodies t) (colliders t)
    (joints t) (lastMessageTime t) (store t) (presentation t) l (timers t).

Definition set_timers (l : list Timer) (t : Testbed) : Testbed :=
  mkTestbed (parameters t) (demoToken t) (world t) (bodies t) (colliders t)
    (joints t) (lastMessageTime t) (store t) (presentation t) (outbox t) l.

(** A call on the graphics or on the GUI. *)
Definition present (c : call) (t : Testbed) : Testbed :=
  set_presentation (presentation t ++ [c]) t.

(** [this.worker.postMessage(message)] *)
Definition postMessage (message : value) (t : Testbed) : Testbed :=
  set_outbox (outbox t ++ [mkPosted (store t) message]) t.

(** [setTimeout(callback, delay)], called at time [now], where the
    callback posts [message]. *)
Definition setTimeout (now : Z) (delay : option Z) (message : value)
  (t : Testbed) : Testbed :=
  set_timers (timers t ++ [mkTimer now delay message]) t.

(** A computation on the store, run on the store of the testbed. *)
Definition on_store {A : Type} (m : M A) (t : Testbed) : option (A * Testbed) :=
  match m (store t) with
  | Some (a, h) => Some (a, set_store h t)
  | None => None
  end.

(** The state after the assignments of the constructor that precede
    [this.switchToDemo]: no world has been set. *)
Definition constructed : Testbed :=
  {| parameters := new_SimulationParameters;
     demoToken := 0;
     world := undefined; bodies := undefined;
     colliders := undefined; joints := undefined;
     lastMessageTime := None;
     store := [];
     presentation := [];
     outbox := [];
     timers := [] |}.

(** [stepMessage()]: the literal [res], then the flags. *)
Definition step_literal (p : SimulationParameters) : object :=
  OLiteral [("type", str "step");
            ("maxVelocityIterations", number (numVelocityIter p));
            ("maxPositionIterations", number (numPositionIter p));
            ("running", boolean (running p || stepping p));
            ("debugInfos", boolean (debugInfos p))].

Definition stepMessage (t : Testbed) : value * Testbed :=
  let p := parameters t in
  let res := VRef (length (store t)) in
  let t1 := set_store (store t ++ [step_literal p]) t in
  let t2 :=
    if stepping p then
      set_parameters
        {| backend := backend p; prevBackend := prevBackend p; demo := demo p;
           numVelocityIter := numVelocityIter p;
           numPositionIter := numPositionIter p;
           running := false; stepping := false;
           debugInfos := debugInfos p |} t1
    else t1 in
  (res, t2).

(** [now - this.lastMessageTime]: [NaN] while no message time is set. *)
Definition elapsed (now : Z) (last : option Z) : option Z :=
  match last with
  | Some l => Some (now - l)%Z
  | None => None
  end.

(** [e >= ms], false when [e] is [NaN]. *)
Definition at_least (e : option Z) (ms : Q) : bool :=
  match e with
  | Some e => Qle_bool ms (inject_Z e)
  | None => false
  end.

(** [this.world.timestep] *)
Definition world_timestep (t : Testbed) : option Q :=
  match world t with
  | VRef l =>
      match store t !! l with
      | Some (OWorld w) => Some (timestep w)
      | _ => None
      end
  | VPrim _ => None
  end.

(** The pacing of the handler of [worker.onmessage]: from
    [let now = new Date().getTime()] to the end of the handler. *)
Definition pace (now : Z) (t : Testbed) : option Testbed :=
  let '(message, t1) := stepMessage t in
  match world_timestep t1 with
  | Some ts =>
      let e := elapsed now (lastMessageTime t1) in
      if at_least e (ts * 1000)%Q then
        Some (set_lastMessageTime (Some now) (postMessage message t1))
      else
        Some (setTimeout now e message t1)
  | None => None
  end.

(** [this.worker.onmessage], for a message whose [data] is [Some d], or
    falsy ([None]), received at time [now].  The two tests of the handler
    are [!!msg.data && msg.data.token != this.demoToken] and
    [!!msg.data && msg.data.token == this.demoToken], on two numbers. *)
Definition token_differs (data : option StepResult) (t : Testbed) : bool :=
  match data with
  | Some d => negb (token d =? demoToken t)%Z
  | None => false
  end.

Definition token_matches (data : option StepResult) (t : Testbed) : bool :=
  match data with
  | Some d => (token d =? demoToken t)%Z
  | None => false
  end.

Definition update_presentation (data : option StepResult) (t : Testbed)
  : Testbed :=
  match data with
  | Some d =>
      present (SetDebugInfos d)
        (present (SetTiming (stepTime d))
           (present (UpdatePositions (positions d)) t))
  | None => t
  end.

Definition onmessage (data : option StepResult) (now : Z) (t : Testbed)
  : option Testbed :=
  if token_differs data t then
    (* from an older demo update loop: return *)
    Some t
  else
    let t1 := if token_matches data t then update_presentation data t else t in
    pace now t1.

(** The callback of the [i]-th pending timeout, run at time [now]; a
    timeout does not run before its delay has passed. *)
Definition timer_due (tm : Timer) (now : Z) : bool :=
  match timer_delay tm with
  | Some d => (timer_created tm + d <=? now)%Z
  | None => (timer_created tm <=? now)%Z
  end.

Definition timeout (i : nat) (now : Z) (t : Testbed) : option Testbed :=
  match timers t !! i with
  | Some tm =>
      if timer_due tm now then
        Some (set_lastMessageTime (Some now)
                (postMessage (timer_message tm)
                   (set_timers (delete i (timers t)) t)))
      else None
  | None => None
  end.

(** [this.world.maxVelocityIterations = vel] and
    [this.world.maxPositionIterations = pos] on a Rapier world. *)
Definition set_iterations (w : value) (vel pos : Q) : M unit :=
  fun h =>
    match w with
    | VRef l =>
        match h !! l with
        | Some (OWorld wd) =>
            Some (tt, <[l := OWorld (mkWorld vel pos (timestep wd))]> h)
        | _ => None
        end
    | VPrim _ => None
    end.

(** [arr.forEach(f)] where [f] makes one call on the graphics. *)
Definition forEach_present (f : value -> call) (arr : value) (t : Testbed)
  : option Testbed :=
  match on_store (deref arr) t with
  | Some (OArray elems, t1) =>
      Some (fold_left (fun acc e => present (f e) acc) elems t1)
  | _ => None
  end.

(** The properties of [{ ...ps, ...qs }]: the properties of [qs] are
    defined one after the other on the object that has those of [ps]. *)
Definition spread (ps qs : list (string * value)) : list (string * value) :=
  fold_left (fun acc kv => assoc_set (fst kv) (snd kv) acc) qs ps.

(** [setWorld(world, bodies, colliders, joints)]; [now] is the time read
    by its last statement. *)
Definition setWorld (world' bodies' colliders' joints' : value) (now : Z)
  (t : Testbed) : option Testbed :=
  let p := parameters t in
  let t := set_world world' t in
  match on_store (set_iterations (world t) (numVelocityIter p)
                    (numPositionIter p)) t with
  | Some (_, t) =>
      let t := set_demoToken (demoToken t + 1)%Z t in
      let t := set_bodies bodies' t in
      let t := set_colliders colliders' t in
      match (if truthy joints' then Some (joints', t)
             else on_store (alloc (OArray [])) t) with
      | Some (js, t) =>
          let t := set_joints js t in
          let t := present ResetTiming t in
          match forEach_present AddCollider colliders' t with
          | Some t =>
              match on_store
                      (do desc <-
                         extractWorldDescription world' bodies' colliders'
                           joints' ;;
                       do d <- deref desc ;;
                       match d with
                       | OLiteral props =>
                           alloc (OLiteral
                                    (spread
                                       [("type", str "setWorld");
                                        ("backend", str (backend p));
                                        ("token", integer (demoToken t))]
                                       props))
                       | _ => throw
                       end) t with
              | Some (message, t) =>
                  let t := postMessage message t in
                  let '(sm, t) := stepMessage t in
                  let t := postMessage sm t in
                  Some (set_lastMessageTime (Some now) t)
              | None => None
              end
          | None => None
          end
      | None => None
      end
  | None => None
  end.

(** [run()]: one frame of the render loop. *)
Definition run (t : Testbed) : Testbed := present Render t.

(** What happens to the testbed: a message of the worker, a timeout
    that runs, a call of [setWorld] by a demo builder, a frame, the user
    changing a parameter in the GUI, a demo builder creating an object of
    the physics world.  A sequence of events is followed as long as no
    call throws. *)
Inductive event : Type :=
| Message (data : option StepResult) (now : Z)
| Timeout (i : nat) (now : Z)
| SetWorld (world' bodies' colliders' joints' : value) (now : Z)
| Frame
| Edit (p : SimulationParameters)
| Create (o : object).

Definition step (e : event) (t : Testbed) : option Testbed :=
  match e with
  | Message data now => onmessage data now t
  | Timeout i now => timeout i now t
  | SetWorld w b c j now => setWorld w b c j now t
  | Frame => Some (run t)
  | Edit p => Some (set_parameters p t)
  | Create o => Some (set_store (store t ++ [o]) t)
  end.

Fixpoint execute (trace : list event) (t : Testbed) : option Testbed :=
  match trace with
  | [] => Some t
  | e :: trace' =>
      match step e t with
      | Some t' => execute trace' t'
      | None => None
      end
  end.

(* ================================================================== *)
(** ** Notions used in the statements *)

(** The type of a posted message, read in the store it was posted with. *)
Definition posted_property (k : string) (p : Posted) : option value :=
  own_property (posted_store p) (posted_message p) k.

Definition has_type (ty : string) (p : Posted) : bool :=
  match posted_property "type" p with
  | Some (VPrim (PString s)) => String.eqb s ty
  | _ => false
  end.

(** The tokens of the [setWorld] messages of an outbox, oldest first. *)
Definition setWorld_tokens (ps : list Posted) : list (option value) :=
  map (posted_property "token") (List.filter (has_type "setWorld") ps).

Definition is_SetWorld (e : event) : bool :=
  match e with
  | SetWorld _ _ _ _ _ => true
  | _ => false
  end.

(** The number of calls of [setWorld] in a trace. *)
Definition setWorld_calls (trace : list event) : nat :=
  length (List.filter is_SetWorld trace).

(** Between [t] and [t']: one step message was posted at once, and no
    timeout was added. *)
Definition dispatched (t t' : Testbed) : Prop :=
  exists p, outbox t' = outbox t ++ [p] /\ has_type "step" p = true /\
            timers t' = timers t.

(** Between [t] and [t'] that was called at [now]: one timeout with the
    given delay was added, and nothing was posted. *)
Definition scheduled (now : Z) (delay : option Z) (t t' : Testbed) : Prop :=
  exists m, timers t' = timers t ++ [mkTimer now delay m] /\
            outbox t' = outbox t.

(** The message of every pending timeout is a step message. *)
Definition pending_steps (t : Testbed) : bool :=
  forallb (fun tm => has_type "step" (mkPosted (store t) (timer_message tm)))
    (timers t).

(** Every object reachable from [v] in at most [depth] steps is a literal
    or an array allocated at [base] or later, and the leaves are
    primitive values. *)
Fixpoint owned (base : nat) (h : heap) (depth : nat) (v : value) : bool :=
  match v with
  | VPrim _ => true
  | VRef l =>
      match depth with
      | O => false
      | S d =>
          (base <=? l) &&
          match h !! l with
          | Some (OLiteral ps) => forallb (fun kv => owned base h d (snd kv)) ps
          | Some (OArray es) => forallb (owned base h d) es
          | _ => false
          end
      end
  end.

(** The arguments that a demo builder gives to [setWorld]: a world, an
    array of rigid bodies, an array of colliders, and an array of joints
    or a falsy value. *)
Definition is_world (o : object) : bool :=
  match o with OWorld _ => true | _ => false end.
Definition is_body (o : object) : bool :=
  match o with ORigidBody _ => true | _ => false end.
Definition is_collider (o : object) : bool :=
  match o with OCollider _ => true | _ => false end.
Definition is_joint (o : object) : bool :=
  match o with OJoint _ => true | _ => false end.

Definition refers (kind : object -> bool) (h : heap) (v : value) : bool :=
  match v with
  | VRef l =>
      match h !! l with
      | Some o => kind o
      | None => false
      end
  | VPrim _ => false
  end.

Definition array_of (kind : object -> bool) (h : heap) (v : value) : bool :=
  match v with
  | VRef l =>
      match h !! l with
      | Some (OArray es) => forallb (refers kind h) es
      | _ => false
      end
  | VPrim _ => false
  end.

Definition builder_arguments (h : heap) (w b c j : value) : bool :=
  refers is_world h w && array_of is_body h b && array_of is_collider h c
  && (negb (truthy j) || array_of is_joint h j).

(** The elements of the array that the property [k] of [v] refers to. *)
Definition array_property (h : heap) (v : value) (k : string)
  : option (list value) :=
  match own_property h v k with
  | Some (VRef a) =>
      match h !! a with
      | Some (OArray es) => Some es
      | _ => None
      end
  | _ => None
  end.

(** The object that the property [k] of [v] refers to. *)
Definition object_property (h : heap) (v : value) (k : string)
  : option object :=
  match own_property h v k with
  | Some (VRef a) => h !! a
  | _ => None
  end.

(** The elements of the array that [v] refers to. *)
Definition elements (h : heap) (v : value) : list value :=
  match v with
  | VRef l =>
      match h !! l with
      | Some (OArray es) => es
      | _ => []
      end
  | VPrim _ => []
  end.

(** A callback [f] of [map] that, on a live object of the given kind,
    returns a result that satisfies [P] and only adds objects to the
    store. *)
Definition callback (f : value -> M value) (kind : object -> bool)
  (P : heap -> value -> value -> heap -> Prop) : Prop :=
  forall (h : heap) (e : value),
    refers kind h e = true ->
    exists r h', f e h = Some (r, h') /\ h `prefix_of` h' /\ P h e r h'.

(** [P] still holds when the store grows, and for a smaller store at
    the call. *)
Definition monotone (P : heap -> value -> value -> heap -> Prop) : Prop :=
  forall (h0 h0' h1 h1' : heap) (e r : value),
    h0 `prefix_of` h0' -> h1 `prefix_of` h1' ->
    P h0' e r h1 -> P h0 e r h1'.

Definition xyz (a b c : prim) : object :=
  OLiteral [("x", VPrim a); ("y", VPrim b); ("z", VPrim c)].

Definition xyzw (a b c d : prim) : object :=
  OLiteral [("x", VPrim a); ("y", VPrim b); ("z", VPrim c); ("w", VPrim d)].

(** The record [r] of the store [h] encodes the collider [c]. *)
Definition collider_record (c : Collider) (h : heap) (r : value) : Prop :=
  own_property h r "handle" = Some (VPrim (coll_handle c)) /\
  own_property h r "parentHandle" = Some (VPrim (coll_parentHandle c)) /\
  own_property h r "type" = Some (VPrim (coll_shapeType c)) /\
  own_property h r "radius" = Some (VPrim (coll_radius c)) /\
  own_property h r "density" = Some (VPrim (coll_density c)) /\
  own_property h r "friction" = Some (VPrim (coll_friction c)) /\
  own_property h r "isSensor" = Some (VPrim (coll_isSensor c)) /\
  match coll_halfExtents c with
  | Some he =>
      object_property h r "halfExtents"
      = Some (xyz (vec_x he) (vec_y he) (vec_z he))
  | None => own_property h r "halfExtents" = None
  end.

(** The record [r] of the store [h] encodes the joint [j]. *)
Definition joint_record (j : Joint) (h : heap) (r : value) : Prop :=
  own_property h r "handle1" = Some (VPrim (joint_bodyHandle1 j)) /\
  own_property h r "handle2" = Some (VPrim (joint_bodyHandle2 j)) /\
  own_property h r "type" = Some (VPrim (joint_jointType j)) /\
  object_property h r "anchor1"
  = Some (xyz (vec_x (joint_anchor1 j)) (vec_y (joint_anchor1 j))
            (vec_z (joint_anchor1 j))) /\
  object_property h r "anchor2"
  = Some (xyz (vec_x (joint_anchor2 j)) (vec_y (joint_anchor2 j))
            (vec_z (joint_anchor2 j))) /\
  object_property h r "axis1"
  = Some match joint_axis1 j with
         | Some v => xyz (vec_x v) (vec_y v) (vec_z v)
         | None => xyz (PNumber 0) (PNumber 0) (PNumber 0)
         end /\
  object_property h r "axis2"
  = Some match joint_axis2 j with
         | Some v => xyz (vec_x v) (vec_y v) (vec_z v)
         | None => xyz (PNumber 0) (PNumber 0) (PNumber 0)
         end /\
  object_property h r "frameX1"
  = Some match joint_frameX1 j with
         | Some q => xyzw (rot_x q) (rot_y q) (rot_z q) (rot_w q)
         | None => xyzw (PNumber 0) (PNumber 0) (PNumber 0) (PNumber 1)
         end /\
  object_property h r "frameX2"
  = Some match joint_frameX2 j with
         | Some q => xyzw (rot_x q) (rot_y q) (rot_z q) (rot_w q)
         | None => xyzw (PNumber 0) (PNumber 0) (PNumber 0) (PNumber 1)
         end.

Definition body_result (h : heap) (e r : value) (h' : heap) : Prop :=
  owned (length h) h' 2 r = true.

Definition collider_result (h : heap) (e r : value) (h' : heap) : Prop :=
  owned (length h) h' 2 r = true /\
  forall l c, e = VRef l -> h !! l = Some (OCollider c) ->
              collider_record c h' r.

Definition joint_result (h : heap) (e r : value) (h' : heap) : Prop :=
  owned (length h) h' 2 r = true /\
  forall l j, e = VRef l -> h !! l = Some (OJoint j) -> joint_record j h' r.

(** A callback whose results are records made of new objects. *)
Definition allocating (f : value -> M value) : Prop :=
  forall (e : value) (h : heap) (r : value) (h' : heap),
    f e h = Some (r, h') ->
    h `prefix_of` h' /\ owned (length h) h' 2 r = true.

(** The literals of [h] are in [h'], at the same locations. *)
Definition literals_kept (h h' : heap) : Prop :=
  forall l ps, h !! l = Some (OLiteral ps) -> h' !! l = Some (OLiteral ps).

(** The claim of C8 on the geometry of a collider: a geometry field is
    in the record only when the shape defines it. *)
Definition only_defined_geometry (c : Collider) (h : heap) (r : value) : Prop :=
  (is_Some (own_property h r "radius") -> coll_radius c <> PUndefined) /\
  (is_Some (own_property h r "halfExtents") <-> is_Some (coll_halfExtents c)).


(* ================================================================== *)
(** ** Further notions used in the statements *)

(** The record [r] of the store [h] encodes the rigid body [b]. *)
Definition body_record (b : RigidBody) (h : heap) (r : value) : Prop :=
  own_property h r "handle" = Some (VPrim (body_handle b)) /\
  own_property h r "type" = Some (VPrim (body_bodyType b)) /\
  own_property h r "mass" = Some (VPrim (body_mass b)) /\
  object_property h r "translation"
  = Some (xyz (vec_x (body_translation b)) (vec_y (body_translation b))
            (vec_z (body_translation b))).

Definition body_encoded (h : heap) (e r : value) (h' : heap) : Prop :=
  forall l b, e = VRef l -> h !! l = Some (ORigidBody b) -> body_record b h' r.

(** The record [{ maxVelocityIterations: vel, maxPositionIterations: pos }]. *)
Definition iterations_literal (vel pos : Q) : object :=
  OLiteral [("maxVelocityIterations", number vel);
            ("maxPositionIterations", number pos)].

(** A message of the worker that the handler does not discard. *)
Definition is_accepted (e : event) (t : Testbed) : bool :=
  match e with
  | Message data _ => negb (token_differs data t)
  | _ => false
  end.

(** The number of messages of the worker that are not discarded along the
    execution of a trace from [t]. *)
Fixpoint accepted (trace : list event) (t : Testbed) : nat :=
  match trace with
  | [] => 0
  | e :: trace' =>
      match step e t with
      | Some t' => (if is_accepted e t then 1 else 0) + accepted trace' t'
      | None => 0
      end
  end.

(** The number of step messages of an outbox. *)
Definition step_messages (ps : list Posted) : nat :=
  length (List.filter (has_type "step") ps).

(* ================================================================== *)
(** ** Camera, demos, backends and snapshots

    The other methods of the testbed.  They use fields of the testbed
    that the functions above do not read: [inhibitLookAt], [prevDemo] and
    the style of the two iteration sliders of the GUI
    ([gui.velIter.domElement.style], [gui.posIter.domElement.style]).
    [view] are the calls [reset()] and [lookAt(pos)] made on the
    graphics, in the order of the calls.  The field [otherWorld], which
    is only ever set to [undefined], is left out. *)

Definition PHYSX_BACKEND_NAME : string := "physx.release.wasm".

Record Style : Type := mkStyle {
  pointerEvents : string;
  opacity : Q }.

Inductive view_call : Type :=
| Reset
| LookAt (pos : value).

Record Controller : Type := mkController {
  testbed : Testbed;
  inhibitLookAt : bool;
  prevDemo : option string;
  velIter : Style;
  posIter : Style;
  view : list view_call }.

Definition set_testbed (t : Testbed) (c : Controller) : Controller :=
  mkController t (inhibitLookAt c) (prevDemo c) (velIter c) (posIter c) (view c).

Definition set_inhibitLookAt (b : bool) (c : Controller) : Controller :=
  mkController (testbed c) b (prevDemo c) (velIter c) (posIter c) (view c).

Definition set_prevDemo (d : option string) (c : Controller) : Controller :=
  mkController (testbed c) (inhibitLookAt c) d (velIter c) (posIter c) (view c).

Definition set_velIter (s : Style) (c : Controller) : Controller :=
  mkController (testbed c) (inhibitLookAt c) (prevDemo c) s (posIter c) (view c).

Definition set_posIter (s : Style) (c : Controller) : Controller :=
  mkController (testbed c) (inhibitLookAt c) (prevDemo c) (velIter c) s (view c).

Definition set_view (l : list view_call) (c : Controller) : Controller :=
  mkController (testbed c) (inhibitLookAt c) (prevDemo c) (velIter c)
    (posIter c) l.

(** [this.parameters.numVelocityIter = vel; this.parameters.numPositionIter
    = pos] *)
Definition set_iteration_parameters (vel pos : Q) (c : Controller)
  : Controller :=
  let p := parameters (testbed c) in
  set_testbed
    (set_parameters
       {| backend := backend p; prevBackend := prevBackend p; demo := demo p;
          numVelocityIter := vel; numPositionIter := pos;
          running := running p; stepping := stepping p;
          debugInfos := debugInfos p |} (testbed c)) c.

(** [this.parameters.prevBackend = this.parameters.backend] *)
Definition set_prevBackend (c : Controller) : Controller :=
  let p := parameters (testbed c) in
  set_testbed
    (set_parameters
       {| backend := backend p; prevBackend := backend p; demo := demo p;
          numVelocityIter := numVelocityIter p;
          numPositionIter := numPositionIter p;
          running := running p; stepping := stepping p;
          debugInfos := debugInfos p |} (testbed c)) c.

(** [style.pointerEvents = "auto"; style.opacity = 1] and
    [style.pointerEvents = "none"; style.opacity = .5] *)
Definition enabled : Style := mkStyle "auto" 1.
Definition disabled : Style := mkStyle "none" (1 # 2).

(** [lookAt(pos)] *)
Definition lookAt (pos : value) (c : Controller) : Controller :=
  let c :=
    if negb (inhibitLookAt c) then set_view (view c ++ [LookAt pos]) c
    else c in
  set_inhibitLookAt false c.

(** A demo builder, [builders.get(demo)]: it is called with the testbed,
    at a time [now] (the time that [setWorld] reads), and may throw. *)
Definition Builder : Type := Z -> Controller -> option Controller.

(** [switchToDemo(demo)], where [builders] is [this.parameters.builders]. *)
Definition switchToDemo (builders : string -> option Builder) (demo' : string)
  (now : Z) (c : Controller) : option Controller :=
  let c :=
    match prevDemo c with
    | Some d => if String.eqb demo' d then set_inhibitLookAt true c else c
    | None => c
    end in
  let c := set_prevDemo (Some demo') c in
  let c := set_view (view c ++ [Reset]) c in
  let p := parameters (testbed c) in
  let c :=
    if negb (String.eqb (backend p) PHYSX_BACKEND_NAME)
       && String.eqb (prevBackend p) PHYSX_BACKEND_NAME
    then set_posIter enabled (set_velIter enabled
           (set_iteration_parameters 4 1 c))
    else c in
  let c :=
    if String.eqb (backend p) "rapier" then c
    else if String.eqb (backend p) PHYSX_BACKEND_NAME
      then set_velIter disabled (set_iteration_parameters 1 4 c)
      else c in
  let c :=
    if String.eqb (backend p) "rapier" then set_posIter enabled c
    else set_posIter disabled c in
  let c := set_prevBackend c in
  match builders demo' with
  | Some builder => builder now c
  | None => None
  end.

(** [switchToBackend(backend)] *)
Definition switchToBackend (builders : string -> option Builder)
  (backend' : string) (now : Z) (c : Controller) : option Controller :=
  switchToDemo builders (demo (parameters (testbed c))) now c.

(** [this.worker.postMessage({ type: ty })] *)
Definition post_request (ty : string) (t : Testbed) : Testbed :=
  let message := VRef (length (store t)) in
  postMessage message
    (set_store (store t ++ [OLiteral [("type", str ty)]]) t).

(** [takeSnapshot()] and [restoreSnapshot()] *)
Definition takeSnapshot (t : Testbed) : Testbed :=
  post_request "takeSnapshot" t.
Definition restoreSnapshot (t : Testbed) : Testbed :=
  post_request "restoreSnapshot" t.

(** Modelled from the spec: the [initWorld] of a demo.  The demos create
    the world, the bodies and the colliders through the Rapier API, which
    is not part of these sources; what they create is given by
    [demo_objects], from the location of the first of these objects.
    They then call [testbed.setWorld] on the world and the arrays (the
    last argument is [undefined] in the demos without joints) and
    [testbed.lookAt] on the position of the camera. *)
Record Demo : Type := mkDemo {
  demo_objects : nat -> list object;
  demo_world : nat -> value;
  demo_bodies : nat -> value;
  demo_colliders : nat -> value;
  demo_joints : nat -> value;
  demo_camera : nat -> value }.

Definition initWorld (d : Demo) : Builder :=
  fun now c =>
    let t := testbed c in
    let base := length (store t) in
    let t := set_store (store t ++ demo_objects d base) t in
    match setWorld (demo_world d base) (demo_bodies d base)
            (demo_colliders d base) (demo_joints d base) now t with
    | Some t => Some (lookAt (demo_camera d base) (set_testbed t c))
    | None => None
    end.

(** What happens to the testbed, with the methods above: an event of the
    step loop, a demo or a backend chosen in the GUI (the GUI writes the
    parameter, then calls the testbed), a snapshot taken or restored. *)
Inductive action : Type :=
| Handle (e : event)
| ChooseDemo (demo' : string) (now : Z)
| ChooseBackend (backend' : string) (now : Z)
| TakeSnapshot
| RestoreSnapshot.

Definition choose_demo (demo' : string) (c : Controller) : Controller :=
  let p := parameters (testbed c) in
  set_testbed
    (set_parameters
       {| backend := backend p; prevBackend := prevBackend p; demo := demo';
          numVelocityIter := numVelocityIter p;
          numPositionIter := numPositionIter p;
          running := running p; stepping := stepping p;
          debugInfos := debugInfos p |} (testbed c)) c.

Definition choose_backend (backend' : string) (c : Controller) : Controller :=
  let p := parameters (testbed c) in
  set_testbed
    (set_parameters
       {| backend := backend'; prevBackend := prevBackend p; demo := demo p;
          numVelocityIter := numVelocityIter p;
          numPositionIter := numPositionIter p;
          running := running p; stepping := stepping p;
          debugInfos := debugInfos p |} (testbed c)) c.

Definition perform (demos : string -> option Demo) (a : action)
  (c : Controller) : option Controller :=
  let builders := fun name => option_map initWorld (demos name) in
  match a with
  | Handle e =>
      match step e (testbed c) with
      | Some t => Some (set_testbed t c)
      | None => None
      end
  | ChooseDemo demo' now =>
      switchToDemo builders demo' now (choose_demo demo' c)
  | ChooseBackend backend' now =>
      switchToBackend builders backend' now (choose_backend backend' c)
  | TakeSnapshot => Some (set_testbed (takeSnapshot (testbed c)) c)
  | RestoreSnapshot => Some (set_testbed (restoreSnapshot (testbed c)) c)
  end.

Fixpoint perform_all (demos : string -> option Demo) (l : list action)
  (c : Controller) : option Controller :=
  match l with
  | [] => Some c
  | a :: l' =>
      match perform demos a c with
      | Some c' => perform_all demos l' c'
      | None => None
      end
  end.

(** The testbed when the constructor calls [switchToDemo] for the first
    time; the two sliders of the GUI are enabled. *)
Definition new_controller : Controller :=
  {| testbed := constructed;
     inhibitLookAt := false;
     prevDemo := None;
     velIter := enabled;
     posIter := enabled;
     view := [] |}.

(** The iteration counts that [switchToDemo] leaves in the parameters. *)
Definition backend_iterations (p : SimulationParameters) : Q * Q :=
  if String.eqb (backend p) PHYSX_BACKEND_NAME then (1, 4)%Q
  else if String.eqb (prevBackend p) PHYSX_BACKEND_NAME then (4, 1)%Q
  else (numVelocityIter p, numPositionIter p).

(** The sliders show the backend of the last switch: the slider of the
    velocity iterations is disabled for PhysX only, the slider of the
    position iterations is enabled for Rapier only; and no call of
    [lookAt] is inhibited. *)
Definition sliders_follow_backend (c : Controller) : Prop :=
  velIter c = (if String.eqb (prevBackend (parameters (testbed c)))
                    PHYSX_BACKEND_NAME then disabled else enabled) /\
  posIter c = (if String.eqb (prevBackend (parameters (testbed c))) "rapier"
               then enabled else disabled) /\
  inhibitLookAt c = false.

Definition is_raw_edit (a : action) : bool :=
  match a with
  | Handle (Edit _) => true
  | _ => false
  end.

(** The sliders show the backend: the slider of the velocity iterations
    is disabled for PhysX only, the slider of the position iterations is
    enabled for Rapier only; the previous backend is the backend (a
    switch has followed the last write of the backend); and no call of
    [lookAt] is inhibited. *)
Definition sliders_show_backend (c : Controller) : Prop :=
  prevBackend (parameters (testbed c)) = backend (parameters (testbed c)) /\
  velIter c = (if String.eqb (backend (parameters (testbed c)))
                    PHYSX_BACKEND_NAME then disabled else enabled) /\
  posIter c = (if String.eqb (backend (parameters (testbed c))) "rapier"
               then enabled else disabled) /\
  inhibitLookAt c = false.

(** An action that leaves the backend to [switchToBackend]: when the GUI
    writes the parameters ([Edit]), the backend and the previous backend
    that it writes are those that the parameters have. *)
Definition keeps_backend (a : action) (c : Controller) : bool :=
  match a with
  | Handle (Edit p) =>
      String.eqb (backend p) (backend (parameters (testbed c)))
      && String.eqb (prevBackend p) (prevBackend (parameters (testbed c)))
  | _ => true
  end.

(** Along the actions of [l], from [c], every action keeps the backend. *)
Fixpoint backend_by_switch (demos : string -> option Demo) (l : list action)
  (c : Controller) : bool :=
  match l with
  | [] => true
  | a :: l' =>
      keeps_backend a c &&
      match perform demos a c with
      | Some c' => backend_by_switch demos l' c'
      | None => true
      end
  end.

(** The actions that set a world: a demo or a backend chosen, or a
    direct call of [setWorld]. *)
Definition sets_world (a : action) : bool :=
  match a with
  | Handle e => is_SetWorld e
  | ChooseDemo _ _ | ChooseBackend _ _ => true
  | _ => false
  end.

(* ================================================================== *)
(** ** The graphics of the 2D testbed ([Graphics.js])

    The graphics keeps a map from collider handles to the graphics
    objects that it has added to the viewport.  A graphics object is
    known by the order of its creation; the viewport is the list of its
    children.  Calls on the renderer are left out. *)

Module Graphics.

(** Modelled from the spec: what the getters of a 2D collider that
    [addCollider] calls return: [handle()], [shapeType()],
    [halfExtents()], [radius()], [parent().isStatic()], [translation()]
    and the angle of [rotation()]. *)
Record Collider2d : Type := mkCollider2d {
  c_handle : Z;
  c_shapeType : string;
  c_halfExtents : option (Q * Q);
  c_radius : option Q;
  c_static : bool;
  c_translation : Q * Q;
  c_angle : Q }.

(** Modelled from the spec: an element of the positions of a result, in
    two dimensions: the handle of the collider, its translation and its
    rotation (an angle). *)
Record Position2d : Type := mkPosition2d {
  p_handle : Z;
  p_x : Q;
  p_y : Q;
  p_rotation : Q }.

(** A clone of an instance: the group ([BOX_INSTANCE_INDEX] or
    [BALL_INSTANCE_INDEX]) and the index of the instance in the group,
    and the properties that the graphics writes.  A scale that is [None]
    was set to [undefined]; a rotation that is [None] is still the one of
    the clone. *)
Record Gfx : Type := mkGfx {
  gfx_id : nat;
  gfx_group : nat;
  gfx_instance : nat;
  scale_x : option Q;
  scale_y : option Q;
  position_x : Q;
  position_y : Q;
  position_rotation : Q;
  rotation : option Q }.

Record Graphics : Type := mkGraphics {
  coll2gfx : list (Z * Gfx);
  colorIndex : nat;
  viewport : list nat;
  destroyed : list nat;
  counted : list (nat * nat);
  created : nat }.

Definition BOX_INSTANCE_INDEX : nat := 0.
Definition BALL_INSTANCE_INDEX : nat := 1.

Definition colorPalette : list Z :=
  [0xF3D9B1; 0x98C1D9; 0x053C5E; 0x1F7A8C]%Z.

(** [new Graphics()], once [initInstances()] has made one instance per
    colour in each of the two groups. *)
Definition new_Graphics : Graphics :=
  {| coll2gfx := []; colorIndex := 0; viewport := []; destroyed := [];
     counted := []; created := 0 |}.

(** [Map.get] and [Map.set]: a key that is set again keeps its place. *)
Fixpoint map_get (k : Z) (m : list (Z * Gfx)) : option Gfx :=
  match m with
  | [] => None
  | (k', v) :: m' => if (k =? k')%Z then Some v else map_get k m'
  end.

Fixpoint map_set (k : Z) (v : Gfx) (m : list (Z * Gfx)) : list (Z * Gfx) :=
  match m with
  | [] => [(k, v)]
  | (k', v') :: m' =>
      if (k =? k')%Z then (k, v) :: m' else (k', v') :: map_set k v m'
  end.

(** [viewport.removeChild(gfx)]: the child is removed when it is one. *)
Fixpoint removeChild (id : nat) (children : list nat) : list nat :=
  match children with
  | [] => []
  | x :: children' =>
      if Nat.eqb id x then children' else x :: removeChild id children'
  end.

(** The objects of the map, in the order of [coll2gfx.forEach]. *)
Definition shown (g : Graphics) : list nat :=
  map (fun kv => gfx_id (snd kv)) (coll2gfx g).

(** [updatePositions(positions)] *)
Definition move (elt : Position2d) (gfx : Gfx) : Gfx :=
  {| gfx_id := gfx_id gfx; gfx_group := gfx_group gfx;
     gfx_instance := gfx_instance gfx;
     scale_x := scale_x gfx; scale_y := scale_y gfx;
     position_x := p_x elt;
     position_y := - p_y elt;
     position_rotation := position_rotation gfx;
     rotation := Some (- p_rotation elt)%Q |}.

Definition update_position (m : list (Z * Gfx)) (elt : Position2d)
  : list (Z * Gfx) :=
  match map_get (p_handle elt) m with
  | Some gfx => map_set (p_handle elt) (move elt gfx) m
  | None => m
  end.

Definition updatePositions (positions : list Position2d) (g : Graphics)
  : Graphics :=
  {| coll2gfx := fold_left update_position positions (coll2gfx g);
     colorIndex := colorIndex g; viewport := viewport g;
     destroyed := destroyed g; counted := counted g; created := created g |}.

(** [reset()] *)
Definition reset (g : Graphics) : Graphics :=
  {| coll2gfx := [];
     colorIndex := 0;
     viewport := fold_left (fun children id => removeChild id children)
                   (shown g) (viewport g);
     destroyed := destroyed g ++ shown g;
     counted := counted g;
     created := created g |}.

(** [addCollider(collider)]; [None] when it throws: for a shape that is
    neither a cuboid nor a ball [graphics] is still [undefined] when its
    position is written, and so is the instance when its index is not
    one of the palette. *)
Definition addCollider (collider : Collider2d) (g : Graphics)
  : option Graphics :=
  let instanceId := if c_static collider then 0 else colorIndex g + 1 in
  let scaled : option (nat * option Q * option Q) :=
    if String.eqb (c_shapeType collider) "Cuboid" then
      match nth_error colorPalette instanceId, c_halfExtents collider with
      | Some _, Some (hx, hy) => Some (BOX_INSTANCE_INDEX, Some hx, Some hy)
      | _, _ => None
      end
    else if String.eqb (c_shapeType collider) "Ball" then
      match nth_error colorPalette instanceId with
      | Some _ => Some (BALL_INSTANCE_INDEX, c_radius collider,
                        c_radius collider)
      | None => None
      end
    else None in
  match scaled with
  | Some (group, sx, sy) =>
      let graphics :=
        {| gfx_id := created g; gfx_group := group;
           gfx_instance := instanceId;
           scale_x := sx; scale_y := sy;
           position_x := fst (c_translation collider);
           position_y := - snd (c_translation collider);
           position_rotation := - c_angle collider;
           rotation := None |} in
      Some {| coll2gfx := map_set (c_handle collider) graphics (coll2gfx g);
              colorIndex := (colorIndex g + 1) mod (length colorPalette - 1);
              viewport := viewport g ++ [created g];
              destroyed := destroyed g;
              counted := counted g ++ [(group, instanceId)];
              created := S (created g) |}
  | None => None
  end.

(** The calls made on the graphics by the testbed. *)
Inductive op : Type :=
| Add (collider : Collider2d)
| Update (positions : list Position2d)
| ResetAll.

Definition apply (o : op) (g : Graphics) : option Graphics :=
  match o with
  | Add collider => addCollider collider g
  | Update positions => Some (updatePositions positions g)
  | ResetAll => Some (reset g)
  end.

Fixpoint apply_all (l : list op) (g : Graphics) : option Graphics :=
  match l with
  | [] => Some g
  | o :: l' =>
      match apply o g with
      | Some g' => apply_all l' g'
      | None => None
      end
  end.


(** Every collider is added under a handle that the map does not have. *)
Fixpoint new_handles (l : list op) (g : Graphics) : bool :=
  match l with
  | [] => true
  | o :: l' =>
      match o with
      | Add collider =>
          match map_get (c_handle collider) (coll2gfx g) with
          | Some _ => false
          | None => true
          end
      | _ => true
      end &&
      match apply o g with
      | Some g' => new_handles l' g'
      | None => true
      end
  end.

(** A shape that [addCollider] can show. *)
Definition showable (collider : Collider2d) : bool :=
  (String.eqb (c_shapeType collider) "Cuboid"
   && match c_halfExtents collider with Some _ => true | None => false end)
  || (negb (String.eqb (c_shapeType collider) "Cuboid")
      && String.eqb (c_shapeType collider) "Ball").

(** The graphics objects of a map, and [removeChild] for each of a list. *)
Abbreviation ids m := (map (fun kv => gfx_id (snd kv)) m).
Abbreviation remove_all l children :=
  (fold_left (fun rest id => removeChild id rest) l children).

(** The index of the colour stays in the palette. *)
Definition in_palette (g : Graphics) : Prop :=
  colorIndex g < 3 /\
  forall k x, map_get k (coll2gfx g) = Some x ->
              gfx_instance x < length colorPalette.

(** The children of the viewport are distinct and were created by
    [addCollider]; the objects of the map are distinct children of the
    viewport; a destroyed object is not a child of the viewport. *)
Definition consistent (g : Graphics) : Prop :=
  NoDup (viewport g) /\
  NoDup (shown g) /\
  (forall id, In id (shown g) -> In id (viewport g)) /\
  (forall id, In id (viewport g) -> id < created g) /\
  (forall id, In id (destroyed g) -> id < created g /\ ~ In id (viewport g)).

(** A child of the viewport that the map does not hold. *)
Definition orphan (id : nat) (g : Graphics) : Prop :=
  In id (viewport g) /\ ~ In id (shown g).

Definition ground : Collider2d :=
  mkCollider2d 0 "Cuboid" (Some (50, 1 # 10)%Q) None true (0, 0)%Q 0.

Definition block : Collider2d :=
  mkCollider2d 1 "Cuboid" (Some (1 # 2, 2)%Q) None false (3, 4)%Q (1 # 4).

Definition ball : Collider2d :=
  mkCollider2d 2 "Ball" None (Some (1 # 2)%Q) false (5, 6)%Q 0.

Definition triangle : Collider2d :=
  mkCollider2d 3 "Triangle" None None false (0, 0)%Q 0.

End Graphics.

(* ================================================================== *)
(** ** A small world, used to run the definitions *)

Module Example.

Definition vec (a b c : Q) : Vector :=
  mkVector (PNumber a) (PNumber b) (PNumber c).

Definition the_world : object := OWorld (mkWorld 4 1 (1 # 60)).

Definition ground : object :=
  ORigidBody (mkRigidBody (vec 0 0 0) (PNumber 0) (PString "static") (PNumber 0)).

Definition cube : object :=
  ORigidBody (mkRigidBody (vec 0 5 0) (PNumber 1) (PString "dynamic") (PNumber 1)).

Definition ground_cuboid : Collider :=
  mkCollider (PNumber 0) (PNumber 0) (PString "Cuboid") PUndefined
    (PNumber 1) (PNumber (1 # 2)) (PBool false) (Some (vec 30 (1 # 10) 30)).

Definition cube_ball : Collider :=
  mkCollider (PNumber 1) (PNumber 1) (PString "Ball") (PNumber (1 # 2))
    (PNumber 1) (PNumber (1 # 2)) (PBool false) None.

Definition ball_joint : Joint :=
  mkJoint (vec 0 0 0) (vec 0 1 0) None None None None
    (PNumber 0) (PNumber 1) (PString "Ball").

Definition revolute_joint : Joint :=
  mkJoint (vec 0 0 0) (vec 0 1 0) (Some (vec 0 1 0)) (Some (vec 1 0 0))
    (Some (mkRotation (PNumber 0) (PNumber 1) (PNumber 0) (PNumber 0))) None
    (PNumber 0) (PNumber 1) (PString "Revolute").

(** What a demo builder creates: the world at location 0, the bodies at
    1 and 2, the colliders at 3 and 4, the joints at 5 and 6, and the
    arrays [bodies] at 7, [colliders] at 8 and [joints] at 9. *)
Definition build : list event :=
  [Create the_world; Create ground; Create cube;
   Create (OCollider ground_cuboid); Create (OCollider cube_ball);
   Create (OJoint ball_joint); Create (OJoint revolute_joint);
   Create (OArray [VRef 1; VRef 2]); Create (OArray [VRef 3; VRef 4]);
   Create (OArray [VRef 5; VRef 6])].

Definition built : Testbed :=
  match execute build constructed with
  | Some t => t
  | None => constructed
  end.

(** The builder then calls [setWorld(world, bodies, colliders)] at time
    0, as the demos without joints do. *)
Definition started : Testbed :=
  match setWorld (VRef 0) (VRef 7) (VRef 8) undefined 0 built with
  | Some t => t
  | None => constructed
  end.

(** A result for the world set by [started], and one for an older
    world. *)
Definition fresh_result : StepResult :=
  mkStepResult 1 [mkPosition (PNumber 1) (vec 0 (49 # 10) 0)
                    (mkRotation (PNumber 0) (PNumber 0) (PNumber 0) (PNumber 1))]
    (PNumber 2).

Definition stale_result : StepResult :=
  mkStepResult 0 [mkPosition (PNumber 1) (vec 0 (49 # 10) 0)
                    (mkRotation (PNumber 0) (PNumber 0) (PNumber 0) (PNumber 1))]
    (PNumber 2).

(** A result for the world set by a second call of [setWorld]. *)
Definition second_result : StepResult :=
  mkStepResult 2 [mkPosition (PNumber 1) (vec 0 (49 # 10) 0)
                    (mkRotation (PNumber 0) (PNumber 0) (PNumber 0) (PNumber 1))]
    (PNumber 2).

(** The builder sets the world at time 0, which posts a first step; its
    result comes at time 5.  A second builder sets the world at time 6,
    which posts a step again; its result comes at time 9. *)
Definition two_worlds : list event :=
  build ++
  [SetWorld (VRef 0) (VRef 7) (VRef 8) undefined 0;
   Message (Some fresh_result) 5;
   SetWorld (VRef 0) (VRef 7) (VRef 8) undefined 6;
   Message (Some second_result) 9].

(** The user asks for a single step while the simulation is paused. *)
Definition single_step : Testbed :=
  set_parameters
    {| backend := "rapier"; prevBackend := "rapier"; demo := "cubes";
       numVelocityIter := 4; numPositionIter := 1;
       running := false; stepping := true; debugInfos := false |} started.

(** A demo with a ground and a cube, as the demo builders make them: its
    objects refer to each other from the location of the first one. *)
Definition small_demo : Demo :=
  {| demo_objects := fun base =>
       [the_world; ground; cube;
        OCollider ground_cuboid; OCollider cube_ball;
        OArray [VRef (base + 1); VRef (base + 2)];
        OArray [VRef (base + 3); VRef (base + 4)];
        OLiteral [("zoom", number 4)]];
     demo_world := fun base => VRef base;
     demo_bodies := fun base => VRef (base + 5);
     demo_colliders := fun base => VRef (base + 6);
     demo_joints := fun _ => undefined;
     demo_camera := fun base => VRef (base + 7) |}.

Definition demos (name : string) : option Demo :=
  if String.eqb name "cubes" then Some small_demo
  else if String.eqb name "keva tower" then Some small_demo
  else None.

(** The constructor shows the first demo; the user then chooses the
    PhysX backend, restarts the demo, and chooses another demo. *)
Definition session : list action :=
  [ChooseDemo "cubes" 0;
   Handle (Message (Some fresh_result) 20);
   ChooseBackend PHYSX_BACKEND_NAME 30;
   ChooseDemo "cubes" 40;
   TakeSnapshot;
   ChooseDemo "keva tower" 50].

(** The user pauses the simulation while the backend is PhysX: the GUI
    writes [running]. *)
Definition paused : SimulationParameters :=
  {| backend := PHYSX_BACKEND_NAME; prevBackend := PHYSX_BACKEND_NAME;
     demo := "cubes"; numVelocityIter := 1; numPositionIter := 4;
     running := false; stepping := false; debugInfos := false |}.

(** A session with an edit of the GUI: the user chooses PhysX, pauses,
    restarts the demo and comes back to Rapier. *)
Definition session_with_pause : list action :=
  [ChooseDemo "cubes" 0;
   Handle (Message (Some fresh_result) 20);
   ChooseBackend PHYSX_BACKEND_NAME 30;
   Handle (Edit paused);
   ChooseDemo "cubes" 40;
   TakeSnapshot;
   ChooseBackend "rapier" 50].

(** The result of the first step of [started] comes at time 5, before a
    timestep has passed: the next step is deferred.  A second builder
    then sets the world at time 6. *)
Definition deferred : Testbed :=
  match onmessage (Some fresh_result) 5 started with
  | Some t => t
  | None => started
  end.

Definition restarted : Testbed :=
  match setWorld (VRef 0) (VRef 7) (VRef 8) undefined 6 deferred with
  | Some t => t
  | None => deferred
  end.

End Example.

(* ================================================================== *)
(** ** The store only grows *)

Lemma lookup_new (h : heap) (o : object) : (h ++ [o]) !! length h = Some o.
Proof. by apply list_lookup_middle. Qed.

Lemma lookup_old (h ext : heap) (l : nat) (o : object) :
  h !! l = Some o -> (h ++ ext) !! l = Some o.
Proof. intros H. by apply lookup_app_l_Some. Qed.

Lemma prefix_lookup (h h' : heap) (l : nat) (o : object) :
  h `prefix_of` h' -> h !! l = Some o -> h' !! l = Some o.
Proof. intros [ext ->]. apply lookup_old. Qed.

Lemma prefix_snoc (h : heap) (o : object) : h `prefix_of` h ++ [o].
Proof. by exists [o]. Qed.

Lemma own_property_old (h h' : heap) (v : value) (k : string) (r : value) :
  h `prefix_of` h' -> own_property h v k = Some r -> own_property h' v k = Some r.
Proof.
  intros Hp. destruct v as [p | l]; simpl; [done |].
  destruct (h !! l) as [o |] eqn:E; [| done].
  by rewrite (prefix_lookup _ _ _ _ Hp E).
Qed.

(* ================================================================== *)
(** ** [stepMessage] *)

Lemma stepMessage_value (t : Testbed) :
  fst (stepMessage t) = VRef (length (store t)).
Proof. reflexivity. Qed.

Lemma stepMessage_store (t : Testbed) :
  store (snd (stepMessage t)) = store t ++ [step_literal (parameters t)].
Proof. unfold stepMessage. by destruct (stepping (parameters t)). Qed.

Lemma stepMessage_frame (t : Testbed) :
  let t' := snd (stepMessage t) in
  demoToken t' = demoToken t /\ world t' = world t /\
  lastMessageTime t' = lastMessageTime t /\
  presentation t' = presentation t /\ outbox t' = outbox t /\
  timers t' = timers t /\ joints t' = joints t.
Proof.
  unfold stepMessage. destruct (stepping (parameters t)); simpl; tauto.
Qed.

Lemma stepMessage_has_type (t : Testbed) :
  has_type "step"
    (mkPosted (store (snd (stepMessage t))) (fst (stepMessage t))) = true.
Proof.
  unfold has_type, posted_property, own_property.
  cbn [posted_store posted_message].
  rewrite stepMessage_store, stepMessage_value.
  rewrite lookup_new. reflexivity.
Qed.

(** C6.  When the stepping flag is set, the step message that
    [stepMessage] builds has [running] true, and building it clears the
    running and the stepping flag; the step message built next, with the
    parameters left as they are, has [running] false. *)
Theorem stepMessage_single_step (t : Testbed) :
  stepping (parameters t) = true ->
  let (m, t1) := stepMessage t in
  let (m', t2) := stepMessage t1 in
  own_property (store t1) m "running" = Some (boolean true) /\
  running (parameters t1) = false /\
  stepping (parameters t1) = false /\
  own_property (store t2) m' "running" = Some (boolean false) /\
  own_property (store t2) m "running" = Some (boolean true).
Proof.
  intros Hs.
  destruct (stepMessage t) as [m t1] eqn:E1.
  destruct (stepMessage t1) as [m' t2] eqn:E2.
  assert (Hm : m = VRef (length (store t))) by (by rewrite <- stepMessage_value, E1).
  assert (Hm' : m' = VRef (length (store t1))) by (by rewrite <- stepMessage_value, E2).
  assert (H1 : store t1 = store t ++ [step_literal (parameters t)])
    by (by rewrite <- stepMessage_store, E1).
  assert (H2 : store t2 = store t1 ++ [step_literal (parameters t1)])
    by (by rewrite <- stepMessage_store, E2).
  assert (Hp : running (parameters t1) = false /\ stepping (parameters t1) = false).
  { unfold stepMessage in E1. rewrite Hs in E1. by inversion E1. }
  destruct Hp as [Hr Hst]. subst m m'.
  assert (Hold : own_property (store t1) (VRef (length (store t))) "running"
                 = Some (boolean true)).
  { simpl. rewrite H1, lookup_new. unfold step_literal. simpl.
    by rewrite Hs, orb_true_r. }
  repeat split; try done.
  - simpl. rewrite H2, lookup_new. unfold step_literal. simpl.
    by rewrite Hr, Hst.
  - eapply own_property_old; [| exact Hold]. rewrite H2. apply prefix_snoc.
Qed.

Lemma stepMessage_single_step_witness :
  let (m, t1) := stepMessage Example.single_step in
  let (m', t2) := stepMessage t1 in
  own_property (store t1) m "running" = Some (boolean true) /\
  running (parameters t1) = false /\
  stepping (parameters t1) = false /\
  own_property (store t2) m' "running" = Some (boolean false) /\
  own_property (store t2) m "running" = Some (boolean true).
Proof. apply (stepMessage_single_step Example.single_step). reflexivity. Defined.

(* ================================================================== *)
(** ** The handler of [worker.onmessage] *)

Lemma world_timestep_grow (t t' : Testbed) (ts : Q) :
  world t' = world t -> store t `prefix_of` store t' ->
  world_timestep t = Some ts -> world_timestep t' = Some ts.
Proof.
  unfold world_timestep. intros -> Hp.
  destruct (world t) as [p | l]; [done |].
  destruct (store t !! l) as [o |] eqn:E; [| done].
  by rewrite (prefix_lookup _ _ _ _ Hp E).
Qed.

Lemma world_timestep_stepMessage (t : Testbed) (ts : Q) :
  world_timestep t = Some ts -> world_timestep (snd (stepMessage t)) = Some ts.
Proof.
  apply world_timestep_grow.
  - apply (stepMessage_frame t).
  - rewrite stepMessage_store. apply prefix_snoc.
Qed.

(** What the pacing does, when the world of the testbed is set. *)
Lemma pace_spec (now : Z) (t : Testbed) (ts : Q) :
  world_timestep t = Some ts ->
  exists t', pace now t = Some t' /\
    presentation t' = presentation t /\ demoToken t' = demoToken t /\
    if at_least (elapsed now (lastMessageTime t)) (ts * 1000)%Q
    then dispatched t t' /\ lastMessageTime t' = Some now
    else scheduled now (elapsed now (lastMessageTime t)) t t' /\
         lastMessageTime t' = lastMessageTime t.
Proof.
  intros Hw. unfold pace.
  pose proof (world_timestep_stepMessage t ts Hw) as Hw'.
  pose proof (stepMessage_frame t) as (Hd & _ & Hl & Hpr & Ho & Hti & _).
  pose proof (stepMessage_has_type t) as Hty.
  destruct (stepMessage t) as [m t1]. simpl in *.
  rewrite Hw', Hl.
  destruct (at_least (elapsed now (lastMessageTime t)) (ts * 1000)%Q).
  - eexists. split; [reflexivity |]. unfold dispatched. simpl.
    repeat split; try done.
    exists (mkPosted (store t1) m). by rewrite Ho.
  - eexists. split; [reflexivity |]. unfold scheduled. simpl.
    repeat split; try done.
    exists m. by rewrite Hti.
Qed.

Lemma world_timestep_stepMessage_inv (t : Testbed) (ts : Q) :
  world_timestep (snd (stepMessage t)) = Some ts -> world_timestep t = Some ts.
Proof.
  unfold world_timestep.
  destruct (stepMessage_frame t) as (_ & -> & _).
  rewrite stepMessage_store.
  destruct (world t) as [p | l]; [done |].
  destruct (decide (l < length (store t))) as [Hl | Hl].
  - by rewrite lookup_app_l.
  - rewrite lookup_app_r by lia.
    destruct (l - length (store t)) as [| n]; [done |]. by destruct n.
Qed.

(** The pacing returns only when the world of the testbed is set. *)
Lemma pace_world (now : Z) (t t' : Testbed) :
  pace now t = Some t' -> exists ts, world_timestep t = Some ts.
Proof.
  unfold pace.
  pose proof (world_timestep_stepMessage_inv t) as H.
  destruct (stepMessage t) as [m t1]. simpl in H.
  destruct (world_timestep t1) as [ts |]; [| done].
  intros _. exists ts. by apply H.
Qed.

Lemma pace_frame (now : Z) (t t' : Testbed) :
  pace now t = Some t' ->
  presentation t' = presentation t /\ demoToken t' = demoToken t /\
  (timers t' = timers t \/ exists tm, timers t' = timers t ++ [tm]).
Proof.
  unfold pace.
  pose proof (stepMessage_frame t) as (Hd & _ & Hl & Hpr & Ho & Hti & _).
  destruct (stepMessage t) as [m t1]. simpl in *.
  destruct (world_timestep t1) as [ts |]; [| done].
  destruct (at_least _ _); intros [= <-]; simpl; repeat split; try done.
  - by left.
  - right. eexists. by rewrite Hti.
Qed.

(** C2.  A result whose token differs from [demoToken] leaves the whole
    testbed as it is: no call is made on the graphics or on the GUI.  The
    calls received by the presentation layer change only for a result
    whose token equals [demoToken], by [updatePositions], [setTiming] and
    [setDebugInfos] with the data of that result. *)
Theorem stale_result_discarded (d : StepResult) (now : Z) (t : Testbed) :
  (token d <> demoToken t -> onmessage (Some d) now t = Some t) /\
  (forall t', onmessage (Some d) now t = Some t' ->
     presentation t' <> presentation t -> token d = demoToken t) /\
  (forall t', onmessage (Some d) now t = Some t' ->
     token d = demoToken t ->
     presentation t' =
       presentation t ++ [UpdatePositions (positions d);
                          SetTiming (stepTime d); SetDebugInfos d]).
Proof.
  unfold onmessage. simpl.
  destruct (Z.eqb_spec (token d) (demoToken t)) as [E | E]; simpl.
  - split; [done |]. split; [done |].
    intros t' H _. apply pace_frame in H as (H & _). rewrite H. simpl.
    by rewrite <- !app_assoc.
  - split; [done |]. split; [| done].
    intros t' [= <-] H. done.
Qed.

Lemma stale_result_discarded_witness :
  onmessage (Some Example.stale_result) 5 Example.started
  = Some Example.started.
Proof.
  apply (proj1 (stale_result_discarded Example.stale_result 5 Example.started)).
  vm_compute. discriminate.
Defined.




(** C3: the code at the failing input.  The world has a timestep of 1/60
    s and its first step was posted at time 0.  A result received at time
    5 schedules the next step with a delay of 5 ms (the elapsed time, not
    the remaining 35/3 ms), so that the step is posted at time 10, less
    than one timestep (50/3 ms) after the previous one. *)
Theorem deferred_step_posted_early :
  world_timestep Example.started = Some (1 # 60)%Q /\
  lastMessageTime Example.started = Some 0%Z /\
  exists t1 t2 m p,
    onmessage (Some Example.fresh_result) 5 Example.started = Some t1 /\
    timers t1 = [mkTimer 5 (Some 5%Z) m] /\
    outbox t1 = outbox Example.started /\
    timeout 0 10 t1 = Some t2 /\
    outbox t2 = outbox t1 ++ [p] /\ has_type "step" p = true /\
    lastMessageTime t2 = Some 10%Z /\
    (inject_Z 10 < (1 # 60) * 1000)%Q.
Proof.
  split; [reflexivity |]. split; [reflexivity |].
  do 4 eexists.
  split; [vm_compute; reflexivity |].
  split; [reflexivity |].
  split; [reflexivity |].
  split; [vm_compute; reflexivity |].
  split; [reflexivity |].
  split; [reflexivity |].
  split; [reflexivity |].
  reflexivity.
Qed.

(* ================================================================== *)
(** ** Objects owned by a description *)

Lemma lookup_app_plus (h ext : heap) (k : nat) :
  (h ++ ext) !! (length h + k) = ext !! k.
Proof.
  rewrite lookup_app_r by lia. f_equal. lia.
Qed.

Lemma owned_weaken (base base' : nat) (h h' : heap) (d : nat) :
  base <= base' -> h `prefix_of` h' ->
  forall (d' : nat) (v : value),
    d <= d' -> owned base' h d v = true -> owned base h' d' v = true.
Proof.
  intros Hb Hp. induction d as [| d IH]; intros d' [p | l] Hd H;
    try (destruct d'; reflexivity); [discriminate |].
  destruct d' as [| d']; [lia |]. simpl in *.
  apply andb_true_iff in H as [H1 H2]. apply andb_true_iff. split.
  - apply Nat.leb_le. apply Nat.leb_le in H1. lia.
  - destruct (h !! l) as [o |] eqn:E; [| discriminate].
    rewrite (prefix_lookup _ _ _ _ Hp E).
    destruct o as [ps | es | | | |]; try discriminate.
    + rewrite List.forallb_forall in H2. apply List.forallb_forall.
      intros kv Hin. apply IH; [lia |]. by apply H2.
    + rewrite List.forallb_forall in H2. apply List.forallb_forall.
      intros e Hin. apply IH; [lia |]. by apply H2.
Qed.

Lemma refers_grow (kind : object -> bool) (h h' : heap) (v : value) :
  h `prefix_of` h' -> refers kind h v = true -> refers kind h' v = true.
Proof.
  intros Hp. destruct v as [p | l]; simpl; [done |].
  destruct (h !! l) as [o |] eqn:E; [| done].
  by rewrite (prefix_lookup _ _ _ _ Hp E).
Qed.

Lemma array_of_grow (kind : object -> bool) (h h' : heap) (v : value) :
  h `prefix_of` h' -> array_of kind h v = true -> array_of kind h' v = true.
Proof.
  intros Hp. destruct v as [p | l]; simpl; [done |].
  destruct (h !! l) as [o |] eqn:E; [| done].
  rewrite (prefix_lookup _ _ _ _ Hp E).
  destruct o as [| es | | | |]; try done.
  rewrite !List.forallb_forall. intros H e Hin.
  eapply refers_grow; [done |]. by apply H.
Qed.

Lemma mapM_callback (f : value -> M value) (kind : object -> bool)
  (P : heap -> value -> value -> heap -> Prop) :
  callback f kind P -> monotone P ->
  forall (es : list value) (h : heap),
    forallb (refers kind h) es = true ->
    exists rs h', mapM f es h = Some (rs, h') /\ h `prefix_of` h' /\
                  Forall2 (fun e r => P h e r h') es rs.
Proof.
  intros Hf HP. induction es as [| e es IH]; intros h Hes.
  - exists [], h. repeat split; [done | constructor].
  - simpl in Hes. apply andb_true_iff in Hes as [He Hes].
    destruct (Hf h e He) as (r & h1 & E1 & Hp1 & H1).
    assert (Hes1 : forallb (refers kind h1) es = true).
    { rewrite List.forallb_forall in Hes. apply List.forallb_forall.
      intros x Hx. eapply refers_grow; [exact Hp1 |]. by apply Hes. }
    destruct (IH h1 Hes1) as (rs & h2 & E2 & Hp2 & H2).
    exists (r :: rs), h2. split; [| split].
    + simpl. unfold bind. rewrite E1, E2. reflexivity.
    + by etrans.
    + constructor.
      * eapply HP; [reflexivity | exact Hp2 | exact H1].
      * eapply Forall2_impl; [exact H2 |]. intros x y Hxy.
        eapply HP; [exact Hp1 | reflexivity | exact Hxy].
Qed.

Lemma array_map_callback (f : value -> M value) (kind : object -> bool)
  (P : heap -> value -> value -> heap -> Prop) :
  callback f kind P -> monotone P ->
  forall (h : heap) (arr : value),
    array_of kind h arr = true ->
    exists rs h', array_map f arr h
                  = Some (VRef (length h'), h' ++ [OArray rs]) /\
                  h `prefix_of` h' /\
                  Forall2 (fun e r => P h e r h') (elements h arr) rs.
Proof.
  intros Hf HP h arr Harr. destruct arr as [p | l]; [done |].
  simpl in Harr. unfold array_map, bind, deref, elements.
  destruct (h !! l) as [o |] eqn:E; [| done].
  destruct o as [| es | | | |]; try done.
  destruct (mapM_callback f kind P Hf HP es h Harr) as (rs & h' & E1 & Hp & H).
  exists rs, h'. rewrite E1. done.
Qed.

(* ================================================================== *)
(** ** The callbacks of the encoder *)

Lemma leb_plus (n k : nat) : (n <=? n + k) = true.
Proof. apply Nat.leb_le. lia. Qed.

Lemma refers_inv (kind : object -> bool) (h : heap) (e : value) :
  refers kind h e = true ->
  exists l o, e = VRef l /\ h !! l = Some o /\ kind o = true.
Proof.
  destruct e as [p | l]; simpl; [done |].
  destruct (h !! l) as [o |] eqn:E; [| done]. intros H. by exists l, o.
Qed.

Ltac normalize_store :=
  rewrite ?length_app; cbn [length];
  rewrite <- ?app_assoc; cbn [app];
  rewrite <- ?Nat.add_assoc; cbn [Nat.add].

Ltac read_store :=
  unfold object_property, own_property;
  repeat (rewrite ?leb_plus, ?lookup_app_plus;
          cbn [owned forallb snd fst assoc andb String.eqb Ascii.eqb
               Bool.eqb lookup list_lookup]).

Lemma encode_body_eq (h : heap) (l : nat) (b : RigidBody) :
  h !! l = Some (ORigidBody b) ->
  encode_body (VRef l) h
  = Some (VRef (length h + 1),
          h ++ [vector_literal (body_translation b);
                OLiteral [("handle", VPrim (body_handle b));
                          ("type", VPrim (body_bodyType b));
                          ("translation", VRef (length h + 0));
                          ("mass", VPrim (body_mass b))]]).
Proof.
  intros H. unfold encode_body, bind, deref, alloc. rewrite H.
  normalize_store. by rewrite Nat.add_0_r.
Qed.

Lemma encode_collider_eq (h : heap) (l : nat) (c : Collider) :
  h !! l = Some (OCollider c) ->
  encode_collider (VRef l) h
  = Some (VRef (length h + 0),
          h ++ match coll_halfExtents c with
               | Some he =>
                   [OLiteral [("handle", VPrim (coll_handle c));
                              ("parentHandle", VPrim (coll_parentHandle c));
                              ("type", VPrim (coll_shapeType c));
                              ("radius", VPrim (coll_radius c));
                              ("density", VPrim (coll_density c));
                              ("friction", VPrim (coll_friction c));
                              ("isSensor", VPrim (coll_isSensor c));
                              ("halfExtents", VRef (length h + 1))];
                    vector_literal he]
               | None =>
                   [OLiteral [("handle", VPrim (coll_handle c));
                              ("parentHandle", VPrim (coll_parentHandle c));
                              ("type", VPrim (coll_shapeType c));
                              ("radius", VPrim (coll_radius c));
                              ("density", VPrim (coll_density c));
                              ("friction", VPrim (coll_friction c));
                              ("isSensor", VPrim (coll_isSensor c))]]
               end).
Proof.
  intros H. unfold encode_collider, bind, deref, alloc. rewrite H.
  rewrite Nat.add_0_r.
  destruct (coll_halfExtents c) as [he |]; [| reflexivity].
  unfold set_property, ret.
  rewrite lookup_app_l by (rewrite length_app; simpl; lia).
  rewrite lookup_new.
  rewrite insert_app_l by (rewrite length_app; simpl; lia).
  rewrite insert_app_r_alt by lia. rewrite Nat.sub_diag.
  normalize_store. reflexivity.
Qed.

Lemma encode_joint_eq (h : heap) (l : nat) (j : Joint) :
  h !! l = Some (OJoint j) ->
  encode_joint (VRef l) h
  = Some (VRef (length h + 6),
          h ++ [vector_literal (joint_anchor1 j);
                vector_literal (joint_anchor2 j);
                vector_literal (or_else (joint_axis1 j) zero_vector);
                vector_literal (or_else (joint_axis2 j) zero_vector);
                rotation_literal (or_else (joint_frameX1 j) identity_rotation);
                rotation_literal (or_else (joint_frameX2 j) identity_rotation);
                OLiteral [("handle1", VPrim (joint_bodyHandle1 j));
                          ("handle2", VPrim (joint_bodyHandle2 j));
                          ("type", VPrim (joint_jointType j));
                          ("anchor1", VRef (length h + 0));
                          ("anchor2", VRef (length h + 1));
                          ("axis1", VRef (length h + 2));
                          ("axis2", VRef (length h + 3));
                          ("frameX1", VRef (length h + 4));
                          ("frameX2", VRef (length h + 5))]]).
Proof.
  intros H. unfold encode_joint, bind, deref, alloc. rewrite H.
  normalize_store. by rewrite Nat.add_0_r.
Qed.

Lemma encode_body_callback : callback encode_body is_body body_result.
Proof.
  intros h e He. apply refers_inv in He as (l & o & -> & Hl & Ho).
  destruct o as [| | | b | |]; try done.
  eexists _, _. split; [by apply encode_body_eq |].
  split; [by eexists |].
  unfold body_result, vector_literal. by read_store.
Qed.

Lemma encode_collider_callback :
  callback encode_collider is_collider collider_result.
Proof.
  intros h e He. apply refers_inv in He as (l & o & -> & Hl & Ho).
  destruct o as [| | | | c |]; try done.
  eexists _, _. split; [by apply encode_collider_eq |].
  split; [by eexists |].
  split.
  - destruct (coll_halfExtents c); unfold vector_literal; by read_store.
  - intros l' c' [= <-] Hl'. rewrite Hl in Hl'. injection Hl' as <-.
    unfold collider_record.
    destruct (coll_halfExtents c); unfold vector_literal, xyz;
      read_store; done.
Qed.

Lemma encode_joint_callback : callback encode_joint is_joint joint_result.
Proof.
  intros h e He. apply refers_inv in He as (l & o & -> & Hl & Ho).
  destruct o as [| | | | | j]; try done.
  eexists _, _. split; [by apply encode_joint_eq |].
  split; [by eexists |].
  split.
  - unfold vector_literal, rotation_literal. by read_store.
  - intros l' j' [= <-] Hl'. rewrite Hl in Hl'. injection Hl' as <-.
    unfold joint_record, vector_literal, rotation_literal, xyz, xyzw.
    read_store.
    destruct (joint_axis1 j), (joint_axis2 j), (joint_frameX1 j),
      (joint_frameX2 j); done.
Qed.

Lemma own_property_grow (h h' : heap) (r : value) (k0 k : string) (v0 : value) :
  h `prefix_of` h' -> own_property h r k0 = Some v0 ->
  own_property h' r k = own_property h r k.
Proof.
  intros Hp. destruct r as [p | l]; simpl; [done |].
  destruct (h !! l) as [o |] eqn:E; [| done].
  by rewrite (prefix_lookup _ _ _ _ Hp E).
Qed.

Lemma object_property_old (h h' : heap) (r : value) (k : string) (o : object) :
  h `prefix_of` h' -> object_property h r k = Some o ->
  object_property h' r k = Some o.
Proof.
  intros Hp. unfold object_property.
  destruct (own_property h r k) as [v |] eqn:E; [| done].
  rewrite (own_property_old _ _ _ _ _ Hp E).
  destruct v as [p | a]; [done |]. by apply prefix_lookup.
Qed.

Lemma collider_record_grow (c : Collider) (h h' : heap) (r : value) :
  h `prefix_of` h' -> collider_record c h r -> collider_record c h' r.
Proof.
  intros Hp (H1 & H2 & H3 & H4 & H5 & H6 & H7 & H8).
  unfold collider_record.
  repeat (split; [by eapply own_property_old |]).
  destruct (coll_halfExtents c).
  - by eapply object_property_old.
  - by rewrite (own_property_grow _ _ _ _ _ _ Hp H1).
Qed.

Lemma joint_record_grow (j : Joint) (h h' : heap) (r : value) :
  h `prefix_of` h' -> joint_record j h r -> joint_record j h' r.
Proof.
  intros Hp (H1 & H2 & H3 & H4 & H5 & H6 & H7 & H8 & H9).
  unfold joint_record.
  repeat (split; [by eapply own_property_old |]).
  repeat (split; [by eapply object_property_old |]).
  by eapply object_property_old.
Qed.

Lemma body_result_monotone : monotone body_result.
Proof.
  intros h0 h0' h1 h1' e r H0 H1. unfold body_result.
  apply owned_weaken; [by apply prefix_length | done | done].
Qed.

Lemma collider_result_monotone : monotone collider_result.
Proof.
  intros h0 h0' h1 h1' e r H0 H1 [Ho Hr]. split.
  - revert Ho. apply owned_weaken; [by apply prefix_length | done | done].
  - intros l c He Hl. eapply collider_record_grow; [exact H1 |].
    eapply Hr; [exact He |]. by eapply prefix_lookup.
Qed.

Lemma joint_result_monotone : monotone joint_result.
Proof.
  intros h0 h0' h1 h1' e r H0 H1 [Ho Hr]. split.
  - revert Ho. apply owned_weaken; [by apply prefix_length | done | done].
  - intros l j He Hl. eapply joint_record_grow; [exact H1 |].
    eapply Hr; [exact He |]. by eapply prefix_lookup.
Qed.

Lemma elements_grow (kind : object -> bool) (h h' : heap) (v : value) :
  h `prefix_of` h' -> array_of kind h v = true -> elements h' v = elements h v.
Proof.
  intros Hp. destruct v as [p | l]; simpl; [done |].
  destruct (h !! l) as [o |] eqn:E; [| done].
  by rewrite (prefix_lookup _ _ _ _ Hp E).
Qed.

Lemma Forall2_monotone (P : heap -> value -> value -> heap -> Prop)
  (h0 h0' h1 h1' : heap) (es rs : list value) :
  monotone P -> h0 `prefix_of` h0' -> h1 `prefix_of` h1' ->
  Forall2 (fun e r => P h0' e r h1) es rs ->
  Forall2 (fun e r => P h0 e r h1') es rs.
Proof.
  intros HP H0 H1 H. eapply Forall2_impl; [exact H |].
  intros e r. by apply HP.
Qed.

(** [arr.map(f)] in a store [h] that has grown since the array [arr] of
    live objects was built in [h0]. *)
Lemma array_map_later (f : value -> M value) (kind : object -> bool)
  (P : heap -> value -> value -> heap -> Prop) (h0 h : heap) (arr : value) :
  callback f kind P -> monotone P ->
  h0 `prefix_of` h -> array_of kind h0 arr = true ->
  exists rs h', array_map f arr h
                = Some (VRef (length h'), h' ++ [OArray rs]) /\
                h `prefix_of` h' /\
                Forall2 (fun e r => P h0 e r h') (elements h0 arr) rs.
Proof.
  intros Hf HP Hp Harr.
  destruct (array_map_callback f kind P Hf HP h arr) as (rs & h' & E & Hp' & H).
  { by eapply array_of_grow. }
  exists rs, h'. repeat split; try done.
  rewrite (elements_grow kind h0 h arr Hp Harr) in H.
  eapply Forall2_monotone; [exact HP | exact Hp | reflexivity | exact H].
Qed.

(** The description built from the arguments of a demo builder. *)
Lemma extractWorldDescription_spec (h : heap) (w b c j : value) :
  builder_arguments h w b c j = true ->
  exists (h1 : heap) (lw : nat) (wd : World) (mb mc mj : nat)
         (rb rc rj : list value),
    extractWorldDescription w b c j h
    = Some (VRef (length h1),
            h1 ++ [OLiteral [("world", VRef (length h));
                             ("bodies", VRef mb);
                             ("colliders", VRef mc);
                             ("joints", VRef mj)]]) /\
    h `prefix_of` h1 /\
    w = VRef lw /\ h !! lw = Some (OWorld wd) /\
    h1 !! length h
    = Some (OLiteral
              [("maxVelocityIterations", number (maxVelocityIterations wd));
               ("maxPositionIterations", number (maxPositionIterations wd))]) /\
    (length h <= mb /\ h1 !! mb = Some (OArray rb) /\
     Forall2 (fun e r => body_result h e r h1) (elements h b) rb) /\
    (length h <= mc /\ h1 !! mc = Some (OArray rc) /\
     Forall2 (fun e r => collider_result h e r h1) (elements h c) rc) /\
    (length h <= mj /\ h1 !! mj = Some (OArray rj) /\
     Forall2 (fun e r => joint_result h e r h1) (elements h j) rj /\
     (truthy j = false -> rj = [])).
Proof.
  unfold builder_arguments. rewrite !andb_true_iff.
  intros [[[Hw Hb] Hc] Hj].
  apply refers_inv in Hw as (lw & o & -> & Hlw & Ho).
  destruct o as [| | wd | | |]; try done.
  unfold extractWorldDescription, bind at 1 2. unfold deref at 1.
  rewrite Hlw. unfold alloc at 1.
  set (ha := h ++ [_]).
  assert (Hha : h `prefix_of` ha) by apply prefix_snoc.
  destruct (array_map_later encode_body is_body body_result h ha b
              encode_body_callback body_result_monotone Hha Hb)
    as (rb & hb & Eb & Hhb & Fb).
  unfold bind at 1. rewrite Eb.
  assert (Hhb' : h `prefix_of` hb ++ [OArray rb]).
  { etrans; [exact Hha |]. etrans; [exact Hhb |]. apply prefix_snoc. }
  destruct (array_map_later encode_collider is_collider collider_result h _ c
              encode_collider_callback collider_result_monotone Hhb' Hc)
    as (rc & hc & Ec & Hhc & Fc).
  unfold bind at 1. rewrite Ec.
  assert (Hhc' : h `prefix_of` hc ++ [OArray rc]).
  { etrans; [exact Hhb' |]. etrans; [exact Hhc |]. apply prefix_snoc. }
  assert (Hj' : exists rj hd,
             (if negb (truthy j) then alloc (OArray [])
              else array_map encode_joint j) (hc ++ [OArray rc])
             = Some (VRef (length hd), hd ++ [OArray rj]) /\
             hc ++ [OArray rc] `prefix_of` hd /\
             Forall2 (fun e r => joint_result h e r hd) (elements h j) rj /\
             (truthy j = false -> rj = [])).
  { destruct (truthy j) eqn:Et; simpl in *.
    - destruct (array_map_later encode_joint is_joint joint_result h _ j
                  encode_joint_callback joint_result_monotone Hhc' Hj)
        as (rj & hd & Ed & Hhd & Fd).
      exists rj, hd. done.
    - exists [], (hc ++ [OArray rc]). repeat split; try done.
      destruct j as [p | l]; [constructor | done]. }
  destruct Hj' as (rj & hd & Ed & Hhd & Fd & Hrj).
  unfold bind at 1. rewrite Ed. unfold alloc.
  assert (Hd' : hc ++ [OArray rc] `prefix_of` hd ++ [OArray rj]).
  { etrans; [exact Hhd |]. apply prefix_snoc. }
  assert (Hc' : hb ++ [OArray rb] `prefix_of` hd ++ [OArray rj]).
  { etrans; [exact Hhc |]. etrans; [apply prefix_snoc | exact Hd']. }
  exists (hd ++ [OArray rj]), lw, wd, (length hb), (length hc), (length hd),
    rb, rc, rj.
  split; [reflexivity |].
  split; [by etrans |].
  split; [done |]. split; [done |].
  split.
  { eapply prefix_lookup; [etrans; [exact Hhb | etrans;
      [apply prefix_snoc | exact Hc']] |]. apply lookup_new. }
  split; [| split].
  - split; [apply prefix_length in Hha, Hhb; lia |].
    split; [eapply prefix_lookup; [exact Hc' | apply lookup_new] |].
    eapply Forall2_monotone; [exact body_result_monotone | reflexivity | | exact Fb].
    etrans; [apply prefix_snoc | exact Hc'].
  - split; [apply prefix_length in Hhb', Hhc; lia |].
    split; [eapply prefix_lookup; [exact Hd' | apply lookup_new] |].
    eapply Forall2_monotone;
      [exact collider_result_monotone | reflexivity | | exact Fc].
    etrans; [apply prefix_snoc | exact Hd'].
  - split; [apply prefix_length in Hhc', Hhd; lia |].
    split; [apply lookup_new |].
    split; [| done].
    eapply Forall2_monotone;
      [exact joint_result_monotone | reflexivity | | exact Fd].
    apply prefix_snoc.
Qed.

(* ================================================================== *)
(** ** The encoder on arbitrary arguments *)

Lemma bind_inv {A B : Type} (m : M A) (k : A -> M B) (h : heap) (x : B * heap) :
  bind m k h = Some x ->
  exists a h1, m h = Some (a, h1) /\ k a h1 = Some x.
Proof.
  unfold bind. destruct (m h) as [[a h1] |]; [| done]. intros H.
  by exists a, h1.
Qed.

Lemma deref_inv (v : value) (h : heap) (o : object) (h' : heap) :
  deref v h = Some (o, h') -> h' = h /\ exists l, v = VRef l /\ h !! l = Some o.
Proof.
  destruct v as [p | l]; simpl; [done |].
  destruct (h !! l) as [o' |] eqn:E; [| done].
  intros [= <- <-]. split; [done |]. by exists l.
Qed.

Lemma encode_body_only (e : value) (h : heap) (x : value * heap) :
  encode_body e h = Some x -> refers is_body h e = true.
Proof.
  intros H. apply bind_inv in H as (o & h1 & H1 & H2).
  apply deref_inv in H1 as (-> & l & -> & Hl). simpl. rewrite Hl.
  by destruct o.
Qed.

Lemma encode_collider_only (e : value) (h : heap) (x : value * heap) :
  encode_collider e h = Some x -> refers is_collider h e = true.
Proof.
  intros H. apply bind_inv in H as (o & h1 & H1 & H2).
  apply deref_inv in H1 as (-> & l & -> & Hl). simpl. rewrite Hl.
  by destruct o.
Qed.

Lemma encode_joint_only (e : value) (h : heap) (x : value * heap) :
  encode_joint e h = Some x -> refers is_joint h e = true.
Proof.
  intros H. apply bind_inv in H as (o & h1 & H1 & H2).
  apply deref_inv in H1 as (-> & l & -> & Hl). simpl. rewrite Hl.
  by destruct o.
Qed.

Lemma encode_body_allocating : allocating encode_body.
Proof.
  intros e h r h' H.
  destruct (encode_body_callback h e (encode_body_only _ _ _ H))
    as (r' & h'' & E & Hp & Ho).
  rewrite E in H. by injection H as <- <-.
Qed.

Lemma encode_collider_allocating : allocating encode_collider.
Proof.
  intros e h r h' H.
  destruct (encode_collider_callback h e (encode_collider_only _ _ _ H))
    as (r' & h'' & E & Hp & Ho & _).
  rewrite E in H. by injection H as <- <-.
Qed.

Lemma encode_joint_allocating : allocating encode_joint.
Proof.
  intros e h r h' H.
  destruct (encode_joint_callback h e (encode_joint_only _ _ _ H))
    as (r' & h'' & E & Hp & Ho & _).
  rewrite E in H. by injection H as <- <-.
Qed.

Lemma mapM_allocating (f : value -> M value) :
  allocating f ->
  forall (es : list value) (h : heap) (rs : list value) (h' : heap),
    mapM f es h = Some (rs, h') ->
    h `prefix_of` h' /\ forallb (owned (length h) h' 2) rs = true.
Proof.
  intros Hf. induction es as [| e es IH]; intros h rs h' H.
  - injection H as <- <-. done.
  - simpl in H. apply bind_inv in H as (r & h1 & E1 & H).
    apply bind_inv in H as (rs' & h2 & E2 & H). injection H as <- <-.
    apply Hf in E1 as [Hp1 Ho1]. apply IH in E2 as [Hp2 Ho2].
    split; [by etrans |]. cbn [forallb]. apply andb_true_iff. split.
    + revert Ho1. by apply owned_weaken.
    + rewrite List.forallb_forall in Ho2. apply List.forallb_forall.
      intros x Hx. specialize (Ho2 x Hx). revert Ho2.
      apply owned_weaken; [by apply prefix_length | done | done].
Qed.

Lemma array_map_allocating (f : value -> M value) (arr : value)
  (h : heap) (v : value) (h' : heap) :
  allocating f -> array_map f arr h = Some (v, h') ->
  exists rs h1, v = VRef (length h1) /\ h' = h1 ++ [OArray rs] /\
                h `prefix_of` h1 /\
                forallb (owned (length h) h1 2) rs = true.
Proof.
  intros Hf H. apply bind_inv in H as (o & h0 & H0 & H).
  apply deref_inv in H0 as (-> & l & -> & Hl).
  destruct o as [| es | | | |]; try done.
  apply bind_inv in H as (rs & h1 & E & H). injection H as <- <-.
  apply (mapM_allocating f Hf) in E as [Hp Ho]. by exists rs, h1.
Qed.

Lemma owned_ref (base : nat) (h : heap) (d l : nat) :
  owned base h (S d) (VRef l)
  = (base <=? l) &&
    match h !! l with
    | Some (OLiteral ps) => forallb (fun kv => owned base h d (snd kv)) ps
    | Some (OArray es) => forallb (owned base h d) es
    | _ => false
    end.
Proof. reflexivity. Qed.

Lemma owned_array (base : nat) (h : heap) (rs : list value) :
  base <= length h -> forallb (owned base h 2) rs = true ->
  owned base (h ++ [OArray rs]) 3 (VRef (length h)) = true.
Proof.
  intros Hb H. rewrite owned_ref, lookup_new. apply andb_true_iff. split.
  - by apply Nat.leb_le.
  - rewrite List.forallb_forall in H. apply List.forallb_forall.
    intros x Hx. specialize (H x Hx). revert H.
    apply owned_weaken; [done | apply prefix_snoc | done].
Qed.

(** The form of the description, for arbitrary arguments: a new literal
    whose four properties refer to new objects. *)
Lemma extractWorldDescription_inv (h : heap) (w b c j d : value) (h' : heap) :
  extractWorldDescription w b c j h = Some (d, h') ->
  exists (h1 : heap) (mw mb mc : value) (mj : nat),
    d = VRef (length h1) /\
    h' = h1 ++ [OLiteral [("world", mw); ("bodies", mb);
                          ("colliders", mc); ("joints", VRef mj)]] /\
    h `prefix_of` h1 /\
    owned (length h) h1 3 mw = true /\
    owned (length h) h1 3 mb = true /\
    owned (length h) h1 3 mc = true /\
    owned (length h) h1 3 (VRef mj) = true /\
    (truthy j = false -> h1 !! mj = Some (OArray [])).
Proof.
  intros H. apply bind_inv in H as (o & h0 & H0 & H).
  apply deref_inv in H0 as (-> & lw & -> & Hlw).
  destruct o as [| | wd | | |]; try done.
  apply bind_inv in H as (mw & ha & Ea & H). injection Ea as <- <-.
  apply bind_inv in H as (mb & hb & Eb & H).
  apply (array_map_allocating _ _ _ _ _ encode_body_allocating) in Eb
    as (rb & hb' & -> & -> & Hpb & Hob).
  apply bind_inv in H as (mc & hc & Ec & H).
  apply (array_map_allocating _ _ _ _ _ encode_collider_allocating) in Ec
    as (rc & hc' & -> & -> & Hpc & Hoc).
  apply bind_inv in H as (mj & hd & Ed & H). injection H as <- <-.
  assert (Ha : h `prefix_of` h ++ [OLiteral
             [("maxVelocityIterations", number (maxVelocityIterations wd));
              ("maxPositionIterations", number (maxPositionIterations wd))]])
    by apply prefix_snoc.
  assert (Hb : h `prefix_of` hb' ++ [OArray rb]).
  { etrans; [exact Ha |]. etrans; [exact Hpb | apply prefix_snoc]. }
  assert (Hc : h `prefix_of` hc' ++ [OArray rc]).
  { etrans; [exact Hb |]. etrans; [exact Hpc | apply prefix_snoc]. }
  assert (Hj : exists rj hd', mj = VRef (length hd') /\ hd = hd' ++ [OArray rj] /\
                 hc' ++ [OArray rc] `prefix_of` hd' /\
                 forallb (owned (length (hc' ++ [OArray rc])) hd' 2) rj = true /\
                 (truthy j = false -> rj = [])).
  { destruct (truthy j) eqn:Et; simpl in Ed.
    - apply (array_map_allocating _ _ _ _ _ encode_joint_allocating) in Ed
        as (rj & hd' & -> & -> & Hpd & Hod).
      by exists rj, hd'.
    - injection Ed as <- <-. by exists [], (hc' ++ [OArray rc]). }
  destruct Hj as (rj & hd' & -> & -> & Hpd & Hod & Hrj).
  assert (Hd : h `prefix_of` hd' ++ [OArray rj]).
  { etrans; [exact Hc |]. etrans; [exact Hpd | apply prefix_snoc]. }
  exists (hd' ++ [OArray rj]), (VRef (length h)), (VRef (length hb')),
    (VRef (length hc')), (length hd').
  split; [done |]. split; [done |]. split; [done |].
  pose proof (prefix_length _ _ Hpb) as Lb.
  pose proof (prefix_length _ _ Hpc) as Lc.
  pose proof (prefix_length _ _ Hpd) as Ld.
  rewrite length_app in Lb, Lc, Ld. simpl in Lb, Lc, Ld.
  split; [| split; [| split; [| split]]].
  - eapply (owned_weaken (length h) (length h) (h ++ [_]));
      [done | | reflexivity |].
    + etrans; [exact Hpb |]. etrans; [apply prefix_snoc |].
      etrans; [exact Hpc |]. etrans; [apply prefix_snoc |].
      etrans; [exact Hpd |]. apply prefix_snoc.
    + rewrite owned_ref, lookup_new, Nat.leb_refl. reflexivity.
  - eapply (owned_weaken (length h) (length h) (hb' ++ [OArray rb]));
      [done | | reflexivity |].
    + etrans; [exact Hpc |]. etrans; [apply prefix_snoc |].
      etrans; [exact Hpd |]. apply prefix_snoc.
    + apply owned_array; [lia |].
      rewrite List.forallb_forall in Hob. apply List.forallb_forall.
      intros x Hx. specialize (Hob x Hx). revert Hob.
      apply owned_weaken; [rewrite length_app; simpl; lia | done | done].
  - eapply (owned_weaken (length h) (length h) (hc' ++ [OArray rc]));
      [done | | reflexivity |].
    + etrans; [exact Hpd |]. apply prefix_snoc.
    + apply owned_array; [lia |].
      rewrite List.forallb_forall in Hoc. apply List.forallb_forall.
      intros x Hx. specialize (Hoc x Hx). revert Hoc.
      apply owned_weaken; [rewrite length_app; simpl; lia | done | done].
  - apply owned_array; [lia |].
    rewrite List.forallb_forall in Hod. apply List.forallb_forall.
    intros x Hx. specialize (Hod x Hx). revert Hod.
    apply owned_weaken; [rewrite length_app; simpl; lia | done | done].
  - intros Ht. rewrite (Hrj Ht). apply lookup_new.
Qed.

(* ================================================================== *)
(** ** [setWorld] *)

Lemma on_store_inv {A : Type} (m : M A) (t : Testbed) (a : A) (t' : Testbed) :
  on_store m t = Some (a, t') ->
  exists h, m (store t) = Some (a, h) /\ t' = set_store h t.
Proof.
  unfold on_store. destruct (m (store t)) as [[a' h] |]; [| done].
  intros [= <- <-]. by exists h.
Qed.

Lemma fold_present_frame (f : value -> call) (es : list value) (t : Testbed) :
  let t' := fold_left (fun acc e => present (f e) acc) es t in
  store t' = store t /\ demoToken t' = demoToken t /\ joints t' = joints t /\
  outbox t' = outbox t /\ timers t' = timers t /\
  parameters t' = parameters t.
Proof.
  revert t. induction es as [| e es IH]; intros t; simpl; [done |].
  destruct (IH (present (f e) t)) as (H1 & H2 & H3 & H4 & H5 & H6).
  simpl in *. by rewrite H1, H2, H3, H4, H5, H6.
Qed.

Lemma forEach_present_inv (f : value -> call) (arr : value) (t t' : Testbed) :
  forEach_present f arr t = Some t' ->
  store t' = store t /\ demoToken t' = demoToken t /\ joints t' = joints t /\
  outbox t' = outbox t /\ timers t' = timers t /\
  parameters t' = parameters t.
Proof.
  unfold forEach_present.
  destruct (on_store (deref arr) t) as [[o t1] |] eqn:E; [| done].
  apply on_store_inv in E as (h & E & ->). apply deref_inv in E as [-> _].
  destruct o as [| es | | | |]; try done. intros [= <-].
  destruct (fold_present_frame f es (set_store (store t) t))
    as (H1 & H2 & H3 & H4 & H5 & H6).
  simpl in *. by rewrite H1, H2, H3, H4, H5, H6.
Qed.

Lemma literals_kept_prefix (h h' : heap) :
  h `prefix_of` h' -> literals_kept h h'.
Proof. intros Hp l ps. by apply prefix_lookup. Qed.

Lemma literals_kept_trans (h1 h2 h3 : heap) :
  literals_kept h1 h2 -> literals_kept h2 h3 -> literals_kept h1 h3.
Proof. intros H1 H2 l ps H. by apply H2, H1. Qed.

Lemma set_iterations_inv (w : value) (vel pos : Q) (h : heap) (u : unit)
  (h' : heap) :
  set_iterations w vel pos h = Some (u, h') ->
  exists l wd, w = VRef l /\ h !! l = Some (OWorld wd) /\
               h' = <[l := OWorld (mkWorld vel pos (timestep wd))]> h.
Proof.
  destruct w as [p | l]; simpl; [done |].
  destruct (h !! l) as [o |] eqn:E; [| done].
  destruct o as [| | wd | | |]; try done.
  intros [= <-]. by exists l, wd.
Qed.

Lemma set_iterations_literals (w : value) (vel pos : Q) (h : heap) (u : unit)
  (h' : heap) :
  set_iterations w vel pos h = Some (u, h') -> literals_kept h h'.
Proof.
  intros H. apply set_iterations_inv in H as (l & wd & -> & Hl & ->).
  intros l' ps H'. destruct (decide (l = l')) as [<- | Hne].
  - congruence.
  - by rewrite list_lookup_insert_ne.
Qed.

(** What a call of [setWorld] that returns has done. *)
Lemma setWorld_inv (w b c j : value) (now : Z) (t t' : Testbed) :
  setWorld w b c j now t = Some t' ->
  demoToken t' = (demoToken t + 1)%Z /\
  timers t' = timers t /\
  lastMessageTime t' = Some now /\
  literals_kept (store t) (store t') /\
  exists p q,
    outbox t' = outbox t ++ [p; q] /\
    has_type "setWorld" p = true /\
    posted_property "token" p = Some (integer (demoToken t + 1)) /\
    has_type "step" q = true /\ has_type "setWorld" q = false /\
    (truthy j = false ->
     (exists l, joints t' = VRef l /\ store t' !! l = Some (OArray [])) /\
     array_property (posted_store p) (posted_message p) "joints" = Some []).
Proof.
  intros H. unfold setWorld in H. cbv zeta in H.
  destruct (on_store _ (set_world w t)) as [[u t1] |] eqn:E1; [| done].
  apply on_store_inv in E1 as (h1 & K1 & ->).
  apply set_iterations_literals in K1. cbn [store set_world] in K1.
  set (t2 := set_colliders c (set_bodies b _)) in *.
  destruct (if truthy j then Some (j, t2) else on_store (alloc (OArray [])) t2)
    as [[js t3] |] eqn:E2; [| done].
  destruct (forEach_present _ _ _) as [t4 |] eqn:E3; [| done].
  apply forEach_present_inv in E3 as (S4 & D4 & J4 & O4 & T4 & P4).
  destruct (on_store _ t4) as [[message t5] |] eqn:E4; [| done].
  apply on_store_inv in E4 as (h5 & E4 & ->).
  apply bind_inv in E4 as (desc & h6 & E4 & E6).
  apply extractWorldDescription_inv in E4
    as (h2 & mw & mb & mc & mj & -> & -> & Hp & _ & _ & _ & _ & Hj).
  apply bind_inv in E6 as (d & h3 & E6 & E7).
  apply deref_inv in E6 as (-> & l & [= <-] & E6).
  rewrite lookup_new in E6. injection E6 as <-.
  injection E7 as <- <-.
  set (m := VRef (length (h2 ++ [_]))) in H.
  set (t5 := set_store _ t4) in H.
  pose proof (stepMessage_frame (postMessage m t5)) as F.
  pose proof (stepMessage_has_type (postMessage m t5)) as Hty.
  pose proof (stepMessage_store (postMessage m t5)) as Hst.
  destruct (stepMessage (postMessage m t5)) as [sm t6].
  injection H as <-. cbn [fst snd] in F, Hty, Hst.
  destruct F as (F1 & _ & _ & _ & F5 & F6 & F7).
  assert (D3 : demoToken t3 = (demoToken t + 1)%Z /\ outbox t3 = outbox t /\
               timers t3 = timers t).
  { destruct (truthy j).
    - by injection E2 as <- <-.
    - by apply on_store_inv in E2 as (h3 & _ & ->). }
  destruct D3 as (D3 & O3 & T3).
  simpl in D4, O4, T4, J4, S4.
  split; [simpl; rewrite F1; simpl; by rewrite D4 |].
  split; [simpl; rewrite F6; simpl; by rewrite T4 |].
  split; [done |].
  split.
  { cbn [store set_lastMessageTime postMessage set_outbox]. rewrite Hst.
    cbn [store set_lastMessageTime postMessage set_outbox].
    eapply literals_kept_trans; [exact K1 |].
    eapply literals_kept_trans; [| apply literals_kept_prefix, prefix_snoc].
    subst t5. unfold set_store at 1; cbn [store].
    apply literals_kept_prefix.
    etrans; [| apply prefix_snoc]. etrans; [| apply prefix_snoc].
    etrans; [| exact Hp]. rewrite S4.
    destruct (truthy j).
    - injection E2 as <- <-. done.
    - apply on_store_inv in E2 as (h3 & E2 & ->). injection E2 as <- <-.
      apply prefix_snoc. }
  exists (mkPosted (store t5) m), (mkPosted (store t6) sm).
  split; [simpl; rewrite F5; simpl; rewrite O4, O3; by rewrite <- app_assoc |].
  split.
  { unfold has_type, posted_property, own_property.
    cbn [posted_store posted_message]. subst t5 m.
    unfold set_store; cbn [store]. by rewrite lookup_new. }
  split.
  { unfold posted_property, own_property.
    cbn [posted_store posted_message]. subst t5 m.
    unfold set_store; cbn [store]. rewrite lookup_new.
    cbn [assoc String.eqb Ascii.eqb Bool.eqb]. by rewrite D4, D3. }
  split; [done |].
  split.
  { revert Hty. unfold has_type.
    destruct (posted_property "type" _) as [[[| | | | s] |] |]; try done.
    destruct (String.eqb_spec s "step") as [-> |]; done. }
  intros Ht. split.
  - rewrite Ht in E2. apply on_store_inv in E2 as (h3 & E2 & ->).
    injection E2 as <- <-. exists (length (store t2)).
    split; [simpl; rewrite F7; simpl; by rewrite J4 |].
    cbn [store set_lastMessageTime postMessage set_outbox].
    rewrite Hst. cbn [store set_lastMessageTime postMessage set_outbox].
    apply lookup_old. subst t5. unfold set_store; cbn [store].
    apply lookup_old. apply lookup_old.
    eapply prefix_lookup; [exact Hp |]. rewrite S4. apply lookup_new.
  - unfold array_property, posted_property, own_property.
    cbn [posted_store posted_message]. subst t5 m.
    unfold set_store; cbn [store]. rewrite lookup_new.
    cbn [assoc String.eqb Ascii.eqb Bool.eqb].
    rewrite (lookup_old _ _ mj (OArray [])); [done |].
    by apply lookup_old, Hj.
Qed.

(* ================================================================== *)
(** ** Properties of the encoder *)

Lemma description_array (h1 : heap) (props : list (string * value))
  (k : string) (a : nat) (rs : list value) :
  assoc k props = Some (VRef a) -> h1 !! a = Some (OArray rs) ->
  array_property (h1 ++ [OLiteral props]) (VRef (length h1)) k = Some rs.
Proof.
  intros Hk Ha. unfold array_property, own_property.
  rewrite lookup_new, Hk. by rewrite (lookup_old _ _ _ _ Ha).
Qed.

(** C7.  For the arguments of a demo builder, the encoder returns a
    description whose [joints] array has one record per joint, in the
    order of the joints.  In the record of a joint, [axis1] and [axis2]
    are [{x: 0, y: 0, z: 0}] and [frameX1] and [frameX2] are
    [{x: 0, y: 0, z: 0, w: 1}] when the joint does not define them, and
    the components that the joint returns otherwise; the handles, the
    type and the anchors are copied. *)
Theorem joint_defaults (h : heap) (w b c : value) (lj : nat)
  (js : list value) (i l : nat) (j : Joint) :
  builder_arguments h w b c (VRef lj) = true ->
  h !! lj = Some (OArray js) ->
  js !! i = Some (VRef l) ->
  h !! l = Some (OJoint j) ->
  exists (d : value) (h' : heap) (rs : list value) (r : value),
    extractWorldDescription w b c (VRef lj) h = Some (d, h') /\
    array_property h' d "joints" = Some rs /\
    length rs = length js /\
    rs !! i = Some r /\
    joint_record j h' r.
Proof.
  intros Ha Hlj Hi Hl.
  destruct (extractWorldDescription_spec h w b c (VRef lj) Ha)
    as (h1 & lw & wd & mb & mc & mj & rb & rc & rj & E & Hp & _ & _ & _ & _ & _
        & (_ & Hmj & Fj & _)).
  simpl in Fj. rewrite Hlj in Fj.
  destruct (Forall2_lookup_l _ _ _ _ _ Fj Hi) as (r & Hr & _ & Hrec).
  eexists _, _, rj, r. split; [exact E |].
  split; [eapply description_array; [reflexivity | exact Hmj] |].
  split; [symmetry; by eapply Forall2_length |].
  split; [done |].
  eapply joint_record_grow; [apply prefix_snoc |]. by eapply Hrec.
Qed.

Lemma joint_defaults_witness :
  exists (d : value) (h' : heap) (rs : list value) (r : value),
    extractWorldDescription (VRef 0) (VRef 7) (VRef 8) (VRef 9)
      (store Example.built) = Some (d, h') /\
    array_property h' d "joints" = Some rs /\
    length rs = 2 /\
    rs !! 0 = Some r /\
    joint_record Example.ball_joint h' r.
Proof.
  apply (joint_defaults (store Example.built) (VRef 0) (VRef 7) (VRef 8) 9
           [VRef 5; VRef 6] 0 5 Example.ball_joint); reflexivity.
Defined.

(** C8, as the specification states it, fails: the ground of the example
    is a cuboid, its [radius()] is [undefined], and its record has the
    property [radius] all the same. *)
Lemma undefined_radius_in_record :
  exists (d : value) (h' : heap) (rs : list value) (r : value),
    extractWorldDescription (VRef 0) (VRef 7) (VRef 8) undefined
      (store Example.built) = Some (d, h') /\
    array_property h' d "colliders" = Some rs /\
    rs !! 0 = Some r /\
    collider_record Example.ground_cuboid h' r /\
    own_property h' r "radius" = Some undefined /\
    ~ only_defined_geometry Example.ground_cuboid h' r.
Proof.
  eexists _, _, _, _.
  split; [vm_compute; reflexivity |].
  split; [reflexivity |].
  split; [reflexivity |].
  split; [by repeat split |].
  split; [reflexivity |].
  intros [H _]. by apply H.
Qed.

(** C8, amended.  For the arguments of a demo builder, the encoder
    returns a description whose [colliders] array has one record per
    collider, in the order of the colliders.  The record of a collider
    has the property [halfExtents] exactly when the collider returns
    half-extents, and then with their components; it always has the
    property [radius], whose value is what [radius()] returns
    ([undefined], not zero, for a shape without radius). *)
Theorem collider_geometry (h : heap) (w b j : value) (lc : nat)
  (cs : list value) (i l : nat) (c : Collider) :
  builder_arguments h w b (VRef lc) j = true ->
  h !! lc = Some (OArray cs) ->
  cs !! i = Some (VRef l) ->
  h !! l = Some (OCollider c) ->
  exists (d : value) (h' : heap) (rs : list value) (r : value),
    extractWorldDescription w b (VRef lc) j h = Some (d, h') /\
    array_property h' d "colliders" = Some rs /\
    length rs = length cs /\
    rs !! i = Some r /\
    collider_record c h' r /\
    (is_Some (own_property h' r "halfExtents")
     <-> is_Some (coll_halfExtents c)) /\
    own_property h' r "radius" = Some (VPrim (coll_radius c)).
Proof.
  intros Ha Hlc Hi Hl.
  destruct (extractWorldDescription_spec h w b (VRef lc) j Ha)
    as (h1 & lw & wd & mb & mc & mj & rb & rc & rj & E & Hp & _ & _ & _ & _
        & (_ & Hmc & Fc) & _).
  simpl in Fc. rewrite Hlc in Fc.
  destruct (Forall2_lookup_l _ _ _ _ _ Fc Hi) as (r & Hr & _ & Hrec).
  assert (R : collider_record c
                (h1 ++ [OLiteral [("world", VRef (length h));
                                  ("bodies", VRef mb);
                                  ("colliders", VRef mc);
                                  ("joints", VRef mj)]]) r).
  { eapply collider_record_grow; [apply prefix_snoc |]. by eapply Hrec. }
  eexists _, _, rc, r. split; [exact E |].
  split; [eapply description_array; [reflexivity | exact Hmc] |].
  split; [symmetry; by eapply Forall2_length |].
  split; [done |]. split; [done |].
  destruct R as (_ & _ & _ & Hrad & _ & _ & _ & Hhe).
  split; [| done].
  unfold object_property in Hhe.
  destruct (coll_halfExtents c) as [he |].
  - split; [done |]. intros _.
    destruct (own_property _ r "halfExtents"); [done | discriminate].
  - rewrite Hhe. split; intros [x Hx]; discriminate.
Qed.

Lemma collider_geometry_witness :
  exists (d : value) (h' : heap) (rs : list value) (r : value),
    extractWorldDescription (VRef 0) (VRef 7) (VRef 8) undefined
      (store Example.built) = Some (d, h') /\
    array_property h' d "colliders" = Some rs /\
    length rs = 2 /\
    rs !! 1 = Some r /\
    collider_record Example.cube_ball h' r /\
    (is_Some (own_property h' r "halfExtents")
     <-> is_Some (coll_halfExtents Example.cube_ball)) /\
    own_property h' r "radius"
    = Some (VPrim (coll_radius Example.cube_ball)).
Proof.
  apply (collider_geometry (store Example.built) (VRef 0) (VRef 7) undefined 8
           [VRef 3; VRef 4] 1 4 Example.cube_ball); reflexivity.
Defined.

(** C9.  The encoder changes no object of the store: the world, the
    arrays of bodies, colliders and joints and their elements are after
    the call what they were before.  The description is made of objects
    allocated by the call (literals and arrays, at new locations) whose
    other values are primitive, so that it holds no reference to an
    object that existed before the call.  The call returns for the
    arguments of a demo builder. *)
Theorem extractWorldDescription_pure (h : heap) (w b c j : value) :
  (builder_arguments h w b c j = true ->
   is_Some (extractWorldDescription w b c j h)) /\
  (forall (d : value) (h' : heap),
     extractWorldDescription w b c j h = Some (d, h') ->
     h `prefix_of` h' /\ owned (length h) h' 4 d = true).
Proof.
  split.
  - intros Ha.
    destruct (extractWorldDescription_spec h w b c j Ha)
      as (h1 & lw & wd & mb & mc & mj & rb & rc & rj & E & _).
    rewrite E. by eexists.
  - intros d h' H.
    apply extractWorldDescription_inv in H
      as (h1 & mw & mb & mc & mj & -> & -> & Hp & Hw & Hb & Hc & Hj & _).
    split; [etrans; [exact Hp | apply prefix_snoc] |].
    rewrite owned_ref, lookup_new.
    apply andb_true_iff. split.
    + apply Nat.leb_le. by apply prefix_length.
    + cbn [forallb snd]. rewrite !andb_true_iff.
      repeat split;
        (eapply owned_weaken; [reflexivity | apply prefix_snoc | reflexivity |]);
        done.
Qed.

Lemma extractWorldDescription_pure_witness :
  is_Some (extractWorldDescription (VRef 0) (VRef 7) (VRef 8) (VRef 9)
             (store Example.built)) /\
  forall (d : value) (h' : heap),
    extractWorldDescription (VRef 0) (VRef 7) (VRef 8) (VRef 9)
      (store Example.built) = Some (d, h') ->
    store Example.built `prefix_of` h' /\
    owned (length (store Example.built)) h' 4 d = true.
Proof.
  split.
  - apply (proj1 (extractWorldDescription_pure (store Example.built)
                    (VRef 0) (VRef 7) (VRef 8) (VRef 9))).
    reflexivity.
  - apply (proj2 (extractWorldDescription_pure (store Example.built)
                    (VRef 0) (VRef 7) (VRef 8) (VRef 9))).
Defined.

Lemma refers_insert (kind : object -> bool) (h : heap) (l : nat)
  (o o' : object) (v : value) :
  h !! l = Some o -> kind o' = kind o ->
  refers kind (<[l := o']> h) v = refers kind h v.
Proof.
  intros Hl Hk. destruct v as [p | l']; simpl; [done |].
  destruct (decide (l = l')) as [<- | Hne].
  - rewrite list_lookup_insert_eq by (by eapply lookup_lt_Some).
    by rewrite Hl.
  - by rewrite list_lookup_insert_ne.
Qed.

Lemma forallb_pointwise {A : Type} (f g : A -> bool) (l : list A) :
  (forall x, f x = g x) -> forallb f l = forallb g l.
Proof. intros H. induction l as [| a l IH]; simpl; [done |]. by rewrite H, IH. Qed.

Lemma array_of_insert (kind : object -> bool) (h : heap) (l : nat)
  (wd wd' : World) (v : value) :
  h !! l = Some (OWorld wd) -> kind (OWorld wd') = kind (OWorld wd) ->
  array_of kind (<[l := OWorld wd']> h) v = array_of kind h v.
Proof.
  intros Hl Hk. destruct v as [p | l']; simpl; [done |].
  destruct (decide (l = l')) as [<- | Hne].
  - rewrite list_lookup_insert_eq by (by eapply lookup_lt_Some).
    by rewrite Hl.
  - rewrite list_lookup_insert_ne by done.
    destruct (h !! l') as [[| es | | | |] |]; try done.
    apply forallb_pointwise. intros e. by eapply refers_insert.
Qed.

Lemma builder_arguments_insert (h : heap) (l : nat) (wd wd' : World)
  (w b c j : value) :
  h !! l = Some (OWorld wd) ->
  builder_arguments (<[l := OWorld wd']> h) w b c j
  = builder_arguments h w b c j.
Proof.
  intros Hl. unfold builder_arguments.
  rewrite (refers_insert _ _ _ _ _ _ Hl) by done.
  by rewrite !(array_of_insert _ _ _ _ _ _ Hl).
Qed.

Lemma builder_arguments_grow (h h' : heap) (w b c j : value) :
  h `prefix_of` h' -> builder_arguments h w b c j = true ->
  builder_arguments h' w b c j = true.
Proof.
  intros Hp. unfold builder_arguments. rewrite !andb_true_iff, !orb_true_iff.
  intros [[[Hw Hb] Hc] Hj].
  repeat split; try (by eapply refers_grow); try (by eapply array_of_grow).
  destruct Hj as [Hj | Hj]; [by left | right; by eapply array_of_grow].
Qed.

Lemma forEach_present_total (f : value -> call) (kind : object -> bool)
  (arr : value) (t : Testbed) :
  array_of kind (store t) arr = true ->
  exists t', forEach_present f arr t = Some t'.
Proof.
  intros H. unfold forEach_present, on_store, deref.
  destruct arr as [p | l]; [done |]. simpl in H.
  destruct (store t !! l) as [[| es | | | |] |]; try done. by eexists.
Qed.

(** [setWorld] returns for the arguments of a demo builder. *)
Lemma setWorld_total (w b c j : value) (now : Z) (t : Testbed) :
  builder_arguments (store t) w b c j = true ->
  exists t', setWorld w b c j now t = Some t'.
Proof.
  intros Ha.
  assert (Hw : refers is_world (store t) w = true).
  { unfold builder_arguments in Ha. rewrite !andb_true_iff in Ha. tauto. }
  apply refers_inv in Hw as (lw & o & -> & Hlw & Ho).
  destruct o as [| | wd | | |]; try done.
  unfold setWorld. cbv zeta.
  unfold on_store at 1. cbn [world set_world store]. unfold set_iterations.
  rewrite Hlw.
  set (t1 := set_store _ (set_world (VRef lw) t)).
  set (t2 := set_colliders c (set_bodies b _)).
  assert (Ha2 : builder_arguments (store t2) (VRef lw) b c j = true).
  { subst t2 t1. cbn [store set_colliders set_bodies set_demoToken set_store].
    by rewrite (builder_arguments_insert _ _ _ _ _ _ _ _ Hlw). }
  assert (H3 : exists js t3,
             (if truthy j then Some (j, t2)
              else on_store (alloc (OArray [])) t2) = Some (js, t3) /\
             builder_arguments (store t3) (VRef lw) b c j = true).
  { destruct (truthy j).
    - by exists j, t2.
    - eexists _, _. split; [reflexivity |]. cbn [store set_store].
      eapply builder_arguments_grow; [apply prefix_snoc | exact Ha2]. }
  destruct H3 as (js & t3 & -> & Ha3).
  set (t3' := present ResetTiming (set_joints js t3)).
  assert (Hc : array_of is_collider (store t3') c = true).
  { unfold builder_arguments in Ha3. rewrite !andb_true_iff in Ha3.
    subst t3'. cbn [store present set_presentation set_joints]. tauto. }
  destruct (forEach_present_total AddCollider _ _ _ Hc) as (t4 & E4).
  rewrite E4.
  apply forEach_present_inv in E4 as (S4 & _).
  assert (Ha4 : builder_arguments (store t4) (VRef lw) b c j = true).
  { rewrite S4. subst t3'. by cbn [store present set_presentation set_joints]. }
  destruct (extractWorldDescription_spec _ _ _ _ _ Ha4)
    as (h1 & lw' & wd' & mb & mc & mj & rb & rc & rj & E & _).
  unfold on_store, bind. rewrite E. unfold deref. rewrite lookup_new.
  unfold alloc.
  destruct (stepMessage _) as [sm t6]. by eexists.
Qed.

(** C10.  A call of [setWorld] whose [joints] argument is omitted or
    falsy, the other arguments being those of a demo builder, returns;
    the [joints] of the testbed are then an empty array, and the
    [setWorld] message that was posted has a [joints] property that is an
    empty array. *)
Theorem setWorld_without_joints (w b c j : value) (now : Z) (t : Testbed) :
  truthy j = false ->
  builder_arguments (store t) w b c j = true ->
  exists (t' : Testbed) (p q : Posted) (l : nat),
    setWorld w b c j now t = Some t' /\
    outbox t' = outbox t ++ [p; q] /\
    has_type "setWorld" p = true /\
    array_property (posted_store p) (posted_message p) "joints" = Some [] /\
    joints t' = VRef l /\
    store t' !! l = Some (OArray []).
Proof.
  intros Hj Ha.
  destruct (setWorld_total w b c j now t Ha) as (t' & E).
  destruct (setWorld_inv _ _ _ _ _ _ _ E)
    as (_ & _ & _ & _ & p & q & Ho & Hp & _ & _ & _ & H).
  destruct (H Hj) as ((l & Hl & Hs) & Hm).
  by exists t', p, q, l.
Qed.

Lemma setWorld_without_joints_witness :
  exists (t' : Testbed) (p q : Posted) (l : nat),
    setWorld (VRef 0) (VRef 7) (VRef 8) undefined 0 Example.built = Some t' /\
    outbox t' = outbox Example.built ++ [p; q] /\
    has_type "setWorld" p = true /\
    array_property (posted_store p) (posted_message p) "joints" = Some [] /\
    joints t' = VRef l /\
    store t' !! l = Some (OArray []).
Proof.
  apply (setWorld_without_joints (VRef 0) (VRef 7) (VRef 8) undefined 0
           Example.built); reflexivity.
Defined.

(* ================================================================== *)
(** ** Pending timeouts *)

(** C5, as the specification states it, fails: the world is set, the
    result of its first step schedules a step, the world is set again
    (which cancels nothing) and the result of the first step of the new
    world schedules a step while the other timeout is still pending.
    Each of the two results answers a step message that was posted
    before. *)
Lemma two_deferred_steps_pending :
  exists t : Testbed,
    execute Example.two_worlds constructed = Some t /\
    map (has_type "step") (outbox t) = [false; true; false; true] /\
    map (fun tm => (timer_created tm, timer_delay tm)) (timers t)
    = [(5%Z, Some 5%Z); (9%Z, Some 3%Z)] /\
    length (timers t) = 2.
Proof.
  eexists. split; [vm_compute; reflexivity |].
  split; [vm_compute; reflexivity |].
  split; vm_compute; reflexivity.
Qed.

(** The pending timeouts, event by event.  A message of the worker adds
    at most one: none when its token differs from [demoToken] or when a
    timestep has elapsed since the last message, one otherwise; a timeout
    that runs is removed; [setWorld], a frame of the render loop and the
    GUI neither add nor remove a pending timeout. *)
Lemma timers_per_event (e : event) (t t' : Testbed) :
  step e t = Some t' ->
  match e with
  | Message data now =>
      if token_differs data t then timers t' = timers t
      else exists ts,
          world_timestep t = Some ts /\
          if at_least (elapsed now (lastMessageTime t)) (ts * 1000)%Q
          then timers t' = timers t
          else exists m,
              timers t'
              = timers t ++ [mkTimer now (elapsed now (lastMessageTime t)) m]
  | Timeout i now =>
      timers t' = delete i (timers t) /\ i < length (timers t)
  | _ => timers t' = timers t
  end.
Proof.
  destruct e as [data now | i now | w b c j now | | p | o]; simpl.
  - unfold onmessage. destruct (token_differs data t); [by intros [= <-] |].
    set (t1 := if token_matches data t then update_presentation data t else t).
    assert (H1 : world_timestep t1 = world_timestep t /\
                 timers t1 = timers t /\
                 lastMessageTime t1 = lastMessageTime t).
    { subst t1. by destruct (token_matches data t), data. }
    destruct H1 as (W1 & T1 & L1). intros H.
    destruct (pace_world _ _ _ H) as [ts Hts].
    destruct (pace_spec now t1 ts Hts) as (t'' & E & _ & _ & Hpace).
    rewrite H in E. injection E as <-.
    exists ts. split; [by rewrite <- W1 |]. rewrite L1 in Hpace.
    destruct (at_least _ _).
    + destruct Hpace as [(p & _ & _ & Hp) _]. by rewrite Hp.
    + destruct Hpace as [(m & Hm & _) _]. exists m. by rewrite Hm, T1.
  - unfold timeout. destruct (timers t !! i) as [tm |] eqn:E; [| done].
    destruct (timer_due tm now); [| done]. intros [= <-].
    split; [done |]. by eapply lookup_lt_Some.
  - intros H. by apply setWorld_inv in H as (_ & H & _).
  - by intros [= <-].
  - by intros [= <-].
  - by intros [= <-].
Qed.

(* ================================================================== *)
(** ** Tokens *)

Lemma has_type_kept (h h' : heap) (m : value) (ty : string) :
  literals_kept h h' ->
  has_type ty (mkPosted h m) = true -> has_type ty (mkPosted h' m) = true.
Proof.
  intros Hk. unfold has_type, posted_property, own_property.
  cbn [posted_store posted_message].
  destruct m as [p | l]; [done |].
  destruct (h !! l) as [[ps | | | | |] |] eqn:E; try done.
  by rewrite (Hk l ps E).
Qed.

Lemma has_type_step_not_setWorld (p : Posted) :
  has_type "step" p = true -> has_type "setWorld" p = false.
Proof.
  unfold has_type.
  destruct (posted_property "type" p) as [[[| | | | s] |] |]; try done.
  by destruct (String.eqb_spec s "step") as [-> |].
Qed.

Lemma pending_steps_kept (t t' : Testbed) :
  literals_kept (store t) (store t') -> timers t' = timers t ->
  pending_steps t = true -> pending_steps t' = true.
Proof.
  unfold pending_steps. intros Hk ->.
  rewrite !List.forallb_forall. intros H tm Hin.
  eapply has_type_kept; [exact Hk |]. by apply H.
Qed.

Lemma setWorld_tokens_snoc (ps : list Posted) (p : Posted) :
  setWorld_tokens (ps ++ [p])
  = setWorld_tokens ps ++
    (if has_type "setWorld" p then [posted_property "token" p] else []).
Proof.
  unfold setWorld_tokens. rewrite List.filter_app, map_app. simpl.
  by destruct (has_type "setWorld" p).
Qed.

(** The pacing posts a step message or adds a timeout for one. *)
Lemma pace_posted (now : Z) (t t' : Testbed) :
  pending_steps t = true -> pace now t = Some t' ->
  pending_steps t' = true /\
  setWorld_tokens (outbox t') = setWorld_tokens (outbox t).
Proof.
  intros Hpend. unfold pace.
  pose proof (stepMessage_frame t) as (_ & _ & _ & _ & Ho & Hti & _).
  pose proof (stepMessage_has_type t) as Hty.
  pose proof (stepMessage_store t) as Hst.
  destruct (stepMessage t) as [m t1]. cbn [fst snd] in *.
  assert (Hk : literals_kept (store t) (store t1)).
  { rewrite Hst. apply literals_kept_prefix, prefix_snoc. }
  assert (Hpend1 : pending_steps t1 = true) by by eapply pending_steps_kept.
  destruct (world_timestep t1) as [ts |]; [| done].
  destruct (at_least _ _); intros [= <-].
  - split; [done |].
    cbn [outbox set_lastMessageTime postMessage set_outbox].
    rewrite setWorld_tokens_snoc, (has_type_step_not_setWorld _ Hty), Ho.
    by rewrite app_nil_r.
  - split; [| by cbn; rewrite Ho].
    unfold pending_steps, setTimeout. cbn [store timers set_timers].
    rewrite forallb_app. cbn [forallb timer_message].
    unfold pending_steps in Hpend1. by rewrite Hpend1, Hty.
Qed.

(** One event: the token counts the calls of [setWorld], and the
    [setWorld] message of a call carries the new token. *)
Lemma step_token (e : event) (t t' : Testbed) :
  pending_steps t = true -> step e t = Some t' ->
  pending_steps t' = true /\
  demoToken t' = (demoToken t + if is_SetWorld e then 1 else 0)%Z /\
  setWorld_tokens (outbox t')
  = setWorld_tokens (outbox t) ++
    (if is_SetWorld e then [Some (integer (demoToken t + 1))] else []).
Proof.
  intros Hpend.
  destruct e as [data now | i now | w b c j now | | p | o]; simpl.
  - unfold onmessage. destruct (token_differs data t).
    { intros [= <-]. by rewrite Z.add_0_r, app_nil_r. }
    set (t1 := if token_matches data t then update_presentation data t else t).
    assert (H1 : pending_steps t1 = true /\ demoToken t1 = demoToken t /\
                 outbox t1 = outbox t).
    { subst t1. by destruct (token_matches data t), data. }
    destruct H1 as (P1 & D1 & O1). intros H.
    destruct (pace_posted _ _ _ P1 H) as [P2 T2].
    apply pace_frame in H as (_ & D2 & _).
    by rewrite D2, D1, T2, O1, Z.add_0_r, app_nil_r.
  - unfold timeout. destruct (timers t !! i) as [tm |] eqn:E; [| done].
    destruct (timer_due tm now); [| done]. intros [= <-].
    assert (Htm : has_type "step" (mkPosted (store t) (timer_message tm)) = true).
    { unfold pending_steps in Hpend. rewrite List.forallb_forall in Hpend.
      apply Hpend. apply list_elem_of_In. by eapply list_elem_of_lookup_2. }
    split; [| split].
    + unfold pending_steps in *. cbn.
      rewrite List.forallb_forall in Hpend. apply List.forallb_forall.
      intros x Hx. apply Hpend. apply list_elem_of_In.
      apply list_elem_of_In in Hx.
      by eapply list_elem_of_delete_inv.
    + cbn. lia.
    + cbn [outbox set_lastMessageTime postMessage set_outbox set_timers].
      rewrite setWorld_tokens_snoc.
      cbn [store set_timers].
      by rewrite (has_type_step_not_setWorld _ Htm).
  - intros H.
    apply setWorld_inv in H
      as (D & T & _ & K & p & q & O & Hp & Htok & _ & Hq & _).
    split; [by eapply pending_steps_kept |]. split; [done |].
    rewrite O.
    change (outbox t ++ [p; q]) with (outbox t ++ [p] ++ [q]).
    rewrite app_assoc, !setWorld_tokens_snoc, Hp, Hq, Htok.
    by rewrite app_nil_r.
  - intros [= <-]. by rewrite Z.add_0_r, app_nil_r.
  - intros [= <-]. by rewrite Z.add_0_r, app_nil_r.
  - intros [= <-]. rewrite Z.add_0_r, app_nil_r.
    split; [| done].
    apply (pending_steps_kept t); [| reflexivity | exact Hpend].
    apply literals_kept_prefix, prefix_snoc.
Qed.

(** C1.  Along every sequence of events of a testbed that starts with no
    pending timeout (or with pending step messages only), [demoToken]
    grows by exactly one at each call of [setWorld] and is changed by
    nothing else; the [setWorld] messages posted by the [n] calls carry,
    in the order of the calls, the tokens [demoToken + 1], ...,
    [demoToken + n]: each call posts its new token, the tokens increase
    strictly and none is used twice. *)
Theorem token_monotone (trace : list event) (t t' : Testbed) :
  pending_steps t = true ->
  execute trace t = Some t' ->
  demoToken t' = (demoToken t + Z.of_nat (setWorld_calls trace))%Z /\
  setWorld_tokens (outbox t')
  = setWorld_tokens (outbox t) ++
    map (fun k => Some (integer (demoToken t + Z.of_nat k)))
      (seq 1 (setWorld_calls trace)).
Proof.
  revert t. induction trace as [| e trace IH]; intros t Hpend H.
  - injection H as <-. simpl. by rewrite Z.add_0_r, app_nil_r.
  - simpl in H. destruct (step e t) as [t1 |] eqn:E; [| done].
    destruct (step_token e t t1 Hpend E) as (P1 & D1 & T1).
    destruct (IH t1 P1 H) as (D2 & T2).
    unfold setWorld_calls in *. cbn [List.filter].
    destruct (is_SetWorld e); cbn [length].
    + split; [lia |].
      rewrite T2, T1, <- app_assoc. f_equal.
      cbn [seq map app]. change (Z.of_nat 1) with 1%Z. f_equal.
      rewrite <- (seq_shift _ 1), map_map. apply map_ext. intros k.
      rewrite D1. do 2 f_equal. lia.
    + rewrite Z.add_0_r in D1. rewrite app_nil_r in T1.
      split; [lia |]. rewrite T2, T1, D1. done.
Qed.

Lemma token_monotone_witness :
  exists t' : Testbed,
    execute Example.two_worlds constructed = Some t' /\
    demoToken t' = 2%Z /\
    setWorld_tokens (outbox t') = [Some (integer 1); Some (integer 2)].
Proof.
  eexists. split; [vm_compute; reflexivity |].
  apply (token_monotone Example.two_worlds constructed);
    vm_compute; reflexivity.
Defined.

Lemma fold_present_eq (f : value -> call) (es : list value) (t : Testbed) :
  fold_left (fun acc e => present (f e) acc) es t
  = set_presentation (presentation t ++ map f es) t.
Proof.
  revert t. induction es as [| e es IH]; intros t; simpl.
  - rewrite app_nil_r. by destruct t.
  - rewrite IH. unfold present, set_presentation. simpl.
    by rewrite <- app_assoc.
Qed.

Lemma forEach_present_eq (f : value -> call) (arr : value) (t t' : Testbed) :
  forEach_present f arr t = Some t' ->
  t' = set_presentation (presentation t ++ map f (elements (store t) arr)) t.
Proof.
  unfold forEach_present, on_store, deref, elements.
  destruct arr as [p | l]; [done |].
  destruct (store t !! l) as [[| es | | | |] |]; try done.
  intros [= <-]. rewrite fold_present_eq. by destruct t.
Qed.

Lemma stepMessage_parameters (t1 t2 : Testbed) :
  parameters t1 = parameters t2 ->
  parameters (snd (stepMessage t1)) = parameters (snd (stepMessage t2)).
Proof.
  intros H. unfold stepMessage. rewrite H.
  by destruct (stepping (parameters t2)).
Qed.

Lemma setWorld_effect (w b c j : value) (now : Z) (t t' : Testbed) :
  setWorld w b c j now t = Some t' ->
  exists (lw : nat) (wd : World) (h1 : heap) (mw mb mc : value) (mj : nat),
    let p := parameters t in
    let h0 := <[lw := OWorld (mkWorld (numVelocityIter p) (numPositionIter p)
                                (timestep wd))]> (store t)
              ++ (if truthy j then [] else [OArray []]) in
    let desc := OLiteral [("world", mw); ("bodies", mb); ("colliders", mc);
                          ("joints", VRef mj)] in
    let msg := OLiteral [("type", str "setWorld");
                         ("backend", str (backend p));
                         ("token", integer (demoToken t + 1));
                         ("world", mw); ("bodies", mb); ("colliders", mc);
                         ("joints", VRef mj)] in
    w = VRef lw /\ store t !! lw = Some (OWorld wd) /\
    extractWorldDescription w b c j h0 = Some (VRef (length h1), h1 ++ [desc]) /\
    store t' = h1 ++ [desc; msg; step_literal p] /\
    outbox t' = outbox t ++
                [mkPosted (h1 ++ [desc; msg]) (VRef (length h1 + 1));
                 mkPosted (h1 ++ [desc; msg; step_literal p])
                   (VRef (length h1 + 2))] /\
    presentation t' = presentation t ++
                      ResetTiming :: map AddCollider (elements h0 c) /\
    world t' = w /\ bodies t' = b /\ colliders t' = c /\
    joints t' = (if truthy j then j else VRef (length (store t))) /\
    parameters t' = parameters (snd (stepMessage t)) /\
    demoToken t' = (demoToken t + 1)%Z /\
    timers t' = timers t /\ lastMessageTime t' = Some now.
Proof.
  intros H. unfold setWorld in H. cbv zeta in H.
  destruct (on_store _ (set_world w t)) as [[u t1] |] eqn:E1; [| done].
  apply on_store_inv in E1 as (h & K1 & ->).
  cbn [store set_world world] in K1.
  apply set_iterations_inv in K1 as (lw & wd & -> & Hlw & ->).
  cbn [store set_world world] in *.
  set (hw := <[lw := _]> (store t)) in *.
  set (t2 := set_colliders c (set_bodies b _)) in *.
  assert (E2 : exists js,
             (if truthy j then Some (j, t2) else on_store (alloc (OArray [])) t2)
             = Some (js, set_store (hw ++ if truthy j then [] else [OArray []]) t2)
             /\ js = if truthy j then j else VRef (length (store t))).
  { destruct (truthy j).
    - exists j. rewrite app_nil_r. by subst t2.
    - eexists. split; [reflexivity |]. subst hw. cbn.
      by rewrite length_insert. }
  destruct E2 as (js & E2 & Hjs). rewrite E2 in H. clear E2.
  set (h0 := hw ++ if truthy j then [] else [OArray []]) in *.
  destruct (forEach_present _ _ _) as [t4 |] eqn:E3; [| done].
  apply forEach_present_eq in E3. cbn [store present set_presentation
    set_joints set_store presentation] in E3.
  destruct (on_store _ t4) as [[message t5] |] eqn:E4; [| done].
  apply on_store_inv in E4 as (h5 & E4 & ->).
  apply bind_inv in E4 as (desc & h6 & E4 & E6).
  assert (S4 : store t4 = h0) by by rewrite E3.
  rewrite S4 in E4. pose proof E4 as E4'.
  apply extractWorldDescription_inv in E4'
    as (h1 & mw & mb & mc & mj & -> & -> & _).
  apply bind_inv in E6 as (d & h3 & E6 & E7).
  apply deref_inv in E6 as (-> & l & [= <-] & E6).
  rewrite lookup_new in E6. injection E6 as <-.
  injection E7 as <- <-.
  exists lw, wd, h1, mw, mb, mc, mj. cbv zeta.
  split; [done |]. split; [done |]. split; [exact E4 |].
  assert (D4 : demoToken t4 = (demoToken t + 1)%Z) by by rewrite E3.
  assert (P4 : parameters t4 = parameters t) by by rewrite E3.
  rewrite D4 in H.
  unfold stepMessage in H. cbn [parameters postMessage set_outbox set_store
    store] in H. rewrite P4 in H.
  assert (L : length ((h1 ++ [OLiteral [("world", mw); ("bodies", mb);
                ("colliders", mc); ("joints", VRef mj)]]) ++
              [OLiteral [("type", str "setWorld");
                         ("backend", str (backend (parameters t)));
                         ("token", integer (demoToken t + 1));
                         ("world", mw); ("bodies", mb); ("colliders", mc);
                         ("joints", VRef mj)]]) = length h1 + 2).
  { rewrite !length_app. simpl. lia. }
  rewrite L in H.
  assert (L1 : length (h1 ++ [OLiteral [("world", mw); ("bodies", mb);
                 ("colliders", mc); ("joints", VRef mj)]]) = length h1 + 1).
  { rewrite length_app. simpl. lia. }
  rewrite L1 in H.
  rewrite <- !app_assoc in H. cbn [app] in H.
  unfold stepMessage.
  destruct (stepping (parameters t)); injection H as <-;
    cbn; rewrite E3; cbn; rewrite ?Hjs; repeat split; try done;
    by rewrite <- ?app_assoc.
Qed.

(* ================================================================== *)
(** ** The records of the bodies and of the world *)

Lemma body_record_grow (b : RigidBody) (h h' : heap) (r : value) :
  h `prefix_of` h' -> body_record b h r -> body_record b h' r.
Proof.
  intros Hp (H1 & H2 & H3 & H4). unfold body_record.
  repeat (split; [by eapply own_property_old |]).
  by eapply object_property_old.
Qed.

Lemma body_encoded_monotone : monotone body_encoded.
Proof.
  intros h0 h0' h1 h1' e r H0 H1 Hr l b He Hl.
  eapply body_record_grow; [exact H1 |].
  eapply Hr; [exact He |]. by eapply prefix_lookup.
Qed.

Lemma encode_body_encoded : callback encode_body is_body body_encoded.
Proof.
  intros h e He. apply refers_inv in He as (l & o & -> & Hl & Ho).
  destruct o as [| | | b | |]; try done.
  eexists _, _. split; [by apply encode_body_eq |].
  split; [by eexists |].
  intros l' b' [= <-] Hl'. rewrite Hl in Hl'. injection Hl' as <-.
  unfold body_record, vector_literal, xyz. by read_store.
Qed.

(** The first steps of the encoder: the record of the world, then the
    records of the bodies. *)
Lemma extractWorldDescription_bodies (h : heap) (w b c j d : value) (h' : heap) :
  extractWorldDescription w b c j h = Some (d, h') ->
  exists (lw : nat) (wd : World) (mb : value) (hb : heap),
    w = VRef lw /\ h !! lw = Some (OWorld wd) /\
    array_map encode_body b
      (h ++ [iterations_literal (maxVelocityIterations wd)
               (maxPositionIterations wd)]) = Some (mb, hb) /\
    hb `prefix_of` h' /\
    own_property h' d "bodies" = Some mb /\
    own_property h' d "world" = Some (VRef (length h)).
Proof.
  intros H. apply bind_inv in H as (o & h0 & H0 & H).
  apply deref_inv in H0 as (-> & lw & -> & Hlw).
  destruct o as [| | wd | | |]; try done.
  apply bind_inv in H as (mw & ha & Ea & H). injection Ea as <- <-.
  apply bind_inv in H as (mb & hb & Eb & H).
  apply bind_inv in H as (mc & hc & Ec & H).
  apply (array_map_allocating _ _ _ _ _ encode_collider_allocating) in Ec
    as (rc & hc' & -> & -> & Hpc & _).
  apply bind_inv in H as (mj & hd & Ed & H). injection H as <- <-.
  assert (Hpd : hc' ++ [OArray rc] `prefix_of` hd).
  { destruct (truthy j); simpl in Ed.
    - apply (array_map_allocating _ _ _ _ _ encode_joint_allocating) in Ed
        as (rj & hd' & -> & -> & Hpd & _).
      etrans; [exact Hpd | apply prefix_snoc].
    - injection Ed as <- <-. apply prefix_snoc. }
  exists lw, wd, mb, hb. split; [done |]. split; [done |].
  split; [exact Eb |].
  split.
  { etrans; [exact Hpc |]. etrans; [apply prefix_snoc |].
    etrans; [exact Hpd | apply prefix_snoc]. }
  unfold own_property. by rewrite lookup_new.
Qed.

(** X1.  For the arguments of a demo builder, the [bodies] array of the
    description has one record per rigid body, in the order of the
    bodies; the record of a body holds its handle, its type and its mass,
    and a new [translation] record with the three components of its
    translation. *)
Theorem body_records (h : heap) (w c j : value) (lb : nat)
  (bs : list value) (i l : nat) (b : RigidBody) :
  builder_arguments h w (VRef lb) c j = true ->
  h !! lb = Some (OArray bs) ->
  bs !! i = Some (VRef l) ->
  h !! l = Some (ORigidBody b) ->
  exists (d : value) (h' : heap) (rs : list value) (r : value),
    extractWorldDescription w (VRef lb) c j h = Some (d, h') /\
    array_property h' d "bodies" = Some rs /\
    length rs = length bs /\
    rs !! i = Some r /\
    body_record b h' r.
Proof.
  intros Ha Hlb Hi Hl.
  destruct (extractWorldDescription_spec h w (VRef lb) c j Ha)
    as (h1 & lw & wd & mb & mc & mj & rb & rc & rj & E & _).
  destruct (extractWorldDescription_bodies _ _ _ _ _ _ _ E)
    as (lw' & wd' & mb' & hb & _ & _ & Eb & Hpb & Hbod & _).
  assert (Hb : array_of is_body h (VRef lb) = true).
  { unfold builder_arguments in Ha. rewrite !andb_true_iff in Ha. tauto. }
  destruct (array_map_later encode_body is_body body_encoded h
              (h ++ [iterations_literal (maxVelocityIterations wd')
                       (maxPositionIterations wd')]) (VRef lb)
              encode_body_encoded body_encoded_monotone
              (prefix_snoc _ _) Hb) as (rs & hb0 & Eb' & _ & F).
  rewrite Eb' in Eb. injection Eb as <- <-.
  simpl in F. rewrite Hlb in F.
  destruct (Forall2_lookup_l _ _ _ _ _ F Hi) as (r & Hr & Hrec).
  eexists _, _, rs, r. split; [exact E |].
  split.
  { unfold array_property. rewrite Hbod.
    by rewrite (prefix_lookup _ _ _ _ Hpb (lookup_new hb0 (OArray rs))). }
  split; [symmetry; by eapply Forall2_length |].
  split; [done |].
  eapply body_record_grow; [| by eapply Hrec].
  etrans; [apply prefix_snoc | exact Hpb].
Qed.

Lemma body_records_witness :
  exists (d : value) (h' : heap) (rs : list value) (r : value),
    extractWorldDescription (VRef 0) (VRef 7) (VRef 8) undefined
      (store Example.built) = Some (d, h') /\
    array_property h' d "bodies" = Some rs /\
    length rs = 2 /\
    rs !! 1 = Some r /\
    body_record (mkRigidBody (Example.vec 0 5 0) (PNumber 1)
                   (PString "dynamic") (PNumber 1)) h' r.
Proof.
  apply (body_records (store Example.built) (VRef 0) (VRef 8) undefined 7
           [VRef 1; VRef 2] 1 2); reflexivity.
Defined.

(* ================================================================== *)
(** ** What [setWorld] posts and shows *)

Lemma lookup_insert_app (h ext : heap) (l : nat) (o o' : object) :
  h !! l = Some o -> (<[l := o']> h ++ ext) !! l = Some o'.
Proof.
  intros H. apply lookup_old. apply list_lookup_insert_eq.
  by eapply lookup_lt_Some.
Qed.

Lemma elements_insert_app (h ext : heap) (l a : nat) (wd wd' : World)
  (o : object) :
  h !! l = Some (OWorld wd) -> h !! a = Some o ->
  elements (<[l := OWorld wd']> h ++ ext) (VRef a) = elements h (VRef a).
Proof.
  intros Hl Ha. simpl. rewrite Ha.
  destruct (decide (l = a)) as [<- | Hne].
  - rewrite Hl in Ha. injection Ha as <-.
    by rewrite (lookup_insert_app _ _ _ _ _ Hl).
  - rewrite (lookup_old _ _ a o); [done |].
    by rewrite list_lookup_insert_ne.
Qed.

(** The world after [setWorld], and the [world] record of the message. *)
Lemma setWorld_world_record (w b c j : value) (now : Z) (t t' : Testbed) :
  setWorld w b c j now t = Some t' ->
  exists (lw : nat) (wd : World) (p q : Posted),
    w = VRef lw /\ store t !! lw = Some (OWorld wd) /\
    store t' !! lw
    = Some (OWorld (mkWorld (numVelocityIter (parameters t))
                      (numPositionIter (parameters t)) (timestep wd))) /\
    outbox t' = outbox t ++ [p; q] /\
    posted_property "backend" p = Some (str (backend (parameters t))) /\
    object_property (posted_store p) (posted_message p) "world"
    = Some (iterations_literal (numVelocityIter (parameters t))
              (numPositionIter (parameters t))).
Proof.
  intros H.
  destruct (setWorld_effect _ _ _ _ _ _ _ H)
    as (lw & wd & h1 & mw & mb & mc & mj & Hw & Hlw & E & Hs & Ho & _).
  cbv zeta in *.
  pose proof (extractWorldDescription_inv _ _ _ _ _ _ _ E)
    as (h1' & mw' & mb'' & mc' & mj' & E1 & E2 & Hp & _).
  apply app_inj_tail in E2 as [<- _]. clear E1.
  destruct (extractWorldDescription_bodies _ _ _ _ _ _ _ E)
    as (lw' & wd' & mb' & hb & Hw' & Hlw' & Eb & Hpb & _ & Hwo).
  rewrite Hw in Hw'. injection Hw' as <-.
  rewrite (lookup_insert_app _ _ _ _ _ Hlw) in Hlw'. injection Hlw' as <-.
  cbn [maxVelocityIterations maxPositionIterations] in Eb.
  apply bind_inv in Eb as (o & hb1 & Eb1 & Eb).
  apply deref_inv in Eb1 as (-> & lb & -> & Hlb).
  destruct o as [| es | | | |]; try done.
  apply bind_inv in Eb as (rs & hb2 & Em & Eb). injection Eb as <- <-.
  apply (mapM_allocating _ encode_body_allocating) in Em as [Hpm _].
  unfold own_property in Hwo. rewrite lookup_new in Hwo. simpl in Hwo.
  injection Hwo as ->.
  eexists lw, wd, _, _.
  split; [done |]. split; [done |].
  split.
  { rewrite Hs. apply lookup_old.
    eapply prefix_lookup; [exact Hp |]. by eapply lookup_insert_app. }
  split; [exact Ho |].
  split.
  { unfold posted_property, own_property. cbn [posted_store posted_message].
    rewrite lookup_app_plus. reflexivity. }
  unfold object_property, own_property. cbn [posted_store posted_message].
  rewrite lookup_app_plus.
  cbn [lookup list_lookup assoc String.eqb Ascii.eqb Bool.eqb].
  eapply prefix_lookup; cycle 1.
  - eapply prefix_lookup; [etrans; [| exact Hpb]; etrans;
                           [exact Hpm | apply prefix_snoc] |].
    apply lookup_new.
  - eexists [_]. by rewrite <- app_assoc.
Qed.


(** X2.  [setWorld] writes the iteration counts of the parameters into
    the world that it is given, and encodes the world afterwards: the
    [world] record of the [setWorld] message holds the counts of the
    parameters, whatever the counts of the world were at the call, and
    the live world holds them after the call, with its timestep
    unchanged.  The message carries the backend of the parameters. *)
Theorem setWorld_iterations (w b c j : value) (now : Z) (t t' : Testbed) :
  setWorld w b c j now t = Some t' ->
  exists (lw : nat) (wd : World) (p q : Posted),
    w = VRef lw /\ store t !! lw = Some (OWorld wd) /\
    store t' !! lw
    = Some (OWorld (mkWorld (numVelocityIter (parameters t))
                      (numPositionIter (parameters t)) (timestep wd))) /\
    outbox t' = outbox t ++ [p; q] /\
    posted_property "backend" p = Some (str (backend (parameters t))) /\
    object_property (posted_store p) (posted_message p) "world"
    = Some (iterations_literal (numVelocityIter (parameters t))
              (numPositionIter (parameters t))).
Proof. apply setWorld_world_record. Qed.

Lemma setWorld_iterations_witness :
  exists (lw : nat) (wd : World) (p q : Posted),
    VRef 0 = VRef lw /\ store Example.built !! lw = Some (OWorld wd) /\
    store Example.started !! lw
    = Some (OWorld (mkWorld 4 1 (timestep wd))) /\
    outbox Example.started = outbox Example.built ++ [p; q] /\
    posted_property "backend" p = Some (str "rapier") /\
    object_property (posted_store p) (posted_message p) "world"
    = Some (iterations_literal 4 1).
Proof.
  apply (setWorld_iterations (VRef 0) (VRef 7) (VRef 8) undefined 0
           Example.built Example.started).
  vm_compute. reflexivity.
Defined.

(** X3.  The [setWorld] message is made of objects allocated by the
    call, after the array that the call may create for [this.joints]:
    it holds no reference to the world, to the arrays of the builder, to
    their elements or to the joints of the testbed.  The step message
    posted after it is a new literal of primitive values. *)
Theorem setWorld_message_owned (w b c j : value) (now : Z) (t t' : Testbed) :
  setWorld w b c j now t = Some t' ->
  exists p q : Posted,
    outbox t' = outbox t ++ [p; q] /\
    owned (length (store t) + if truthy j then 0 else 1)
      (posted_store p) 4 (posted_message p) = true /\
    owned (length (store t) + if truthy j then 0 else 1)
      (posted_store q) 1 (posted_message q) = true.
Proof.
  intros H.
  destruct (setWorld_effect _ _ _ _ _ _ _ H)
    as (lw & wd & h1 & mw & mb & mc & mj & Hw & Hlw & E & Hs & Ho & _).
  cbv zeta in *.
  pose proof (extractWorldDescription_inv _ _ _ _ _ _ _ E)
    as (h1' & mw' & mb' & mc' & mj' & E1 & E2 & Hp & Ow & Ob & Oc & Oj & _).
  apply app_inj_tail in E2 as [<- E2]. injection E2 as <- <- <- <-. clear E1.
  set (base := length (store t) + if truthy j then 0 else 1).
  assert (Hbase : length (<[lw := OWorld (mkWorld
              (numVelocityIter (parameters t)) (numPositionIter (parameters t))
              (timestep wd))]> (store t) ++
            (if truthy j then [] else [OArray []])) = base).
  { subst base. rewrite length_app, length_insert. by destruct (truthy j). }
  rewrite Hbase in Ow, Ob, Oc, Oj.
  assert (Hlen : base <= length h1).
  { rewrite <- Hbase. by apply prefix_length. }
  eexists _, _. split; [exact Ho |].
  cbn [posted_store posted_message]. split.
  - rewrite owned_ref, lookup_app_plus.
    cbn [lookup list_lookup forallb snd]. rewrite !andb_true_iff.
    assert (G : forall v, owned base h1 3 v = true ->
                          owned base (h1 ++ [OLiteral [("world", mw);
                            ("bodies", mb); ("colliders", mc);
                            ("joints", VRef mj)];
                           OLiteral [("type", str "setWorld");
                            ("backend", str (backend (parameters t)));
                            ("token", integer (demoToken t + 1));
                            ("world", mw); ("bodies", mb); ("colliders", mc);
                            ("joints", VRef mj)]]) 3 v = true).
    { intros v. apply owned_weaken; [done | by eexists | done]. }
    repeat split; try done; try by apply G.
    apply Nat.leb_le. lia.
  - rewrite owned_ref, lookup_app_plus.
    cbn [lookup list_lookup]. rewrite andb_true_iff. split; [| done].
    apply Nat.leb_le. lia.
Qed.

Lemma setWorld_message_owned_witness :
  exists p q : Posted,
    outbox Example.started = outbox Example.built ++ [p; q] /\
    owned (length (store Example.built) + 1)
      (posted_store p) 4 (posted_message p) = true /\
    owned (length (store Example.built) + 1)
      (posted_store q) 1 (posted_message q) = true.
Proof.
  apply (setWorld_message_owned (VRef 0) (VRef 7) (VRef 8) undefined 0
           Example.built Example.started).
  vm_compute. reflexivity.
Defined.

(** X4.  [setWorld] keeps the references that it is given (the world,
    the arrays of bodies and colliders, and the array of joints when
    there is one) without copying them, resets the timing of the GUI and
    then gives every collider of the array to the graphics, once and in
    the order of the array. *)
Theorem setWorld_presentation (w b j : value) (lc : nat) (cs : list value)
  (now : Z) (t t' : Testbed) :
  setWorld w b (VRef lc) j now t = Some t' ->
  store t !! lc = Some (OArray cs) ->
  presentation t' = presentation t ++ ResetTiming :: map AddCollider cs /\
  world t' = w /\ bodies t' = b /\ colliders t' = VRef lc /\
  (truthy j = true -> joints t' = j).
Proof.
  intros H Hlc.
  destruct (setWorld_effect _ _ _ _ _ _ _ H)
    as (lw & wd & h1 & mw & mb & mc & mj & Hw & Hlw & _ & _ & _ & Hpr
        & Hwo & Hbo & Hco & Hjo & _).
  cbv zeta in *.
  rewrite (elements_insert_app _ _ _ _ _ _ _ Hlw Hlc) in Hpr.
  simpl in Hpr. rewrite Hlc in Hpr.
  repeat split; try done. intros Hj. by rewrite Hj in Hjo.
Qed.

Lemma setWorld_presentation_witness :
  presentation Example.started
  = presentation Example.built ++
    ResetTiming :: map AddCollider [VRef 3; VRef 4] /\
  world Example.started = VRef 0 /\ bodies Example.started = VRef 7 /\
  colliders Example.started = VRef 8 /\
  (truthy undefined = true -> joints Example.started = undefined).
Proof.
  apply (setWorld_presentation (VRef 0) (VRef 7) undefined 8
           [VRef 3; VRef 4] 0 Example.built Example.started);
    vm_compute; reflexivity.
Defined.

(* ================================================================== *)
(** ** Deferred step messages *)

Lemma pace_deferred (now : Z) (t : Testbed) (ts : Q) :
  world_timestep t = Some ts ->
  at_least (elapsed now (lastMessageTime t)) (ts * 1000)%Q = false ->
  pace now t
  = Some (setTimeout now (elapsed now (lastMessageTime t))
            (VRef (length (store t))) (snd (stepMessage t))).
Proof.
  intros Hw Ha. unfold pace.
  pose proof (world_timestep_stepMessage t ts Hw) as Hw'.
  pose proof (stepMessage_frame t) as (_ & _ & Hl & _).
  pose proof (stepMessage_value t) as Hv.
  destruct (stepMessage t) as [m t1]. simpl in *.
  by rewrite Hw', Hl, Ha, Hv.
Qed.

Lemma stepMessage_stepping (t : Testbed) :
  stepping (parameters (snd (stepMessage t))) = false.
Proof.
  unfold stepMessage. by destruct (stepping (parameters t)) eqn:E.
Qed.

(** X5.  The step message of a deferred dispatch is built when the
    result is received, not when the timeout runs: its [running] flag
    and its iteration counts are those of the parameters at the receipt,
    whatever the GUI has written into the parameters in between, and the
    stepping flag is cleared at the receipt.  When the timeout runs the
    message is posted, the timeout is removed and the time of the last
    message becomes the time of the run. *)
Theorem deferred_message_frozen (data : option StepResult) (now now' : Z)
  (t : Testbed) (ts : Q) (p' : SimulationParameters) :
  token_differs data t = false ->
  world_timestep t = Some ts ->
  at_least (elapsed now (lastMessageTime t)) (ts * 1000)%Q = false ->
  timer_due (mkTimer now (elapsed now (lastMessageTime t)) undefined) now'
  = true ->
  exists (t1 t2 : Testbed) (q : Posted),
    onmessage data now t = Some t1 /\
    stepping (parameters t1) = false /\
    timeout (length (timers t)) now' (set_parameters p' t1) = Some t2 /\
    outbox t2 = outbox t ++ [q] /\
    posted_property "running" q
    = Some (boolean (running (parameters t) || stepping (parameters t))) /\
    posted_property "maxVelocityIterations" q
    = Some (number (numVelocityIter (parameters t))) /\
    posted_property "maxPositionIterations" q
    = Some (number (numPositionIter (parameters t))) /\
    timers t2 = timers t /\
    lastMessageTime t2 = Some now'.
Proof.
  intros Hd Hw Ha Hdue. unfold onmessage. rewrite Hd.
  set (t0 := if token_matches data t then update_presentation data t else t).
  assert (H0 : world_timestep t0 = Some ts /\ store t0 = store t /\
               timers t0 = timers t /\ outbox t0 = outbox t /\
               parameters t0 = parameters t /\
               lastMessageTime t0 = lastMessageTime t).
  { subst t0. by destruct (token_matches data t), data. }
  destruct H0 as (W0 & S0 & T0 & O0 & P0 & L0).
  rewrite (pace_deferred now t0 ts W0) by by rewrite L0.
  pose proof (stepMessage_frame t0) as (_ & _ & _ & _ & Ho & Hti & _).
  pose proof (stepMessage_store t0) as Hst.
  pose proof (stepMessage_stepping t0) as Hsp.
  set (t1 := snd (stepMessage t0)) in *.
  eexists _, _, _. split; [reflexivity |].
  split; [done |].
  unfold timeout. cbn [timers set_parameters setTimeout set_timers].
  rewrite Hti, T0, list_lookup_middle by done.
  unfold timer_due in *. cbn [timer_delay timer_created] in *.
  rewrite L0, Hdue. split; [reflexivity |].
  cbn [outbox set_lastMessageTime postMessage set_outbox set_timers
       set_parameters setTimeout store timers lastMessageTime timer_message].
  rewrite Ho, O0, Hst, S0, P0.
  split; [reflexivity |].
  unfold posted_property, own_property. cbn [posted_store posted_message].
  rewrite lookup_new.
  repeat split; try done.
  by rewrite delete_middle, app_nil_r.
Qed.

Lemma deferred_message_frozen_witness :
  exists (t1 t2 : Testbed) (q : Posted),
    onmessage (Some Example.fresh_result) 5 Example.started = Some t1 /\
    stepping (parameters t1) = false /\
    timeout (length (timers Example.started)) 10
      (set_parameters (parameters Example.single_step) t1) = Some t2 /\
    outbox t2 = outbox Example.started ++ [q] /\
    posted_property "running" q = Some (boolean true) /\
    posted_property "maxVelocityIterations" q = Some (number 4) /\
    posted_property "maxPositionIterations" q = Some (number 1) /\
    timers t2 = timers Example.started /\
    lastMessageTime t2 = Some 10%Z.
Proof.
  apply (deferred_message_frozen (Some Example.fresh_result) 5 10
           Example.started (1 # 60) (parameters Example.single_step));
    vm_compute; reflexivity.
Defined.

(** X6.  After a call of [setWorld] at time [now], a result that carries
    the new token and is received at time [now'] is answered by a step
    message at once when [now' - now] is at least the timestep of the
    world in milliseconds, and by a timeout of [now' - now] milliseconds
    otherwise. *)
Theorem first_result_after_setWorld (lw : nat) (wd : World) (b c j : value)
  (now now' : Z) (t t' : Testbed) (d : StepResult) :
  setWorld (VRef lw) b c j now t = Some t' ->
  store t !! lw = Some (OWorld wd) ->
  token d = (demoToken t + 1)%Z ->
  exists t'' : Testbed,
    onmessage (Some d) now' t' = Some t'' /\
    if Qle_bool (timestep wd * 1000) (inject_Z (now' - now))
    then dispatched t' t'' /\ lastMessageTime t'' = Some now'
    else scheduled now' (Some (now' - now)%Z) t' t''.
Proof.
  intros H Hlw Hd.
  destruct (setWorld_effect _ _ _ _ _ _ _ H)
    as (lw' & wd' & h1 & mw & mb & mc & mj & Hw & Hlw' & E & Hs & _ & _
        & Hwo & _ & _ & _ & _ & Hdt & _ & Hlt).
  cbv zeta in *. injection Hw as <-. rewrite Hlw in Hlw'. injection Hlw' as <-.
  apply extractWorldDescription_inv in E as (h1' & mw' & mb' & mc' & mj' & E1
    & E2 & Hp & _).
  apply app_inj_tail in E2 as [<- _]. clear E1.
  assert (Hts : world_timestep t' = Some (timestep wd)).
  { unfold world_timestep. rewrite Hwo, Hs.
    rewrite (lookup_old _ _ lw (OWorld (mkWorld (numVelocityIter (parameters t))
               (numPositionIter (parameters t)) (timestep wd)))); [done |].
    eapply prefix_lookup; [exact Hp |]. by eapply lookup_insert_app. }
  unfold onmessage. cbn [token_differs token_matches].
  rewrite Hd, <- Hdt, Z.eqb_refl. cbn [negb].
  set (t0 := update_presentation (Some d) t').
  assert (H0 : world_timestep t0 = Some (timestep wd) /\
               timers t0 = timers t' /\ outbox t0 = outbox t' /\
               lastMessageTime t0 = Some now) by done.
  destruct H0 as (W0 & T0 & O0 & L0).
  destruct (pace_spec now' t0 _ W0) as (t'' & Hpace & _ & _ & Hcase).
  exists t''. split; [done |]. rewrite L0 in Hcase.
  cbn [elapsed at_least] in Hcase.
  destruct (Qle_bool _ _).
  - destruct Hcase as [(p & H1 & H2 & H3) H4]. split; [| done].
    exists p. by rewrite <- O0, <- T0.
  - destruct Hcase as [(m & H1 & H2) _]. exists m. by rewrite <- O0, <- T0.
Qed.

Lemma first_result_after_setWorld_witness :
  exists t'' : Testbed,
    onmessage (Some Example.fresh_result) 5 Example.started = Some t'' /\
    scheduled 5 (Some 5%Z) Example.started t''.
Proof.
  apply (first_result_after_setWorld 0 (mkWorld 4 1 (1 # 60)) (VRef 7)
           (VRef 8) undefined 0 5 Example.built Example.started
           Example.fresh_result); vm_compute; reflexivity.
Defined.

(* ================================================================== *)
(** ** Every accepted result is answered by one step message *)

Lemma step_messages_snoc (ps : list Posted) (p : Posted) :
  step_messages (ps ++ [p])
  = step_messages ps + if has_type "step" p then 1 else 0.
Proof.
  unfold step_messages. rewrite List.filter_app, length_app. simpl.
  by destruct (has_type "step" p).
Qed.

Lemma has_type_setWorld_not_step (p : Posted) :
  has_type "setWorld" p = true -> has_type "step" p = false.
Proof.
  unfold has_type.
  destruct (posted_property "type" p) as [[[| | | | s] |] |]; try done.
  by destruct (String.eqb_spec s "setWorld") as [-> |].
Qed.

Lemma step_conservation (e : event) (t t' : Testbed) :
  pending_steps t = true -> step e t = Some t' ->
  step_messages (outbox t') + length (timers t')
  = step_messages (outbox t) + length (timers t)
    + (if is_SetWorld e then 1 else 0) + (if is_accepted e t then 1 else 0).
Proof.
  intros Hpend.
  destruct e as [data now | i now | w b c j now | | p | o]; simpl.
  - unfold onmessage. destruct (token_differs data t); simpl.
    { intros [= <-]. lia. }
    set (t1 := if token_matches data t then update_presentation data t else t).
    assert (H1 : outbox t1 = outbox t /\ timers t1 = timers t).
    { subst t1. by destruct (token_matches data t), data. }
    destruct H1 as (O1 & T1). intros H.
    destruct (pace_world _ _ _ H) as [ts Hts].
    destruct (pace_spec now t1 ts Hts) as (t'' & E & _ & _ & Hcase).
    rewrite H in E. injection E as <-.
    destruct (at_least _ _).
    + destruct Hcase as [(p & H1 & H2 & H3) _].
      rewrite H1, H3, step_messages_snoc, H2, O1, T1. lia.
    + destruct Hcase as [(m & H1 & H2) _].
      rewrite H1, H2, length_app, O1, T1. simpl. lia.
  - unfold timeout. destruct (timers t !! i) as [tm |] eqn:E; [| done].
    destruct (timer_due tm now); [| done]. intros [= <-].
    assert (Htm : has_type "step" (mkPosted (store t) (timer_message tm)) = true).
    { unfold pending_steps in Hpend. rewrite List.forallb_forall in Hpend.
      apply Hpend. apply list_elem_of_In. by eapply list_elem_of_lookup_2. }
    cbn [outbox timers set_lastMessageTime postMessage set_outbox set_timers
         store].
    rewrite step_messages_snoc, Htm.
    pose proof (lookup_lt_Some _ _ _ E) as Hi.
    rewrite length_delete by by eexists. lia.
  - intros H.
    apply setWorld_inv in H
      as (_ & T & _ & _ & p & q & O & Hp & _ & Hq & _).
    rewrite O, T.
    change (outbox t ++ [p; q]) with (outbox t ++ [p] ++ [q]).
    rewrite app_assoc, !step_messages_snoc, Hq.
    rewrite (has_type_setWorld_not_step _ Hp). lia.
  - intros [= <-]. simpl. lia.
  - intros [= <-]. simpl. lia.
  - intros [= <-]. simpl. lia.
Qed.

(** X7.  Along every sequence of events of a testbed whose pending
    timeouts hold step messages, the step messages that have been posted
    and the timeouts that are pending are, together, one per call of
    [setWorld] and one per message of the worker that was not discarded:
    every accepted result is answered by exactly one step message, at
    once or when its timeout runs, and a discarded result by none. *)
Theorem steps_answer_results (trace : list event) (t t' : Testbed) :
  pending_steps t = true ->
  execute trace t = Some t' ->
  step_messages (outbox t') + length (timers t')
  = step_messages (outbox t) + length (timers t)
    + setWorld_calls trace + accepted trace t.
Proof.
  revert t. induction trace as [| e trace IH]; intros t Hpend H.
  - injection H as <-. simpl. unfold setWorld_calls. simpl. lia.
  - simpl in H. simpl accepted.
    destruct (step e t) as [t1 |] eqn:E; [| done].
    pose proof (step_conservation e t t1 Hpend E) as H1.
    destruct (step_token e t t1 Hpend E) as (P1 & _).
    pose proof (IH t1 P1 H) as H2.
    unfold setWorld_calls in *. cbn [List.filter].
    destruct (is_SetWorld e); cbn [length]; lia.
Qed.

Lemma steps_answer_results_witness :
  exists t' : Testbed,
    execute Example.two_worlds constructed = Some t' /\
    step_messages (outbox t') + length (timers t') = 0 + 0 + 2 + 2.
Proof.
  eexists. split; [vm_compute; reflexivity |].
  apply (steps_answer_results Example.two_worlds constructed);
    vm_compute; reflexivity.
Defined.

(* ================================================================== *)
(** ** A timeout that outlives its world *)

Lemma setWorld_world_timestep (lw : nat) (wd : World) (b c j : value)
  (now : Z) (t t' : Testbed) :
  setWorld (VRef lw) b c j now t = Some t' ->
  store t !! lw = Some (OWorld wd) ->
  world_timestep t' = Some (timestep wd).
Proof.
  intros H Hlw.
  destruct (setWorld_effect _ _ _ _ _ _ _ H)
    as (lw' & wd' & h1 & mw & mb & mc & mj & Hw & Hlw' & E & Hs & _ & _
        & Hwo & _).
  cbv zeta in *. injection Hw as <-. rewrite Hlw in Hlw'. injection Hlw' as <-.
  apply extractWorldDescription_inv in E as (h1' & mw' & mb' & mc' & mj' & E1
    & E2 & Hp & _).
  apply app_inj_tail in E2 as [<- _]. clear E1.
  unfold world_timestep. rewrite Hwo, Hs.
  rewrite (lookup_old _ _ lw (OWorld (mkWorld (numVelocityIter (parameters t))
             (numPositionIter (parameters t)) (timestep wd)))); [done |].
  eapply prefix_lookup; [exact Hp |]. by eapply lookup_insert_app.
Qed.

(** C5.  The property fails, by a defect of the code: [setWorld] cancels
    no timeout and the controller keeps no handle on one.  Whenever a
    deferred step is pending at a call of [setWorld], it is still
    pending after the call; the first result of the new world, received
    before a timestep has passed, adds a second pending timeout beside
    it; and when the older timeout runs, its step message is posted
    while the token is the one of the new world, so that the handler
    accepts the result of that step too: the loop of the older world is
    not stopped, it steps the new world beside the loop of the new
    world. *)
Theorem stale_timeout_steps_new_world
    (lw : nat) (wd : World) (b c j : value) (i : nat) (tm : Timer)
    (now now1 now2 : Z) (d : StepResult) (t t1 : Testbed) :
  pending_steps t = true ->
  timers t !! i = Some tm ->
  setWorld (VRef lw) b c j now t = Some t1 ->
  store t !! lw = Some (OWorld wd) ->
  token d = (demoToken t + 1)%Z ->
  Qle_bool (timestep wd * 1000) (inject_Z (now1 - now)) = false ->
  timer_due tm now2 = true ->
  exists (t2 t3 : Testbed) (m : value) (q : Posted),
    timers t1 = timers t /\
    onmessage (Some d) now1 t1 = Some t2 /\
    timers t2 = timers t ++ [mkTimer now1 (Some (now1 - now)%Z) m] /\
    length (timers t2) = S (length (timers t)) /\
    timeout i now2 t2 = Some t3 /\
    outbox t3 = outbox t2 ++ [q] /\
    has_type "step" q = true /\
    demoToken t3 = token d /\
    token_differs (Some d) t3 = false.
Proof.
  intros Hpend Htm H Hlw Hd Hearly Hdue.
  pose proof (setWorld_world_timestep _ _ _ _ _ _ _ _ H Hlw) as Hts.
  pose proof (setWorld_inv _ _ _ _ _ _ _ H) as (Htok & Htim & Hlast & _).
  destruct (step_token (SetWorld (VRef lw) b c j now) t t1 Hpend H)
    as (Hpend1 & _).
  assert (Hacc : token_differs (Some d) t1 = false).
  { cbn [token_differs]. by rewrite Hd, <- Htok, Z.eqb_refl. }
  set (t0 := update_presentation (Some d) t1).
  assert (H0 : world_timestep t0 = Some (timestep wd) /\
               timers t0 = timers t1 /\
               lastMessageTime t0 = Some now) by done.
  destruct H0 as (W0 & T0 & L0).
  destruct (pace_spec now1 t0 _ W0) as (t2 & Hpace & _ & Htok2 & Hcase).
  rewrite L0 in Hcase. cbn [elapsed at_least] in Hcase.
  rewrite Hearly in Hcase. destruct Hcase as [(m & Hm & _) _].
  rewrite T0, Htim in Hm.
  assert (Hon : onmessage (Some d) now1 t1 = Some t2).
  { unfold onmessage. rewrite Hacc. cbn [token_matches].
    by rewrite Hd, <- Htok, Z.eqb_refl. }
  destruct (step_token (Message (Some d) now1) t1 t2 Hpend1 Hon)
    as (Hpend2 & _).
  assert (Hi : timers t2 !! i = Some tm).
  { rewrite Hm. by apply lookup_app_l_Some. }
  exists t2. eexists. exists m, (mkPosted (store t2) (timer_message tm)).
  split; [exact Htim |]. split; [exact Hon |]. split; [exact Hm |].
  split; [rewrite Hm, length_app; simpl; lia |].
  split; [unfold timeout; rewrite Hi, Hdue; reflexivity |].
  split; [done |]. split.
  - unfold pending_steps in Hpend2. rewrite List.forallb_forall in Hpend2.
    apply Hpend2. apply list_elem_of_In. by eapply list_elem_of_lookup_2.
  - assert (Ht : demoToken t2 = token d).
    { rewrite Htok2. subst t0. by rewrite Hd, <- Htok. }
    split; [exact Ht |]. cbn [token_differs demoToken].
    cbn. rewrite <- Ht. by rewrite Z.eqb_refl.
Qed.

Lemma stale_timeout_steps_new_world_witness :
  exists (t2 t3 : Testbed) (m : value) (q : Posted),
    timers Example.restarted = timers Example.deferred /\
    onmessage (Some Example.second_result) 9 Example.restarted = Some t2 /\
    timers t2 = timers Example.deferred ++ [mkTimer 9 (Some (9 - 6)%Z) m] /\
    length (timers t2) = S (length (timers Example.deferred)) /\
    timeout 0 10 t2 = Some t3 /\
    outbox t3 = outbox t2 ++ [q] /\
    has_type "step" q = true /\
    demoToken t3 = token Example.second_result /\
    token_differs (Some Example.second_result) t3 = false.
Proof.
  eapply (stale_timeout_steps_new_world 0 (mkWorld 4 1 (1 # 60)) (VRef 7)
            (VRef 8) undefined 0 _ 6 9 10 Example.second_result
            Example.deferred Example.restarted);
    vm_compute; reflexivity.
Defined.

(** The run of [Example.two_worlds], continued: the timeout of the first
    world runs at time 10 and the one of the second world at time 12, so
    that two step messages are posted 2 ms apart for a world whose
    timestep is 1/60 s; the results of both carry the token of the
    second world, both are accepted, and each schedules a step again. *)
Lemma two_loops_drive_one_world :
  exists t : Testbed,
    execute (Example.two_worlds ++
             [Timeout 0 10; Timeout 0 12;
              Message (Some Example.second_result) 14;
              Message (Some Example.second_result) 15]) constructed
    = Some t /\
    map (has_type "step") (outbox t)
    = [false; true; false; true; true; true] /\
    demoToken t = 2%Z /\
    map (fun tm => (timer_created tm, timer_delay tm)) (timers t)
    = [(14%Z, Some 2%Z); (15%Z, Some 3%Z)].
Proof.
  eexists. split; [vm_compute; reflexivity |].
  split; [vm_compute; reflexivity |].
  split; vm_compute; reflexivity.
Qed.

(* ================================================================== *)
(** ** Switching demos and backends *)

(** The testbed that [switchToDemo] gives to the builder. *)
Lemma switchToDemo_inv (builders : string -> option Builder) (demo' : string)
  (now : Z) (c c' : Controller) :
  switchToDemo builders demo' now c = Some c' ->
  exists (f : Builder) (c0 : Controller) (p0 : SimulationParameters),
    builders demo' = Some f /\ f now c0 = Some c' /\
    testbed c0 = set_parameters p0 (testbed c) /\
    inhibitLookAt c0
    = (inhibitLookAt c ||
       match prevDemo c with Some d => String.eqb demo' d | None => false end) /\
    prevDemo c0 = Some demo' /\
    view c0 = view c ++ [Reset] /\
    let p := parameters (testbed c) in
    backend p0 = backend p /\ prevBackend p0 = backend p /\
    demo p0 = demo p /\ running p0 = running p /\
    stepping p0 = stepping p /\ debugInfos p0 = debugInfos p /\
    (numVelocityIter p0, numPositionIter p0) = backend_iterations p /\
    velIter c0 = (if String.eqb (backend p) PHYSX_BACKEND_NAME then disabled
                  else if String.eqb (prevBackend p) PHYSX_BACKEND_NAME
                    then enabled else velIter c) /\
    posIter c0 = (if String.eqb (backend p) "rapier" then enabled
                  else disabled).
Proof.
  unfold switchToDemo. cbv zeta.
  destruct (builders demo') as [f |]; [| done].
  unfold backend_iterations.
  destruct c as [t inh pd vs ps vw]. destruct t as [p tok w b cl j lt st pr ob tm].
  destruct p as [be pbe dm nv np ru sp di].
  destruct pd as [d |]; cbn -[String.eqb];
    [destruct (String.eqb demo' d); cbn -[String.eqb] |].
  all: destruct (String.eqb_spec be PHYSX_BACKEND_NAME) as [-> | Hbe];
    destruct (String.eqb_spec pbe PHYSX_BACKEND_NAME) as [-> | Hpbe];
    cbn [negb andb];
    try (destruct (String.eqb_spec be "rapier") as [-> | Hr]);
    intros H; eexists f, _, _; (split; [done |]); (split; [exact H |]);
    cbn; rewrite ?orb_true_r, ?orb_false_r; repeat split; reflexivity.
Qed.

Lemma initWorld_inv (d : Demo) (now : Z) (c c' : Controller) :
  initWorld d now c = Some c' ->
  exists t' : Testbed,
    let base := length (store (testbed c)) in
    setWorld (demo_world d base) (demo_bodies d base) (demo_colliders d base)
      (demo_joints d base) now
      (set_store (store (testbed c) ++ demo_objects d base) (testbed c))
    = Some t' /\
    c' = lookAt (demo_camera d base) (set_testbed t' c).
Proof.
  unfold initWorld. cbv zeta.
  destruct (setWorld _ _ _ _ _ _) as [t' |]; [| done].
  intros [= <-]. by exists t'.
Qed.

(** X8.  When no call of [lookAt] is inhibited, [switchToDemo] resets
    the graphics and runs the builder; the camera position of the builder
    is given to the graphics when the demo differs from the previous
    one, and is dropped when the same demo is started again (the view of
    the user is kept).  In both cases the next call of [lookAt] is not
    inhibited. *)
Theorem camera_kept_on_restart (builders : string -> option Builder)
  (d : Demo) (demo' : string) (now : Z) (c c' : Controller) :
  builders demo' = Some (initWorld d) ->
  inhibitLookAt c = false ->
  switchToDemo builders demo' now c = Some c' ->
  view c'
  = view c ++
    Reset :: (if match prevDemo c with
                 | Some d0 => String.eqb demo' d0
                 | None => false
                 end
              then []
              else [LookAt (demo_camera d (length (store (testbed c))))]) /\
  inhibitLookAt c' = false /\
  prevDemo c' = Some demo'.
Proof.
  intros Hb Hi H.
  apply switchToDemo_inv in H
    as (f & c0 & p0 & Hf & H & Ht & Hinh & Hpd & Hv & _).
  rewrite Hb in Hf. injection Hf as <-.
  apply initWorld_inv in H as (t' & _ & ->).
  rewrite Hi in Hinh. cbn [orb] in Hinh.
  assert (Hs : store (testbed c0) = store (testbed c)) by by rewrite Ht.
  unfold lookAt. cbn [inhibitLookAt set_testbed set_inhibitLookAt view
                      prevDemo set_view].
  rewrite Hinh, Hs.
  destruct (match prevDemo c with Some d0 => String.eqb demo' d0 | None => false end);
    cbn; rewrite Hv, Hpd, <- ?app_assoc; done.
Qed.

Lemma camera_kept_on_restart_witness :
  exists c1 c2 : Controller,
    switchToDemo (fun n => option_map initWorld (Example.demos n)) "cubes" 0
      new_controller = Some c1 /\
    view c1 = [Reset; LookAt (VRef 7)] /\
    switchToDemo (fun n => option_map initWorld (Example.demos n)) "cubes" 40
      c1 = Some c2 /\
    view c2 = view c1 ++ [Reset] /\
    inhibitLookAt c2 = false /\ prevDemo c2 = Some "cubes".
Proof.
  eexists _, _. split; [vm_compute; reflexivity |].
  split; [reflexivity |]. split; [vm_compute; reflexivity |].
  eapply (camera_kept_on_restart
            (fun n => option_map initWorld (Example.demos n))
            Example.small_demo "cubes" 40);
    vm_compute; reflexivity.
Defined.

Lemma testbed_lookAt (pos : value) (c : Controller) :
  testbed (lookAt pos c) = testbed c.
Proof. unfold lookAt. by destruct (negb (inhibitLookAt c)). Qed.

Lemma stepMessage_backends (t : Testbed) :
  let p' := parameters (snd (stepMessage t)) in
  backend p' = backend (parameters t) /\
  prevBackend p' = prevBackend (parameters t) /\
  numVelocityIter p' = numVelocityIter (parameters t) /\
  numPositionIter p' = numPositionIter (parameters t).
Proof. unfold stepMessage. by destruct (stepping (parameters t)). Qed.

(** X9.  A switch of demo or of backend sets one world: the token grows
    by one, and the [setWorld] message that is posted carries the new
    token, the backend of the parameters and, in its [world] record, the
    iteration counts that the backend imposes: 1 and 4 for PhysX, the
    defaults 4 and 1 when PhysX is left, the counts of the parameters
    otherwise.  The backend becomes the previous backend. *)
Theorem switch_sets_world (builders : string -> option Builder)
  (d : Demo) (demo' : string) (now : Z) (c c' : Controller) :
  builders demo' = Some (initWorld d) ->
  switchToDemo builders demo' now c = Some c' ->
  let t := testbed c in
  let t' := testbed c' in
  demoToken t' = (demoToken t + 1)%Z /\
  prevBackend (parameters t') = backend (parameters t) /\
  backend (parameters t') = backend (parameters t) /\
  exists p q : Posted,
    outbox t' = outbox t ++ [p; q] /\
    has_type "setWorld" p = true /\ has_type "step" q = true /\
    posted_property "token" p = Some (integer (demoToken t + 1)) /\
    posted_property "backend" p = Some (str (backend (parameters t))) /\
    object_property (posted_store p) (posted_message p) "world"
    = Some (iterations_literal (fst (backend_iterations (parameters t)))
              (snd (backend_iterations (parameters t)))).
Proof.
  intros Hb H. cbv zeta.
  apply switchToDemo_inv in H
    as (f & c0 & p0 & Hf & H & Ht & _ & _ & _ & Hp).
  cbv zeta in Hp.
  destruct Hp as (Hbe & Hpbe & _ & _ & _ & _ & Hit & _).
  rewrite Hb in Hf. injection Hf as <-.
  apply initWorld_inv in H as (t' & H & ->). cbv zeta in H.
  rewrite Ht in H. cbn [store set_parameters] in H.
  rewrite testbed_lookAt. cbn [testbed set_testbed].
  pose proof (setWorld_inv _ _ _ _ _ _ _ H)
    as (Htok & _ & _ & _ & p & q & Ho & Hty & Htk & Hq & _).
  pose proof (setWorld_world_record _ _ _ _ _ _ _ H)
    as (lw & wd & p' & q' & _ & _ & _ & Ho' & Hback & Hworld).
  pose proof (setWorld_effect _ _ _ _ _ _ _ H)
    as (lw0 & wd0 & h1 & mw & mb & mc & mj & Heff).
  cbv zeta in Heff.
  destruct Heff as (_ & _ & _ & _ & _ & _ & _ & _ & _ & _ & Hpar & _).
  rewrite Ho in Ho'. apply app_inv_head in Ho'. injection Ho' as <- <-.
  cbn [demoToken outbox parameters set_store set_parameters] in *.
  pose proof (stepMessage_backends
                (set_store (store (testbed c) ++
                   demo_objects d (length (store (testbed c))))
                   (set_parameters p0 (testbed c)))) as (B1 & B2 & _).
  cbn [parameters set_store set_parameters] in B1, B2.
  rewrite <- Hpar in B1, B2.
  split; [done |]. split; [by rewrite B2 |]. split; [by rewrite B1 |].
  exists p, q. split; [done |]. split; [done |]. split; [done |].
  split; [done |]. split; [by rewrite Hback, Hbe |].
  rewrite Hworld. rewrite <- Hit. reflexivity.
Qed.

Lemma switch_sets_world_witness :
  exists c1 c2 : Controller,
    perform_all Example.demos [ChooseDemo "cubes" 0] new_controller = Some c1 /\
    switchToDemo (fun n => option_map initWorld (Example.demos n)) "cubes" 30
      (choose_backend PHYSX_BACKEND_NAME c1) = Some c2 /\
    demoToken (testbed c2) = 2%Z /\
    prevBackend (parameters (testbed c2)) = PHYSX_BACKEND_NAME /\
    exists p q : Posted,
      outbox (testbed c2) = outbox (testbed c1) ++ [p; q] /\
      posted_property "token" p = Some (integer 2) /\
      posted_property "backend" p = Some (str PHYSX_BACKEND_NAME) /\
      object_property (posted_store p) (posted_message p) "world"
      = Some (iterations_literal 1 4).
Proof.
  eexists _, _. split; [vm_compute; reflexivity |].
  split; [vm_compute; reflexivity |].
  destruct (switch_sets_world
              (fun n => option_map initWorld (Example.demos n))
              Example.small_demo "cubes" 30
              (choose_backend PHYSX_BACKEND_NAME
                 (match perform_all Example.demos [ChooseDemo "cubes" 0]
                          new_controller with
                  | Some c => c
                  | None => new_controller
                  end))
              (match switchToDemo
                       (fun n => option_map initWorld (Example.demos n))
                       "cubes" 30
                       (choose_backend PHYSX_BACKEND_NAME
                          (match perform_all Example.demos
                                   [ChooseDemo "cubes" 0] new_controller with
                           | Some c => c
                           | None => new_controller
                           end)) with
               | Some c => c
               | None => new_controller
               end))
    as (H1 & H2 & _ & p & q & H3 & _ & _ & H4 & H5 & H6);
    [vm_compute; reflexivity | vm_compute; reflexivity |].
  split; [exact H1 |]. split; [exact H2 |].
  exists p, q. split; [exact H3 |]. split; [exact H4 |].
  split; [exact H5 | exact H6].
Defined.

(* ================================================================== *)
(** ** Invariants of the testbed *)

Lemma pace_parameters (now : Z) (t t' : Testbed) :
  pace now t = Some t' -> parameters t' = parameters (snd (stepMessage t)).
Proof.
  unfold pace. destruct (stepMessage t) as [m t1]. simpl.
  destruct (world_timestep t1); [| done].
  by destruct (at_least _ _); intros [= <-].
Qed.

Lemma step_prevBackend (e : event) (t t' : Testbed) :
  is_raw_edit (Handle e) = false -> step e t = Some t' ->
  prevBackend (parameters t') = prevBackend (parameters t).
Proof.
  intros He.
  destruct e as [data now | i now | w b c j now | | p | o]; simpl; try done.
  - unfold onmessage. destruct (token_differs data t); [by intros [= <-] |].
    intros H. apply pace_parameters in H. rewrite H.
    destruct (stepMessage_backends
                (if token_matches data t then update_presentation data t
                 else t)) as (_ & -> & _).
    by destruct (token_matches data t), data.
  - unfold timeout. destruct (timers t !! i) as [tm |]; [| done].
    destruct (timer_due tm now); [| done]. by intros [= <-].
  - intros H.
    destruct (setWorld_effect _ _ _ _ _ _ _ H)
      as (lw0 & wd0 & h1 & mw & mb & mc & mj & Heff).
    cbv zeta in Heff.
    destruct Heff as (_ & _ & _ & _ & _ & _ & _ & _ & _ & _ & -> & _).
    by destruct (stepMessage_backends t) as (_ & -> & _).
  - by intros [= <-].
  - by intros [= <-].
Qed.

Lemma step_demoToken (e : event) (t t' : Testbed) :
  step e t = Some t' ->
  demoToken t' = (demoToken t + if is_SetWorld e then 1 else 0)%Z.
Proof.
  destruct e as [data now | i now | w b c j now | | p | o]; simpl.
  - unfold onmessage. destruct (token_differs data t).
    { intros [= <-]. lia. }
    intros H. apply pace_frame in H as (_ & -> & _).
    destruct (token_matches data t), data; simpl; lia.
  - unfold timeout. destruct (timers t !! i) as [tm |]; [| done].
    destruct (timer_due tm now); [| done]. intros [= <-]. simpl. lia.
  - intros H. by apply setWorld_inv in H as (-> & _).
  - intros [= <-]. simpl. lia.
  - intros [= <-]. simpl. lia.
  - intros [= <-]. simpl. lia.
Qed.

(** A switch, with the builder of a demo. *)
Lemma switch_initWorld (demos : string -> option Demo) (demo' : string)
  (now : Z) (c c' : Controller) :
  switchToDemo (fun n => option_map initWorld (demos n)) demo' now c = Some c' ->
  demoToken (testbed c') = (demoToken (testbed c) + 1)%Z /\
  (sliders_follow_backend c -> sliders_follow_backend c').
Proof.
  intros H.
  apply switchToDemo_inv in H
    as (f & c0 & p0 & Hf & H & Ht & _ & _ & _ & Hpar).
  cbv zeta in Hpar.
  destruct Hpar as (Hbe & Hpbe & _ & _ & _ & _ & _ & Hv0 & Hp0).
  destruct (demos demo') as [d |]; [| done]. injection Hf as <-.
  apply initWorld_inv in H as (t' & H & ->). cbv zeta in H.
  pose proof (setWorld_inv _ _ _ _ _ _ _ H) as (Htok & _).
  pose proof (setWorld_effect _ _ _ _ _ _ _ H)
    as (lw0 & wd0 & h1 & mw & mb & mc & mj & Heff).
  cbv zeta in Heff.
  destruct Heff as (_ & _ & _ & _ & _ & _ & _ & _ & _ & _ & Hpars & _).
  pose proof (stepMessage_backends
                (set_store (store (testbed c0) ++
                   demo_objects d (length (store (testbed c0))))
                   (testbed c0))) as (_ & B2 & _).
  rewrite <- Hpars in B2. cbn [parameters set_store] in B2.
  rewrite Ht in B2, Htok. cbn [parameters demoToken set_parameters set_store]
    in B2, Htok.
  split; [by rewrite testbed_lookAt |].
  intros (Hv & Hp & Hi).
  unfold sliders_follow_backend. rewrite testbed_lookAt.
  unfold lookAt.
  assert (G : forall x : Controller,
             velIter (set_inhibitLookAt false x) = velIter x /\
             posIter (set_inhibitLookAt false x) = posIter x /\
             inhibitLookAt (set_inhibitLookAt false x) = false) by done.
  destruct (G (if negb (inhibitLookAt (set_testbed t' c0))
               then set_view (view (set_testbed t' c0) ++
                      [LookAt (demo_camera d (length (store (testbed c0))))])
                      (set_testbed t' c0)
               else set_testbed t' c0)) as (-> & -> & ->).
  assert (G2 : velIter (if negb (inhibitLookAt (set_testbed t' c0))
               then set_view (view (set_testbed t' c0) ++
                      [LookAt (demo_camera d (length (store (testbed c0))))])
                      (set_testbed t' c0)
               else set_testbed t' c0) = velIter c0 /\
               posIter (if negb (inhibitLookAt (set_testbed t' c0))
               then set_view (view (set_testbed t' c0) ++
                      [LookAt (demo_camera d (length (store (testbed c0))))])
                      (set_testbed t' c0)
               else set_testbed t' c0) = posIter c0).
  { by destruct (negb _). }
  destruct G2 as (-> & ->).
  cbn [testbed set_testbed]. rewrite B2, Hpbe, Hv0, Hp0, Hv.
  split; [| done].
  destruct (String.eqb (backend (parameters (testbed c))) PHYSX_BACKEND_NAME);
    [done |].
  by destruct (String.eqb (prevBackend (parameters (testbed c)))
                 PHYSX_BACKEND_NAME).
Qed.

Lemma perform_invariant (demos : string -> option Demo) (a : action)
  (c c' : Controller) :
  perform demos a c = Some c' ->
  demoToken (testbed c')
  = (demoToken (testbed c) + if sets_world a then 1 else 0)%Z /\
  (is_raw_edit a = false -> sliders_follow_backend c ->
   sliders_follow_backend c').
Proof.
  destruct a as [e | demo' now | backend' now | |]; simpl.
  - destruct (step e (testbed c)) as [t |] eqn:E; [| done]. intros [= <-].
    split; [by apply step_demoToken |].
    intros He (Hv & Hp & Hi). unfold sliders_follow_backend.
    cbn [testbed set_testbed velIter posIter inhibitLookAt].
    by rewrite (step_prevBackend e _ _ He E).
  - intros H. destruct (switch_initWorld _ _ _ _ _ H) as [H1 H2].
    split; [done |]. intros _ Hs. apply H2. by destruct Hs.
  - unfold switchToBackend. intros H.
    destruct (switch_initWorld _ _ _ _ _ H) as [H1 H2].
    split; [done |]. intros _ Hs. apply H2. by destruct Hs.
  - intros [= <-]. split; [simpl; lia | by intros _].
  - intros [= <-]. split; [simpl; lia | by intros _].
Qed.

Lemma step_backend (e : event) (t t' : Testbed) :
  is_raw_edit (Handle e) = false -> step e t = Some t' ->
  backend (parameters t') = backend (parameters t).
Proof.
  intros He.
  destruct e as [data now | i now | w b c j now | | p | o]; simpl; try done.
  - unfold onmessage. destruct (token_differs data t); [by intros [= <-] |].
    intros H. apply pace_parameters in H. rewrite H.
    destruct (stepMessage_backends
                (if token_matches data t then update_presentation data t
                 else t)) as (-> & _).
    by destruct (token_matches data t), data.
  - unfold timeout. destruct (timers t !! i) as [tm |]; [| done].
    destruct (timer_due tm now); [| done]. by intros [= <-].
  - intros H.
    destruct (setWorld_effect _ _ _ _ _ _ _ H)
      as (lw0 & wd0 & h1 & mw & mb & mc & mj & Heff).
    cbv zeta in Heff.
    destruct Heff as (_ & _ & _ & _ & _ & _ & _ & _ & _ & _ & -> & _).
    by destruct (stepMessage_backends t) as (-> & _).
  - by intros [= <-].
  - by intros [= <-].
Qed.

Lemma switch_backends (demos : string -> option Demo) (demo' : string)
  (now : Z) (c c' : Controller) :
  switchToDemo (fun n => option_map initWorld (demos n)) demo' now c = Some c' ->
  backend (parameters (testbed c')) = backend (parameters (testbed c)) /\
  prevBackend (parameters (testbed c')) = backend (parameters (testbed c)).
Proof.
  intros H.
  apply switchToDemo_inv in H
    as (f & c0 & p0 & Hf & H & Ht & _ & _ & _ & Hpar).
  cbv zeta in Hpar. destruct Hpar as (Hbe & Hpbe & _).
  destruct (demos demo') as [d |]; [| done]. injection Hf as <-.
  apply initWorld_inv in H as (t' & H & ->). cbv zeta in H.
  pose proof (setWorld_effect _ _ _ _ _ _ _ H)
    as (lw0 & wd0 & h1 & mw & mb & mc & mj & Heff).
  cbv zeta in Heff.
  destruct Heff as (_ & _ & _ & _ & _ & _ & _ & _ & _ & _ & Hpars & _).
  pose proof (stepMessage_backends
                (set_store (store (testbed c0) ++
                   demo_objects d (length (store (testbed c0))))
                   (testbed c0))) as (B1 & B2 & _).
  rewrite <- Hpars in B1, B2. cbn [parameters set_store] in B1, B2.
  rewrite Ht in B1, B2. cbn [parameters set_parameters set_store] in B1, B2.
  rewrite testbed_lookAt. cbn [testbed set_testbed].
  by rewrite B1, B2, Hbe, Hpbe.
Qed.

Lemma switch_shows_backend (demos : string -> option Demo) (demo' : string)
  (now : Z) (c c' : Controller) :
  sliders_follow_backend c ->
  switchToDemo (fun n => option_map initWorld (demos n)) demo' now c = Some c' ->
  sliders_show_backend c'.
Proof.
  intros Hs H.
  destruct (switch_backends _ _ _ _ _ H) as [B1 B2].
  destruct (proj2 (switch_initWorld _ _ _ _ _ H) Hs) as (Hv & Hp & Hi).
  unfold sliders_show_backend. rewrite B2 in Hv, Hp. rewrite B1, B2.
  done.
Qed.

Lemma perform_shows_backend (demos : string -> option Demo) (a : action)
  (c c' : Controller) :
  keeps_backend a c = true -> sliders_show_backend c ->
  perform demos a c = Some c' -> sliders_show_backend c'.
Proof.
  intros Hk (Hb & Hv & Hp & Hi).
  destruct a as [e | demo' now | backend' now | |]; simpl.
  - destruct (step e (testbed c)) as [t |] eqn:E; [| done]. intros [= <-].
    unfold sliders_show_backend.
    cbn [testbed set_testbed velIter posIter inhibitLookAt].
    assert (B : backend (parameters t) = backend (parameters (testbed c)) /\
                prevBackend (parameters t)
                = prevBackend (parameters (testbed c))).
    { destruct (is_raw_edit (Handle e)) eqn:He.
      - destruct e as [| | | | p |]; try done.
        simpl in Hk, E. injection E as <-.
        apply andb_true_iff in Hk as [H1 H2].
        apply String.eqb_eq in H1, H2. done.
      - split; [by eapply step_backend | by eapply step_prevBackend]. }
    destruct B as [-> ->]. done.
  - apply switch_shows_backend. unfold sliders_follow_backend.
    cbn [choose_demo testbed set_testbed parameters set_parameters
         prevBackend velIter posIter inhibitLookAt].
    by rewrite Hb.
  - unfold switchToBackend. apply switch_shows_backend.
    unfold sliders_follow_backend.
    cbn [choose_backend testbed set_testbed parameters set_parameters
         prevBackend velIter posIter inhibitLookAt].
    by rewrite Hb.
  - by intros [= <-].
  - by intros [= <-].
Qed.

(** X10.  Along every sequence of actions (messages of the worker,
    timeouts, calls of [setWorld], frames, edits of the GUI that write
    other parameters than the backend, demos and backends chosen,
    snapshots), from a state in which the sliders show the backend: the
    slider of the velocity iterations is disabled exactly when the
    backend of the parameters is PhysX, the slider of the position
    iterations is enabled exactly when it is Rapier, the previous
    backend is the backend, and no call of [lookAt] is left inhibited. *)
Theorem sliders_invariant (demos : string -> option Demo) (l : list action)
  (c c' : Controller) :
  sliders_show_backend c ->
  backend_by_switch demos l c = true ->
  perform_all demos l c = Some c' ->
  sliders_show_backend c' /\
  (velIter c' = disabled <->
   backend (parameters (testbed c')) = PHYSX_BACKEND_NAME) /\
  (posIter c' = enabled <-> backend (parameters (testbed c')) = "rapier").
Proof.
  intros Hs Hl H.
  assert (G : sliders_show_backend c').
  { revert c Hs Hl H. induction l as [| a l IH]; intros c Hs Hl H.
    - by injection H as <-.
    - simpl in H, Hl. apply andb_true_iff in Hl as [Ha Hl].
      destruct (perform demos a c) as [c1 |] eqn:E; [| done].
      apply (IH c1); [| done | done].
      by apply (perform_shows_backend demos a c). }
  split; [exact G |]. destruct G as (_ & -> & -> & _).
  split.
  - destruct (String.eqb_spec (backend (parameters (testbed c')))
                PHYSX_BACKEND_NAME); by split.
  - destruct (String.eqb_spec (backend (parameters (testbed c'))) "rapier");
      by split.
Qed.

Lemma sliders_invariant_witness :
  exists c' : Controller,
    perform_all Example.demos Example.session_with_pause new_controller
    = Some c' /\
    running (parameters (testbed c')) = false /\
    sliders_show_backend c' /\
    (velIter c' = disabled <->
     backend (parameters (testbed c')) = PHYSX_BACKEND_NAME) /\
    (posIter c' = enabled <-> backend (parameters (testbed c')) = "rapier").
Proof.
  eexists. split; [vm_compute; reflexivity |].
  split; [vm_compute; reflexivity |].
  apply (sliders_invariant Example.demos Example.session_with_pause
           new_controller).
  - repeat split.
  - vm_compute. reflexivity.
  - vm_compute. reflexivity.
Defined.

(** X11.  Along every sequence of actions the token grows by exactly one
    at each action that sets a world (a demo chosen, a backend chosen, a
    direct call of [setWorld]) and is changed by nothing else: not by a
    message of the worker, a timeout, a frame, a parameter written by the
    GUI, or a snapshot taken or restored. *)
Theorem switch_mints_token (demos : string -> option Demo) (l : list action)
  (c c' : Controller) :
  perform_all demos l c = Some c' ->
  demoToken (testbed c')
  = (demoToken (testbed c) + Z.of_nat (length (List.filter sets_world l)))%Z.
Proof.
  revert c. induction l as [| a l IH]; intros c H.
  - injection H as <-. simpl. lia.
  - simpl in H.
    destruct (perform demos a c) as [c1 |] eqn:E; [| done].
    destruct (perform_invariant _ _ _ _ E) as [H1 _].
    rewrite (IH c1 H), H1. cbn [List.filter].
    destruct (sets_world a); cbn [length]; lia.
Qed.

Lemma switch_mints_token_witness :
  exists c' : Controller,
    perform_all Example.demos Example.session new_controller = Some c' /\
    demoToken (testbed c') = 4%Z.
Proof.
  eexists. split; [vm_compute; reflexivity |].
  apply (switch_mints_token Example.demos Example.session new_controller).
  vm_compute. reflexivity.
Defined.

(* ================================================================== *)
(** ** The graphics: palette, positions and reset *)

Module GraphicsFacts.
Import Graphics.

Lemma map_get_set_eq (k : Z) (v : Gfx) (m : list (Z * Gfx)) :
  map_get k (map_set k v m) = Some v.
Proof.
  induction m as [| [k' v'] m IH]; simpl.
  - by rewrite Z.eqb_refl.
  - destruct (Z.eqb_spec k k') as [-> | Hne]; simpl.
    + by rewrite Z.eqb_refl.
    + destruct (Z.eqb_spec k k'); [done | exact IH].
Qed.

Lemma map_get_set_ne (k k' : Z) (v : Gfx) (m : list (Z * Gfx)) :
  k <> k' -> map_get k' (map_set k v m) = map_get k' m.
Proof.
  intros Hne. induction m as [| [k0 v0] m IH]; simpl.
  - destruct (Z.eqb_spec k' k); [congruence | done].
  - destruct (Z.eqb_spec k k0) as [-> | Hk]; simpl.
    + destruct (Z.eqb_spec k' k0); [congruence | done].
    + destruct (Z.eqb_spec k' k0); [done | exact IH].
Qed.

Lemma map_set_absent (k : Z) (v : Gfx) (m : list (Z * Gfx)) :
  map_get k m = None -> map_set k v m = m ++ [(k, v)].
Proof.
  induction m as [| [k0 v0] m IH]; simpl; [done |].
  destruct (Z.eqb_spec k k0); [done |]. intros H. by rewrite IH.
Qed.

Lemma map_set_present (k : Z) (v x : Gfx) (m : list (Z * Gfx)) :
  map_get k m = Some x -> gfx_id v = gfx_id x ->
  map (fun kv => gfx_id (snd kv)) (map_set k v m)
  = map (fun kv => gfx_id (snd kv)) m /\
  map fst (map_set k v m) = map fst m.
Proof.
  induction m as [| [k0 v0] m IH]; simpl; [done |].
  destruct (Z.eqb_spec k k0) as [-> | Hne]; simpl.
  - intros [= ->] ->. done.
  - intros H1 H2. destruct (IH H1 H2) as [-> ->]. done.
Qed.

Lemma addCollider_inv (c : Collider2d) (g g' : Graphics) :
  addCollider c g = Some g' ->
  exists x : Gfx,
    coll2gfx g' = map_set (c_handle c) x (coll2gfx g) /\
    gfx_id x = created g /\
    gfx_instance x = (if c_static c then 0 else colorIndex g + 1) /\
    gfx_instance x < length colorPalette /\
    position_x x = fst (c_translation c) /\
    position_y x = (- snd (c_translation c))%Q /\
    viewport g' = viewport g ++ [created g] /\
    colorIndex g' = (colorIndex g + 1) mod 3 /\
    created g' = S (created g) /\
    showable c = true.
Proof.
  unfold addCollider, showable. cbv zeta.
  set (i := if c_static c then 0 else colorIndex g + 1).
  destruct (String.eqb (c_shapeType c) "Cuboid").
  - destruct (nth_error colorPalette i) as [col |] eqn:E; [| done].
    assert (Hi : i < length colorPalette)
      by (apply nth_error_Some; by rewrite E).
    destruct (c_halfExtents c) as [[hx hy] |]; [| done].
    intros [= <-]. eexists. repeat split; try reflexivity. exact Hi.
  - destruct (String.eqb (c_shapeType c) "Ball"); [| done].
    destruct (nth_error colorPalette i) as [col |] eqn:E; [| done].
    assert (Hi : i < length colorPalette)
      by (apply nth_error_Some; by rewrite E).
    intros [= <-]. eexists. repeat split; try reflexivity. exact Hi.
Qed.

Lemma addCollider_total (c : Collider2d) (g : Graphics) :
  colorIndex g < 3 -> showable c = true -> is_Some (addCollider c g).
Proof.
  intros Hc Hs. unfold addCollider, showable in *. cbv zeta.
  set (i := if c_static c then 0 else colorIndex g + 1).
  assert (Hi : i < length colorPalette).
  { subst i. simpl. destruct (c_static c); lia. }
  apply nth_error_Some in Hi.
  destruct (nth_error colorPalette i) as [col |]; [| done].
  destruct (String.eqb (c_shapeType c) "Cuboid"); simpl in Hs.
  - destruct (c_halfExtents c) as [[hx hy] |]; [by eexists | done].
  - destruct (String.eqb (c_shapeType c) "Ball"); [by eexists | done].
Qed.

Lemma fold_update_instances (ps : list Position2d) (m : list (Z * Gfx)) :
  (forall k x, map_get k m = Some x -> gfx_instance x < length colorPalette) ->
  forall k x, map_get k (fold_left update_position ps m) = Some x ->
              gfx_instance x < length colorPalette.
Proof.
  revert m. induction ps as [| e ps IH]; intros m Hm; [done |].
  simpl. apply IH. intros k x. unfold update_position.
  destruct (map_get (p_handle e) m) as [y |] eqn:E; [| apply Hm].
  destruct (Z.eq_dec (p_handle e) k) as [<- | Hne].
  - rewrite map_get_set_eq. intros [= <-]. simpl. by eapply Hm.
  - rewrite map_get_set_ne by done. apply Hm.
Qed.

Lemma apply_in_palette (o : op) (g g' : Graphics) :
  in_palette g -> apply o g = Some g' -> in_palette g'.
Proof.
  intros [Hc Hm]. destruct o as [c | ps |]; simpl.
  - intros H. apply addCollider_inv in H
      as (x & Hmap & _ & _ & Hx & _ & _ & _ & Hci & _).
    split; [rewrite Hci; apply Nat.mod_upper_bound; lia |].
    intros k y. rewrite Hmap.
    destruct (Z.eq_dec (c_handle c) k) as [<- | Hne].
    + rewrite map_get_set_eq. by intros [= <-].
    + rewrite map_get_set_ne by done. apply Hm.
  - intros [= <-]. split; [done |]. simpl. by apply fold_update_instances.
  - intros [= <-]. split; [simpl; lia | done].
Qed.

(** X12.  After any sequence of calls of [addCollider], of
    [updatePositions] and of [reset] on new graphics, the colour index
    is 0, 1 or 2 and every graphics object of the map is the clone of an
    instance of the palette; hence every cuboid with half-extents and
    every ball can be added: the instance that [addCollider] clones
    exists. *)
Theorem palette_invariant (l : list op) (g : Graphics) :
  apply_all l new_Graphics = Some g ->
  colorIndex g < 3 /\
  (forall k x, map_get k (coll2gfx g) = Some x ->
               gfx_instance x < length colorPalette) /\
  (forall c, showable c = true -> is_Some (addCollider c g)).
Proof.
  assert (G : forall l g0 g, in_palette g0 -> apply_all l g0 = Some g ->
                             in_palette g).
  { clear. induction l as [| o l IH]; intros g0 g H0 H.
    - by injection H as <-.
    - simpl in H. destruct (apply o g0) as [g1 |] eqn:E; [| done].
      eapply IH; [| exact H]. by eapply apply_in_palette. }
  intros H. destruct (G l new_Graphics g) as [Hc Hm]; [| done |].
  { split; [simpl; lia | done]. }
  split; [done |]. split; [done |]. intros c. by apply addCollider_total.
Qed.

Lemma palette_invariant_witness :
  exists g : Graphics,
    apply_all [Add ground; Add block; Add ball; Add block; Add ball;
               Update [mkPosition2d 1 7 8 (1 # 2)]; Add ball]
      new_Graphics = Some g /\
    colorIndex g < 3 /\
    (forall k x, map_get k (coll2gfx g) = Some x ->
                 gfx_instance x < length colorPalette) /\
    (forall c, showable c = true -> is_Some (addCollider c g)).
Proof.
  eexists. split; [vm_compute; reflexivity |].
  apply (palette_invariant
           [Add ground; Add block; Add ball; Add block; Add ball;
            Update [mkPosition2d 1 7 8 (1 # 2)]; Add ball]).
  vm_compute. reflexivity.
Defined.

(** X13.  With a colour index of the palette, [addCollider] returns
    exactly for the cuboids that have half-extents and for the balls; for
    every other shape (and for a cuboid without half-extents) it throws:
    the graphics object whose position it writes is [undefined]. *)
Theorem addCollider_returns_iff (c : Collider2d) (g : Graphics) :
  colorIndex g < 3 ->
  (is_Some (addCollider c g) <-> showable c = true).
Proof.
  intros Hc. split.
  - intros [g' H].
    by apply addCollider_inv in H as (x & _ & _ & _ & _ & _ & _ & _ & _ & _ & H).
  - by apply addCollider_total.
Qed.

Lemma addCollider_returns_iff_witness :
  (is_Some (addCollider triangle new_Graphics) <-> showable triangle = true) /\
  addCollider triangle new_Graphics = None /\
  is_Some (addCollider ball new_Graphics).
Proof.
  split; [| split].
  - apply (addCollider_returns_iff triangle new_Graphics). simpl. lia.
  - reflexivity.
  - apply (addCollider_returns_iff ball new_Graphics); [simpl; lia |].
    reflexivity.
Defined.

(** X14.  A collider that [addCollider] adds is shown by a new graphics
    object, the last child of the viewport, which the map holds under
    the handle of the collider; the object is at the translation of the
    collider with the sign of [y] changed.  It is the clone of instance 0
    when the parent of the collider is static, and of one of the
    instances 1, 2 and 3 otherwise, and the colour index moves to the
    next of 0, 1, 2 in both cases. *)
Theorem addCollider_result (c : Collider2d) (g g' : Graphics) :
  colorIndex g < 3 ->
  addCollider c g = Some g' ->
  exists x : Gfx,
    map_get (c_handle c) (coll2gfx g') = Some x /\
    viewport g' = viewport g ++ [gfx_id x] /\
    position_x x = fst (c_translation c) /\
    position_y x = (- snd (c_translation c))%Q /\
    (gfx_instance x = 0 <-> c_static c = true) /\
    gfx_instance x <= 3 /\
    colorIndex g' = (colorIndex g + 1) mod 3 /\
    (forall k, k <> c_handle c ->
               map_get k (coll2gfx g') = map_get k (coll2gfx g)).
Proof.
  intros Hc H.
  apply addCollider_inv in H
    as (x & Hmap & Hid & Hin & Hlt & Hx & Hy & Hv & Hci & _).
  exists x. rewrite Hmap, map_get_set_eq, Hid.
  repeat split; try done.
  - rewrite Hin. destruct (c_static c); [done | lia].
  - intros Hs. by rewrite Hin, Hs.
  - simpl in Hlt. lia.
  - intros k Hk. by apply map_get_set_ne.
Qed.

Lemma addCollider_result_witness :
  colorIndex new_Graphics < 3 /\
  exists g' : Graphics,
    addCollider block new_Graphics = Some g' /\
    exists x : Gfx,
      map_get (c_handle block) (coll2gfx g') = Some x /\
      viewport g' = viewport new_Graphics ++ [gfx_id x] /\
      position_x x = fst (c_translation block) /\
      position_y x = (- snd (c_translation block))%Q /\
      (gfx_instance x = 0 <-> c_static block = true) /\
      gfx_instance x <= 3 /\
      colorIndex g' = (colorIndex new_Graphics + 1) mod 3 /\
      (forall k, k <> c_handle block ->
                 map_get k (coll2gfx g') = map_get k (coll2gfx new_Graphics)).
Proof.
  split; [simpl; lia |].
  eexists. split; [reflexivity |].
  apply (addCollider_result block new_Graphics); [simpl; lia | reflexivity].
Defined.


Lemma update_position_ids (m : list (Z * Gfx)) (p : Position2d) :
  ids (update_position m p) = ids m /\
  map fst (update_position m p) = map fst m.
Proof.
  unfold update_position.
  destruct (map_get (p_handle p) m) as [x |] eqn:E; [| done].
  by eapply map_set_present.
Qed.

Lemma fold_update_ids (ps : list Position2d) (m : list (Z * Gfx)) :
  ids (fold_left update_position ps m) = ids m /\
  map fst (fold_left update_position ps m) = map fst m.
Proof.
  revert m. induction ps as [| p ps IH]; intros m; [done |].
  simpl. destruct (IH (update_position m p)) as [-> ->].
  apply update_position_ids.
Qed.

Lemma removeChild_In (id x : nat) (l : list nat) :
  In x (removeChild id l) -> In x l.
Proof.
  induction l as [| a l IH]; simpl; [done |].
  destruct (Nat.eqb id a); [by right |].
  intros [-> | H]; [by left | right; by apply IH].
Qed.

Lemma removeChild_other (id x : nat) (l : list nat) :
  In x l -> x <> id -> In x (removeChild id l).
Proof.
  intros H Hne. induction l as [| a l IH]; simpl in *; [done |].
  destruct (Nat.eqb_spec id a) as [-> | Ha].
  - destruct H as [-> | H]; [done | exact H].
  - destruct H as [-> | H]; [by left | right; by apply IH].
Qed.

Lemma removeChild_NoDup (id : nat) (l : list nat) :
  NoDup l -> NoDup (removeChild id l).
Proof.
  induction 1 as [| a l Ha Hl IH]; simpl; [constructor |].
  destruct (Nat.eqb id a); [exact Hl |].
  constructor; [| exact IH].
  intros H. apply Ha. apply list_elem_of_In. eapply removeChild_In.
  by apply list_elem_of_In.
Qed.

Lemma removeChild_gone (id : nat) (l : list nat) :
  NoDup l -> ~ In id (removeChild id l).
Proof.
  induction 1 as [| a l Ha Hl IH]; simpl; [tauto |].
  destruct (Nat.eqb_spec id a) as [-> | Hne].
  - intros H. apply Ha. by apply list_elem_of_In.
  - intros [-> | H]; [done | by apply IH].
Qed.

Lemma remove_all_In (l : list nat) (x : nat) (children : list nat) :
  In x (remove_all l children) -> In x children.
Proof.
  revert children. induction l as [| a l IH]; intros children; [done |].
  simpl. intros H. eapply removeChild_In, IH, H.
Qed.

Lemma remove_all_other (l : list nat) (x : nat) (children : list nat) :
  In x children -> ~ In x l -> In x (remove_all l children).
Proof.
  revert children. induction l as [| a l IH]; intros children H Hl; [done |].
  simpl. apply IH.
  - apply removeChild_other; [done |]. intros ->. apply Hl. by left.
  - intros Hx. apply Hl. by right.
Qed.

Lemma remove_all_NoDup (l children : list nat) :
  NoDup children -> NoDup (remove_all l children).
Proof.
  revert children. induction l as [| a l IH]; intros children H; [done |].
  simpl. by apply IH, removeChild_NoDup.
Qed.

Lemma remove_all_gone (l : list nat) (id : nat) (children : list nat) :
  NoDup children -> In id l -> ~ In id (remove_all l children).
Proof.
  revert children.
  induction l as [| a l IH]; intros children Hc; [done |].
  simpl. intros [-> | Hin].
  - intros H. apply remove_all_In in H. by apply removeChild_gone in H.
  - by apply IH; [apply removeChild_NoDup |].
Qed.

Lemma remove_all_prefix (l r : list nat) : remove_all l (l ++ r) = r.
Proof.
  induction l as [| a l IH]; [done |].
  simpl. by rewrite Nat.eqb_refl.
Qed.

Lemma remove_all_self (l : list nat) : remove_all l l = [].
Proof.
  pose proof (remove_all_prefix l []) as H. by rewrite app_nil_r in H.
Qed.

Lemma map_get_In (k : Z) (m : list (Z * Gfx)) (x : Gfx) :
  map_get k m = Some x -> In (gfx_id x) (ids m).
Proof.
  induction m as [| [k0 v0] m IH]; simpl; [done |].
  destruct (k =? k0)%Z; [intros [= ->]; by left | right; by apply IH].
Qed.

Lemma map_set_ids_In (k : Z) (v : Gfx) (m : list (Z * Gfx)) (id : nat) :
  In id (ids (map_set k v m)) -> id = gfx_id v \/ In id (ids m).
Proof.
  induction m as [| [k0 v0] m IH]; simpl.
  - intros [<- | []]. by left.
  - destruct (k =? k0)%Z; simpl.
    + intros [<- | H]; [by left | right; by right].
    + intros [<- | H]; [right; by left |].
      destruct (IH H) as [-> | H']; [by left | right; by right].
Qed.

Lemma map_set_ids_NoDup (k : Z) (v : Gfx) (m : list (Z * Gfx)) :
  NoDup (ids m) -> ~ In (gfx_id v) (ids m) -> NoDup (ids (map_set k v m)).
Proof.
  induction m as [| [k0 v0] m IH]; simpl.
  - intros _ _. apply NoDup_singleton.
  - intros [Hv0 Hm]%NoDup_cons Hv.
    destruct (k =? k0)%Z; simpl; apply NoDup_cons.
    + split; [| exact Hm]. intros H%list_elem_of_In. apply Hv. by right.
    + split.
      * intros H%list_elem_of_In. apply map_set_ids_In in H as [E | H].
        -- apply Hv. by left.
        -- apply Hv0. by apply list_elem_of_In.
      * apply IH; [exact Hm |]. intros H. apply Hv. by right.
Qed.

Lemma map_set_replaced (k : Z) (v x : Gfx) (m : list (Z * Gfx)) :
  map_get k m = Some x -> NoDup (ids m) -> gfx_id v <> gfx_id x ->
  ~ In (gfx_id x) (ids (map_set k v m)).
Proof.
  induction m as [| [k0 v0] m IH]; simpl; [done |].
  intros H [Hv0 Hm]%NoDup_cons Hne.
  destruct (k =? k0)%Z; simpl.
  - injection H as ->. intros [E | H]; [done |].
    apply Hv0. by apply list_elem_of_In.
  - intros [E | H'].
    + apply Hv0. apply list_elem_of_In. rewrite E. by eapply map_get_In.
    + by apply IH.
Qed.

Lemma addCollider_destroyed (c : Collider2d) (g g' : Graphics) :
  addCollider c g = Some g' -> destroyed g' = destroyed g.
Proof.
  unfold addCollider. cbv zeta.
  destruct (if String.eqb (c_shapeType c) "Cuboid" then _ else _)
    as [[[group sx] sy] |]; [| done].
  by intros [= <-].
Qed.

Lemma consistent_new : consistent new_Graphics.
Proof.
  repeat split; simpl; try done; apply NoDup_nil_2.
Qed.

Lemma addCollider_ids (c : Collider2d) (g g' : Graphics) (id : nat) :
  addCollider c g = Some g' ->
  In id (shown g') -> id = created g \/ In id (shown g).
Proof.
  intros H. apply addCollider_inv in H as (x & Hmap & Hid & _).
  unfold shown. rewrite Hmap. intros Hin.
  apply map_set_ids_In in Hin. by rewrite Hid in Hin.
Qed.

Lemma apply_consistent (o : op) (g g' : Graphics) :
  consistent g -> apply o g = Some g' -> consistent g'.
Proof.
  intros (Hv & Hs & Hsv & Hb & Hd). destruct o as [c | ps |]; simpl.
  - intros H. pose proof (addCollider_destroyed _ _ _ H) as Hdes.
    apply addCollider_inv in H
      as (x & Hmap & Hid & _ & _ & _ & _ & Hview & _ & Hcr & _).
    assert (Hnew : ~ In (created g) (viewport g)).
    { intros Hin. apply Hb in Hin. lia. }
    unfold consistent, shown. rewrite Hmap, Hview, Hcr, Hdes.
    split; [| split; [| split; [| split]]].
    + apply NoDup_app. split; [exact Hv |]. split; [| apply NoDup_singleton].
      intros y Hy%list_elem_of_In ->%list_elem_of_singleton.
      by apply Hnew.
    + apply map_set_ids_NoDup; [exact Hs |]. rewrite Hid.
      intros Hin. by apply Hnew, Hsv.
    + intros id Hin. apply in_app_iff.
      apply map_set_ids_In in Hin as [-> | Hin];
        [right; rewrite Hid; by left | left; by apply Hsv].
    + intros id [Hin | [<- | []]]%in_app_iff; [apply Hb in Hin |]; lia.
    + intros id Hin. destruct (Hd id Hin) as [Hlt Hout].
      split; [lia |]. intros [Hin' | [<- | []]]%in_app_iff; [done | lia].
  - intros [= <-]. unfold consistent, shown. simpl.
    destruct (fold_update_ids ps (coll2gfx g)) as [-> _]. done.
  - intros [= <-]. unfold consistent. simpl.
    split; [by apply remove_all_NoDup |].
    split; [apply NoDup_nil_2 |]. split; [done |].
    split; [intros id Hin%remove_all_In; by apply Hb |].
    intros id [Hin | Hin]%in_app_iff.
    + destruct (Hd id Hin) as [Hlt Hout].
      split; [done |]. intros Hr%remove_all_In. done.
    + split; [by apply Hb, Hsv |]. by apply remove_all_gone.
Qed.

Lemma apply_all_consistent (l : list op) (g0 g : Graphics) :
  consistent g0 -> apply_all l g0 = Some g -> consistent g.
Proof.
  revert g0. induction l as [| o l IH]; intros g0 H0 H.
  - by injection H as <-.
  - simpl in H. destruct (apply o g0) as [g1 |] eqn:E; [| done].
    eapply IH; [| exact H]. by eapply apply_consistent.
Qed.

Lemma apply_orphan (o : op) (g g' : Graphics) (id : nat) :
  consistent g -> orphan id g -> apply o g = Some g' -> orphan id g'.
Proof.
  intros (Hv & Hs & Hsv & Hb & Hd) [Hin Hout].
  destruct o as [c | ps |]; simpl.
  - intros H. split.
    + apply addCollider_inv in H
        as (x & _ & _ & _ & _ & _ & _ & Hview & _).
      rewrite Hview. apply in_app_iff. by left.
    + intros Hs'. destruct (addCollider_ids _ _ _ _ H Hs') as [E | Hs''].
      * apply Hb in Hin. lia.
      * done.
  - intros [= <-]. unfold orphan, shown. simpl.
    destruct (fold_update_ids ps (coll2gfx g)) as [-> _]. done.
  - intros [= <-]. unfold orphan. simpl. split; [| tauto].
    by apply remove_all_other.
Qed.

Lemma apply_all_orphan (l : list op) (g0 g : Graphics) (id : nat) :
  consistent g0 -> orphan id g0 -> apply_all l g0 = Some g ->
  consistent g /\ orphan id g.
Proof.
  revert g0. induction l as [| o l IH]; intros g0 H0 Ho H.
  - by injection H as <-.
  - simpl in H. destruct (apply o g0) as [g1 |] eqn:E; [| done].
    eapply IH; [| | exact H];
      [by eapply apply_consistent | by eapply apply_orphan].
Qed.

Lemma apply_all_shown (l : list op) (g0 g : Graphics) :
  viewport g0 = shown g0 -> apply_all l g0 = Some g ->
  new_handles l g0 = true -> viewport g = shown g.
Proof.
  revert g0. induction l as [| o l IH]; intros g0 H0 H Hn.
  - by injection H as <-.
  - simpl in H, Hn. destruct (apply o g0) as [g1 |] eqn:E; [| done].
    apply andb_prop in Hn as [Ho Hn].
    eapply IH; [| exact H | exact Hn].
    destruct o as [c | ps |]; simpl in E.
    + destruct (map_get (c_handle c) (coll2gfx g0)) eqn:Eg; [done |].
      apply addCollider_inv in E
        as (x & Hmap & Hid & _ & _ & _ & _ & Hview & _).
      unfold shown in *. rewrite Hmap, Hview, (map_set_absent _ _ _ Eg).
      rewrite map_app. simpl. by rewrite Hid, H0.
    + injection E as <-. unfold shown in *. simpl.
      destruct (fold_update_ids ps (coll2gfx g0)) as [-> _]. done.
    + injection E as <-. simpl. rewrite H0. apply remove_all_self.
Qed.


(** X16.  After any sequence of calls of [addCollider], of
    [updatePositions] and of [reset] on new graphics, every graphics
    object of the map is a child of the viewport and is not destroyed,
    no destroyed object is a child of the viewport, and no object is
    twice a child of the viewport. *)
Theorem graphics_consistent (l : list op) (g : Graphics) :
  apply_all l new_Graphics = Some g ->
  (forall k x, map_get k (coll2gfx g) = Some x ->
               In (gfx_id x) (viewport g) /\ ~ In (gfx_id x) (destroyed g)) /\
  (forall id, In id (destroyed g) -> ~ In id (viewport g)) /\
  NoDup (viewport g).
Proof.
  intros H. apply apply_all_consistent in H as (Hv & Hs & Hsv & Hb & Hd);
    [| apply consistent_new].
  split; [| split; [| exact Hv]].
  - intros k x Hk. apply map_get_In in Hk.
    split; [by apply Hsv |]. intros Hin. apply Hd in Hin as [_ Hout].
    by apply Hout, Hsv.
  - intros id Hin. by apply Hd.
Qed.

Lemma graphics_consistent_witness :
  exists g : Graphics,
    apply_all [Add ground; Add block; ResetAll; Add ball; Add ball]
      new_Graphics = Some g /\
    (forall k x, map_get k (coll2gfx g) = Some x ->
                 In (gfx_id x) (viewport g) /\ ~ In (gfx_id x) (destroyed g)) /\
    (forall id, In id (destroyed g) -> ~ In id (viewport g)) /\
    NoDup (viewport g).
Proof.
  eexists. split; [vm_compute; reflexivity |].
  apply (graphics_consistent
           [Add ground; Add block; ResetAll; Add ball; Add ball]).
  vm_compute. reflexivity.
Defined.

(** X17.  When every collider is added under a handle that the map does
    not have, the children of the viewport are the graphics objects of
    the map, in the order of the map, and [reset] removes them all: the
    viewport is empty after it, and every child is destroyed. *)
Theorem reset_clears_viewport (l : list op) (g : Graphics) :
  apply_all l new_Graphics = Some g ->
  new_handles l new_Graphics = true ->
  viewport g = shown g /\
  viewport (reset g) = [] /\
  destroyed (reset g) = destroyed g ++ viewport g.
Proof.
  intros H Hn.
  assert (Hv : viewport g = shown g).
  { by apply (apply_all_shown l new_Graphics). }
  split; [exact Hv |]. simpl. rewrite Hv. split; [| done].
  apply remove_all_self.
Qed.

Lemma reset_clears_viewport_witness :
  exists g : Graphics,
    apply_all [Add ground; Add block; Update [mkPosition2d 1 7 8 (1 # 2)];
               Add ball] new_Graphics = Some g /\
    viewport g = shown g /\
    viewport (reset g) = [] /\
    destroyed (reset g) = destroyed g ++ viewport g.
Proof.
  eexists. split; [vm_compute; reflexivity |].
  apply (reset_clears_viewport
           [Add ground; Add block; Update [mkPosition2d 1 7 8 (1 # 2)];
            Add ball]);
    vm_compute; reflexivity.
Defined.

(** X18.  When a collider is added under a handle that the map already
    has, the graphics object that the map held under the handle stays a
    child of the viewport for ever: the map no longer holds it, so that no
    later call of [reset] removes or destroys it, and no later call of
    [updatePositions] moves it. *)
Theorem replaced_graphics_stays
    (l l' : list op) (c : Collider2d) (x : Gfx) (g g' g'' : Graphics) :
  apply_all l new_Graphics = Some g ->
  map_get (c_handle c) (coll2gfx g) = Some x ->
  addCollider c g = Some g' ->
  apply_all l' g' = Some g'' ->
  In (gfx_id x) (viewport g'') /\
  ~ In (gfx_id x) (destroyed g'') /\
  (forall k y, map_get k (coll2gfx g'') = Some y -> gfx_id y <> gfx_id x).
Proof.
  intros H Hx Hadd H'.
  apply apply_all_consistent in H as Hg; [| apply consistent_new].
  assert (Hg' : consistent g') by by apply (apply_consistent (Add c) g).
  assert (Ho : orphan (gfx_id x) g').
  { destruct Hg as (Hv & Hs & Hsv & Hb & Hd).
    pose proof (map_get_In _ _ _ Hx) as Hin.
    apply addCollider_inv in Hadd
      as (v & Hmap & Hid & _ & _ & _ & _ & Hview & _).
    split.
    - rewrite Hview. apply in_app_iff. left. by apply Hsv.
    - unfold shown. rewrite Hmap.
      apply map_set_replaced; [done | done |].
      rewrite Hid. apply Hsv, Hb in Hin. lia. }
  destruct (apply_all_orphan l' g' g'' (gfx_id x) Hg' Ho H')
    as [(Hv & Hs & Hsv & Hb & Hd) [Hin Hout]].
  split; [exact Hin |]. split.
  - intros Hdes. by apply Hd in Hdes as [_ Hdes].
  - intros k y Hy E. apply Hout. rewrite <- E. by eapply map_get_In.
Qed.

Lemma replaced_graphics_stays_witness :
  exists (x : Gfx) (g g' g'' : Graphics),
    apply_all [Add ground; Add block] new_Graphics = Some g /\
    map_get (c_handle block) (coll2gfx g) = Some x /\
    addCollider block g = Some g' /\
    apply_all [ResetAll; Add ball] g' = Some g'' /\
    In (gfx_id x) (viewport g'') /\
    ~ In (gfx_id x) (destroyed g'') /\
    (forall k y, map_get k (coll2gfx g'') = Some y -> gfx_id y <> gfx_id x).
Proof.
  do 4 eexists.
  split; [vm_compute; reflexivity |]. split; [vm_compute; reflexivity |].
  split; [vm_compute; reflexivity |]. split; [vm_compute; reflexivity |].
  eapply (replaced_graphics_stays [Add ground; Add block]
            [ResetAll; Add ball] block);
    vm_compute; reflexivity.
Defined.

End GraphicsFacts.
